(** * CodeContext memory engine, team memory engine and permission engine

    A shallow embedding of
    - [codecontext-core/src/services/memoryEngine.ts] (class [MemoryEngine]),
    - the compiled [teamMemoryEngine.js] (class [TeamMemoryEngine]),
    - the compiled [memoryPermissions.js] (class [MemoryPermissionsEngine]),
    followed by the properties proved about them.

    Conventions of the embedding.
    - An [async] method that may reject is a function into [result]; a method
      that also mutates [this] is a state transformer returning the outcome
      together with the state it leaves behind (mutations made before a
      [throw] stay, as in JavaScript).
    - The SQLite file is a record of tables; a table is the list of its rows
      in rowid (insertion) order.  [ORDER BY] is a stable sort of the scanned
      rows, [LIMIT n] is [firstn n].  Foreign keys are not enforced (SQLite's
      default), primary keys and [UNIQUE] constraints are.
    - Text is [string]; the character classes of the regular expressions and
      the case folding of [LIKE] are the ASCII ones.
    - Timestamps are natural numbers (seconds).  [uuid.v4()], the clock and
      the md5 digest are supplied by the host, see [Host].
    - Roles, actions, visibilities, votes, change kinds and request statuses
      are the enumerations of the TypeScript declarations; values that are
      only serialized ([context], [metadata], [permissions]) are kept as
      their JSON text; success scores are exact fractions. *)

From Stdlib Require Import List String Ascii Bool Arith PeanoNat ZArith Lia QArith.
From Stdlib Require DecimalString DecimalNat.
Import ListNotations.
Open Scope string_scope.
Open Scope list_scope.
Open Scope nat_scope.

Set Implicit Arguments.

(** ** Host services *)

(** What the embedding takes from the platform: the sequence of identifiers
    [uuid.v4()] hands out, the [CURRENT_TIMESTAMP] each statement sees, the
    value of each [new Date()], and
    [crypto.createHash('md5')...digest('hex')]. *)
Class Host := {
  uuid_v4 : nat -> string;
  wall_clock : nat -> nat;
  date_now : nat -> nat;
  md5_hex : string -> string
}.

(** ** Outcomes of promises *)

Inductive result (A : Type) : Type :=
| Ok (a : A)
| Throw (msg : string).
Arguments Ok {A} a.
Arguments Throw {A} msg.

Definition is_ok {A} (r : result A) : bool :=
  match r with Ok _ => true | Throw _ => false end.

(** ** Small JavaScript and SQL helpers *)

(** Truthiness of a string value: the empty string is falsy. *)
Definition truthy (s : string) : bool := negb (String.eqb s "").

(** Truthiness of an optional string: [undefined] and [''] are falsy. *)
Definition truthy_opt (o : option string) : bool :=
  match o with Some s => truthy s | None => false end.

(** [o || d] for an optional string. *)
Definition or_else (o : option string) (d : string) : string :=
  match o with Some s => if truthy s then s else d | None => d end.

(** [a === b] on optional strings ([undefined] is [None]). *)
Definition opt_eqb (a b : option string) : bool :=
  match a, b with
  | Some x, Some y => String.eqb x y
  | None, None => true
  | _, _ => false
  end.

(** [Array.prototype.slice(-n)]: the last [n] elements. *)
Definition lastn {A} (n : nat) (l : list A) : list A := skipn (List.length l - n) l.

(** Stable insertion sort; [le x y] says that [x] may stand before [y]. *)
Fixpoint insert_by {A} (le : A -> A -> bool) (x : A) (l : list A) : list A :=
  match l with
  | [] => [x]
  | y :: t => if le x y then x :: l else y :: insert_by le x t
  end.

Definition sort_by {A} (le : A -> A -> bool) (l : list A) : list A :=
  fold_right (insert_by le) [] l.

(** [ORDER BY key] and [ORDER BY key DESC]; ties keep rowid order. *)
Definition order_by_asc {A} (key : A -> nat) : list A -> list A :=
  sort_by (fun x y => key x <=? key y).
Definition order_by_desc {A} (key : A -> nat) : list A -> list A :=
  sort_by (fun x y => key y <=? key x).

(** ASCII lower-casing, used by [toLowerCase] and by [LIKE]. *)
Definition lower (c : ascii) : ascii :=
  let n := nat_of_ascii c in
  if (65 <=? n) && (n <=? 90) then ascii_of_nat (n + 32) else c.

Fixpoint toLowerCase (s : string) : string :=
  match s with
  | EmptyString => EmptyString
  | String c t => String (lower c) (toLowerCase t)
  end.

(** SQLite's [LIKE]: [%] matches any run of characters, [_] any single
    character, every other character matches itself up to ASCII case. *)
Fixpoint like (pat s : string) : bool :=
  match pat with
  | EmptyString => match s with EmptyString => true | _ => false end
  | String p pat' =>
      if Ascii.eqb p "%" then
        (fix star (u : string) : bool :=
           like pat' u ||
           match u with EmptyString => false | String _ u' => star u' end) s
      else
        match s with
        | EmptyString => false
        | String c s' =>
            (Ascii.eqb p "_" || Ascii.eqb (lower p) (lower c)) && like pat' s'
        end
  end.

(** [col LIKE '%term%']. *)
Definition like_contains (term col : string) : bool :=
  like ("%" ++ term ++ "%")%string col.

(** ** Schema of [memory.db] *)

Inductive MessageRole := role_user | role_assistant.
Inductive ChangeType := created | modified | deleted.


(** JSON text, opaque to the engine. *)
Definition json := string.

Record ProjectRow := {
  p_id : string; p_name : string; p_root_path : string;
  p_created_at : nat; p_last_active : nat
}.

Record ConversationRow := {
  c_id : string; c_project_id : string; c_ai_assistant : string;
  c_timestamp : nat; c_context : json
}.

Record MessageRow := {
  m_id : string; m_conversation_id : string; m_role : MessageRole;
  m_content : string; m_timestamp : nat; m_metadata : json
}.

Record DecisionRow := {
  d_id : string; d_project_id : string; d_decision : string;
  d_rationale : string; d_alternatives : list string; d_impact : list string;
  d_files_affected : list string; d_timestamp : nat
}.

Record FileChangeRow := {
  f_id : string; f_project_id : string; f_file_path : string;
  f_change_type : ChangeType; f_timestamp : nat;
  f_conversation_id : option string
}.

Record PatternRow := {
  cp_id : string; cp_project_id : string; cp_pattern : string;
  cp_frequency : nat; cp_context : json
}.

Record PreferenceRow := {
  up_id : string; up_project_id : string; up_key : string; up_value : string
}.

(** ** Schema of the team tables *)

Inductive Role := admin | developer | observer.
Inductive Visibility := private | team_only | public.
Inductive Vote := upvote | downvote.

Record TeamMemberRow := {
  tm_id : string; tm_team_id : string; tm_email : string; tm_name : string;
  tm_role : Role; tm_joined_at : nat; tm_last_active : nat;
  tm_permissions : json
}.

Record TeamMemoryRow := {
  mem_id : string; mem_team_id : string; mem_type : string;
  mem_title : string; mem_content : string; mem_context : string;
  mem_created_by : string; mem_created_at : nat; mem_updated_at : nat;
  mem_tags : list string; mem_visibility : Visibility;
  mem_project_id : option string; mem_metadata : json;
  mem_usage_count : nat; mem_success_score : Q
}.

Record VoteRow := {
  v_id : string; v_memory_id : string; v_member_id : string;
  v_vote : Vote; v_timestamp : nat
}.

Record CommentRow := {
  co_id : string; co_memory_id : string; co_member_id : string;
  co_content : string; co_timestamp : nat;
  co_parent_comment_id : option string
}.

Record UsageRow := {
  us_id : string; us_memory_id : string; us_used_by : string;
  us_used_at : nat; us_context : string; us_success : bool
}.

Record Database := {
  projects : list ProjectRow;
  conversations : list ConversationRow;
  messages : list MessageRow;
  architectural_decisions : list DecisionRow;
  file_changes : list FileChangeRow;
  code_patterns : list PatternRow;
  user_preferences : list PreferenceRow;
  team_members : list TeamMemberRow;
  team_memories : list TeamMemoryRow;
  team_memory_votes : list VoteRow;
  team_memory_comments : list CommentRow;
  team_memory_usage : list UsageRow
}.

Definition empty_database : Database :=
  {| projects := []; conversations := []; messages := [];
     architectural_decisions := []; file_changes := []; code_patterns := [];
     user_preferences := []; team_members := []; team_memories := [];
     team_memory_votes := []; team_memory_comments := [];
     team_memory_usage := [] |}.

(** The tables [clearAllMemory] names, and the columns [createTables] gives
    each of them. *)
Inductive Table :=
| T_messages | T_conversations | T_architectural_decisions
| T_file_changes | T_code_patterns | T_user_preferences.

Definition table_name (t : Table) : string :=
  match t with
  | T_messages => "messages"
  | T_conversations => "conversations"
  | T_architectural_decisions => "architectural_decisions"
  | T_file_changes => "file_changes"
  | T_code_patterns => "code_patterns"
  | T_user_preferences => "user_preferences"
  end.

Definition table_columns (t : Table) : list string :=
  match t with
  | T_messages =>
      ["id"; "conversation_id"; "role"; "content"; "timestamp"; "metadata"]
  | T_conversations =>
      ["id"; "project_id"; "ai_assistant"; "timestamp"; "context"; "summary"]
  | T_architectural_decisions =>
      ["id"; "project_id"; "decision"; "rationale"; "alternatives"; "impact";
       "files_affected"; "timestamp"]
  | T_file_changes =>
      ["id"; "project_id"; "file_path"; "change_type"; "timestamp";
       "conversation_id"]
  | T_code_patterns => ["id"; "project_id"; "pattern"; "frequency"; "context"]
  | T_user_preferences => ["id"; "project_id"; "key"; "value"]
  end.

(** ** The [MemoryEngine] object and its promise monad *)

Record MemoryEngine := {
  projectPath : string;
  db : option Database;      (* [null] until [initialize] has opened it *)
  uuid_calls : nat;          (* identifiers drawn from [uuid.v4] so far *)
  sql_calls : nat            (* writing statements run so far *)
}.

(** A promise over an object of type [S]: the outcome and the object as the
    call leaves it. *)
Definition Promise (S A : Type) : Type := S -> result A * S.

Definition ret {S A} (a : A) : Promise S A := fun s => (Ok a, s).

Definition throw {S A} (msg : string) : Promise S A := fun s => (Throw msg, s).

Definition bind {S A B} (m : Promise S A) (k : A -> Promise S B)
  : Promise S B :=
  fun s =>
    match m s with
    | (Ok a, s') => k a s'
    | (Throw msg, s') => (Throw msg, s')
    end.

Notation "x <- m ;; k" := (bind m (fun x => k))
  (at level 61, m at next level, right associativity).
Notation "m ;;; k" := (bind m (fun _ => k))
  (at level 61, right associativity).

(** [try { body } catch (error) { handler(error.message) }]. *)
Definition try_catch {S A} (body : Promise S A)
  (handler : string -> Promise S A) : Promise S A :=
  fun s =>
    match body s with
    | (Ok a, s') => (Ok a, s')
    | (Throw msg, s') => handler msg s'
    end.

(** [for (const x of l) await body(x)]. *)
Fixpoint for_each {S A} (l : list A) (body : A -> Promise S unit)
  : Promise S unit :=
  match l with
  | [] => ret tt
  | x :: t => body x ;;; for_each t body
  end.

(** [Promise.all(l.map(async x => f(x)))]. *)
Fixpoint map_M {S A B} (f : A -> Promise S B) (l : list A)
  : Promise S (list B) :=
  match l with
  | [] => ret []
  | x :: t => y <- f x ;; ys <- map_M f t ;; ret (y :: ys)
  end.

Definition M (A : Type) : Type := Promise MemoryEngine A.

Definition uuidv4 `{Host} : M string :=
  fun e =>
    (Ok (uuid_v4 (uuid_calls e)),
     {| projectPath := projectPath e; db := db e;
        uuid_calls := S (uuid_calls e); sql_calls := sql_calls e |}).

(** [runQuery]: rejects when the database is not open; otherwise runs one
    writing statement, which sees [CURRENT_TIMESTAMP] and may itself fail. *)
Definition runQuery `{Host} (stmt : nat -> Database -> result Database)
  : M unit :=
  fun e =>
    match db e with
    | None => (Throw "Database not initialized", e)
    | Some d =>
        match stmt (wall_clock (sql_calls e)) d with
        | Ok d' =>
            (Ok tt,
             {| projectPath := projectPath e; db := Some d';
                uuid_calls := uuid_calls e; sql_calls := S (sql_calls e) |})
        | Throw msg =>
            (Throw msg,
             {| projectPath := projectPath e; db := Some d;
                uuid_calls := uuid_calls e; sql_calls := S (sql_calls e) |})
        end
    end.

(** [allQuery]: all rows of a [SELECT]. *)
Definition allQuery {R} (q : Database -> list R) : M (list R) :=
  fun e =>
    match db e with
    | None => (Throw "Database not initialized", e)
    | Some d => (Ok (q d), e)
    end.

(** [getQuery]: the first row of a [SELECT], or [undefined]. *)
Definition getQuery {R} (q : Database -> list R) : M (option R) :=
  fun e =>
    match db e with
    | None => (Throw "Database not initialized", e)
    | Some d => (Ok (hd_error (q d)), e)
    end.

Definition generateProjectId `{Host} : M string :=
  fun e => (Ok (substring 0 16 (md5_hex (projectPath e))), e).

(** *** Row updates of the single tables *)

Definition with_projects (d : Database) (l : list ProjectRow) : Database :=
  {| projects := l; conversations := conversations d; messages := messages d;
     architectural_decisions := architectural_decisions d;
     file_changes := file_changes d; code_patterns := code_patterns d;
     user_preferences := user_preferences d; team_members := team_members d;
     team_memories := team_memories d;
     team_memory_votes := team_memory_votes d;
     team_memory_comments := team_memory_comments d;
     team_memory_usage := team_memory_usage d |}.

Definition with_conversations (d : Database) (l : list ConversationRow)
  : Database :=
  {| projects := projects d; conversations := l; messages := messages d;
     architectural_decisions := architectural_decisions d;
     file_changes := file_changes d; code_patterns := code_patterns d;
     user_preferences := user_preferences d; team_members := team_members d;
     team_memories := team_memories d;
     team_memory_votes := team_memory_votes d;
     team_memory_comments := team_memory_comments d;
     team_memory_usage := team_memory_usage d |}.

Definition with_messages (d : Database) (l : list MessageRow) : Database :=
  {| projects := projects d; conversations := conversations d; messages := l;
     architectural_decisions := architectural_decisions d;
     file_changes := file_changes d; code_patterns := code_patterns d;
     user_preferences := user_preferences d; team_members := team_members d;
     team_memories := team_memories d;
     team_memory_votes := team_memory_votes d;
     team_memory_comments := team_memory_comments d;
     team_memory_usage := team_memory_usage d |}.

Definition with_architectural_decisions (d : Database) (l : list DecisionRow)
  : Database :=
  {| projects := projects d; conversations := conversations d;
     messages := messages d; architectural_decisions := l;
     file_changes := file_changes d; code_patterns := code_patterns d;
     user_preferences := user_preferences d; team_members := team_members d;
     team_memories := team_memories d;
     team_memory_votes := team_memory_votes d;
     team_memory_comments := team_memory_comments d;
     team_memory_usage := team_memory_usage d |}.

Definition with_file_changes (d : Database) (l : list FileChangeRow)
  : Database :=
  {| projects := projects d; conversations := conversations d;
     messages := messages d;
     architectural_decisions := architectural_decisions d;
     file_changes := l; code_patterns := code_patterns d;
     user_preferences := user_preferences d; team_members := team_members d;
     team_memories := team_memories d;
     team_memory_votes := team_memory_votes d;
     team_memory_comments := team_memory_comments d;
     team_memory_usage := team_memory_usage d |}.

Definition with_code_patterns (d : Database) (l : list PatternRow)
  : Database :=
  {| projects := projects d; conversations := conversations d;
     messages := messages d;
     architectural_decisions := architectural_decisions d;
     file_changes := file_changes d; code_patterns := l;
     user_preferences := user_preferences d; team_members := team_members d;
     team_memories := team_memories d;
     team_memory_votes := team_memory_votes d;
     team_memory_comments := team_memory_comments d;
     team_memory_usage := team_memory_usage d |}.

Definition with_user_preferences (d : Database) (l : list PreferenceRow)
  : Database :=
  {| projects := projects d; conversations := conversations d;
     messages := messages d;
     architectural_decisions := architectural_decisions d;
     file_changes := file_changes d; code_patterns := code_patterns d;
     user_preferences := l; team_members := team_members d;
     team_memories := team_memories d;
     team_memory_votes := team_memory_votes d;
     team_memory_comments := team_memory_comments d;
     team_memory_usage := team_memory_usage d |}.

Definition with_team_members (d : Database) (l : list TeamMemberRow)
  : Database :=
  {| projects := projects d; conversations := conversations d;
     messages := messages d;
     architectural_decisions := architectural_decisions d;
     file_changes := file_changes d; code_patterns := code_patterns d;
     user_preferences := user_preferences d; team_members := l;
     team_memories := team_memories d;
     team_memory_votes := team_memory_votes d;
     team_memory_comments := team_memory_comments d;
     team_memory_usage := team_memory_usage d |}.

Definition with_team_memories (d : Database) (l : list TeamMemoryRow)
  : Database :=
  {| projects := projects d; conversations := conversations d;
     messages := messages d;
     architectural_decisions := architectural_decisions d;
     file_changes := file_changes d; code_patterns := code_patterns d;
     user_preferences := user_preferences d; team_members := team_members d;
     team_memories := l;
     team_memory_votes := team_memory_votes d;
     team_memory_comments := team_memory_comments d;
     team_memory_usage := team_memory_usage d |}.

Definition with_team_memory_votes (d : Database) (l : list VoteRow)
  : Database :=
  {| projects := projects d; conversations := conversations d;
     messages := messages d;
     architectural_decisions := architectural_decisions d;
     file_changes := file_changes d; code_patterns := code_patterns d;
     user_preferences := user_preferences d; team_members := team_members d;
     team_memories := team_memories d;
     team_memory_votes := l;
     team_memory_comments := team_memory_comments d;
     team_memory_usage := team_memory_usage d |}.

(** Does some row of the table already carry this primary key? *)
Definition has_key {R} (key : R -> string) (k : string) (rows : list R)
  : bool :=
  existsb (fun r => String.eqb (key r) k) rows.

Definition constraint_failed {A} (column : string) : result A :=
  Throw ("SQLITE_CONSTRAINT: UNIQUE constraint failed: " ++ column)%string.

(** ** [MemoryEngine]: statements *)

(** [INSERT OR REPLACE INTO projects (id, name, root_path)]: a row with the
    same primary key is deleted first; both timestamps take their default. *)
Definition INSERT_OR_REPLACE_project (id name root_path : string)
  (now : nat) (d : Database) : result Database :=
  Ok (with_projects d
        (filter (fun r => negb (String.eqb (p_id r) id)) (projects d) ++
         [ {| p_id := id; p_name := name; p_root_path := root_path;
              p_created_at := now; p_last_active := now |} ])).

(** [INSERT INTO conversations (id, project_id, ai_assistant, context)]. *)
Definition INSERT_conversation (id project_id ai_assistant : string)
  (context : json) (now : nat) (d : Database) : result Database :=
  if has_key c_id id (conversations d)
  then constraint_failed "conversations.id"
  else Ok (with_conversations d
             (conversations d ++
              [ {| c_id := id; c_project_id := project_id;
                   c_ai_assistant := ai_assistant; c_timestamp := now;
                   c_context := context |} ])).

(** [INSERT INTO messages (id, conversation_id, role, content, metadata)]. *)
Definition INSERT_message (id conversation_id : string) (role : MessageRole)
  (content : string) (metadata : json) (now : nat) (d : Database)
  : result Database :=
  if has_key m_id id (messages d)
  then constraint_failed "messages.id"
  else Ok (with_messages d
             (messages d ++
              [ {| m_id := id; m_conversation_id := conversation_id;
                   m_role := role; m_content := content; m_timestamp := now;
                   m_metadata := metadata |} ])).

(** [INSERT INTO architectural_decisions (id, project_id, decision,
    rationale, alternatives, impact, files_affected)]. *)
Definition INSERT_decision (id project_id decision rationale : string)
  (alternatives impact files_affected : list string)
  (now : nat) (d : Database) : result Database :=
  if has_key d_id id (architectural_decisions d)
  then constraint_failed "architectural_decisions.id"
  else Ok (with_architectural_decisions d
             (architectural_decisions d ++
              [ {| d_id := id; d_project_id := project_id;
                   d_decision := decision; d_rationale := rationale;
                   d_alternatives := alternatives; d_impact := impact;
                   d_files_affected := files_affected;
                   d_timestamp := now |} ])).

(** [INSERT INTO file_changes (id, project_id, file_path, change_type,
    conversation_id)]. *)
Definition INSERT_file_change (id project_id file_path : string)
  (change_type : ChangeType) (conversation_id : option string)
  (now : nat) (d : Database) : result Database :=
  if has_key f_id id (file_changes d)
  then constraint_failed "file_changes.id"
  else Ok (with_file_changes d
             (file_changes d ++
              [ {| f_id := id; f_project_id := project_id;
                   f_file_path := file_path; f_change_type := change_type;
                   f_timestamp := now;
                   f_conversation_id := conversation_id |} ])).

(** [SET last_active = now] on the row of project [id], other rows and
    other columns untouched. *)
Definition set_last_active (id : string) (now : nat) (r : ProjectRow)
  : ProjectRow :=
  if String.eqb (p_id r) id
  then {| p_id := p_id r; p_name := p_name r; p_root_path := p_root_path r;
          p_created_at := p_created_at r; p_last_active := now |}
  else r.

(** [UPDATE projects SET last_active = CURRENT_TIMESTAMP WHERE id = ?]. *)
Definition UPDATE_project_last_active (id : string)
  (now : nat) (d : Database) : result Database :=
  Ok (with_projects d (map (set_last_active id now) (projects d))).

(** The rows a [DELETE FROM t WHERE project_id = ?] removes, for the tables
    that have the column. *)
Definition delete_project_rows (t : Table) (pid : string) (d : Database)
  : Database :=
  match t with
  | T_messages => d
  | T_conversations =>
      with_conversations d
        (filter (fun r => negb (String.eqb (c_project_id r) pid))
                (conversations d))
  | T_architectural_decisions =>
      with_architectural_decisions d
        (filter (fun r => negb (String.eqb (d_project_id r) pid))
                (architectural_decisions d))
  | T_file_changes =>
      with_file_changes d
        (filter (fun r => negb (String.eqb (f_project_id r) pid))
                (file_changes d))
  | T_code_patterns =>
      with_code_patterns d
        (filter (fun r => negb (String.eqb (cp_project_id r) pid))
                (code_patterns d))
  | T_user_preferences =>
      with_user_preferences d
        (filter (fun r => negb (String.eqb (up_project_id r) pid))
                (user_preferences d))
  end.

(** [DELETE FROM ${table} WHERE project_id = ?]: SQLite refuses to prepare
    the statement when the table has no column of that name. *)
Definition DELETE_where_project_id (t : Table) (pid : string)
  (now : nat) (d : Database) : result Database :=
  if existsb (String.eqb "project_id") (table_columns t)
  then Ok (delete_project_rows t pid d)
  else Throw "SQLITE_ERROR: no such column: project_id".

(** ** [MemoryEngine]: methods *)

(** The last non-empty segment of a path ([path.basename]). *)
Fixpoint basename_from (last seg path : string) : string :=
  match path with
  | EmptyString => if truthy seg then seg else last
  | String c rest =>
      if Ascii.eqb c "/"
      then basename_from (if truthy seg then seg else last) "" rest
      else basename_from last (seg ++ String c "")%string rest
  end.

Definition basename (path : string) : string := basename_from "" "" path.

Definition createTables `{Host} : M unit :=
  projectId <- generateProjectId ;;
  fun e =>
    runQuery (INSERT_OR_REPLACE_project projectId (basename (projectPath e))
                                        (projectPath e)) e.

(** [initialize]: opens the database file (creating an empty one when there
    is none) and upserts the project row. *)
Definition initialize `{Host} (on_disk : option Database) : M unit :=
  fun e =>
    createTables
      {| projectPath := projectPath e;
         db := Some (match on_disk with Some d => d | None => empty_database end);
         uuid_calls := uuid_calls e; sql_calls := sql_calls e |}.

Definition updateProjectActivity `{Host} : M unit :=
  projectId <- generateProjectId ;;
  runQuery (UPDATE_project_last_active projectId).

(** A message as callers pass it and as [getProjectMemory] returns it. *)
Record Message := {
  msg_id : string;
  msg_role : MessageRole;
  msg_content : string;
  msg_timestamp : nat;
  msg_metadata : option json
}.

Record ConversationOutcome := {
  outcome_type : string; outcome_description : string
}.

Record Conversation := {
  conv_id : string;
  conv_timestamp : nat;
  aiAssistant : string;
  conv_context : json;
  conv_messages : list Message;
  outcomes : list ConversationOutcome
}.

Record ArchitecturalDecision := {
  dec_id : string; dec_timestamp : nat; decision : string;
  rationale : string; alternatives : list string; impact : list string;
  filesAffected : list string
}.

Record FileChangeHistory := {
  fch_id : string; filePath : string; changeType : ChangeType;
  fch_timestamp : nat; conversationId : option string
}.

Record CodePattern := {
  pat_id : string; pattern : string; frequency : nat; pat_context : string
}.

(** The object [getProjectMemory] returns; its [preferences] field is
    always the empty object and is left out. *)
Record ProjectMemory := {
  pm_id : string; pm_name : string; rootPath : string;
  createdAt : nat; lastActive : nat;
  pm_conversations : list Conversation;
  decisions : list ArchitecturalDecision;
  patterns : list CodePattern;
  fileHistory : list FileChangeHistory
}.

(** [JSON.stringify(x || {})] for an optional JSON value. *)
Definition stringify_or_empty_object (x : option json) : json :=
  match x with Some j => j | None => "{}" end.

Definition recordConversation `{Host} (assistant : string)
  (msgs : list Message) (context : option json) : M string :=
  conversationId <- uuidv4 ;;
  projectId <- generateProjectId ;;
  runQuery (INSERT_conversation conversationId projectId assistant
              (stringify_or_empty_object context)) ;;;
  for_each msgs (fun message =>
    id <- (if truthy (msg_id message) then ret (msg_id message) else uuidv4) ;;
    runQuery (INSERT_message id conversationId (msg_role message)
                (msg_content message)
                (stringify_or_empty_object (msg_metadata message)))) ;;;
  updateProjectActivity ;;;
  ret conversationId.

(** The argument of [recordArchitecturalDecision]: a decision without [id]
    and [timestamp]. *)
Record DecisionInput := {
  in_decision : string; in_rationale : string;
  in_alternatives : list string; in_impact : list string;
  in_filesAffected : list string
}.

Definition recordArchitecturalDecision `{Host} (dec : DecisionInput)
  : M unit :=
  projectId <- generateProjectId ;;
  decisionId <- uuidv4 ;;
  runQuery (INSERT_decision decisionId projectId (in_decision dec)
              (in_rationale dec) (in_alternatives dec) (in_impact dec)
              (in_filesAffected dec)) ;;;
  updateProjectActivity.

Definition trackFileChange `{Host} (file_path : string)
  (change_type : ChangeType) (conversation_id : option string) : M unit :=
  projectId <- generateProjectId ;;
  changeId <- uuidv4 ;;
  runQuery (INSERT_file_change changeId projectId file_path change_type
              conversation_id).

Definition clearAllMemory `{Host} : M unit :=
  projectId <- generateProjectId ;;
  for_each
    [T_messages; T_conversations; T_architectural_decisions; T_file_changes;
     T_code_patterns; T_user_preferences]
    (fun table => runQuery (DELETE_where_project_id table projectId)).

(** [SELECT * FROM messages WHERE conversation_id = ? ORDER BY timestamp],
    mapped to the returned message objects. *)
Definition SELECT_messages_of (conversation_id : string) (d : Database)
  : list MessageRow :=
  order_by_asc m_timestamp
    (filter (fun r => String.eqb (m_conversation_id r) conversation_id)
            (messages d)).

Definition message_of_row (r : MessageRow) : Message :=
  {| msg_id := m_id r; msg_role := m_role r; msg_content := m_content r;
     msg_timestamp := m_timestamp r; msg_metadata := Some (m_metadata r) |}.

Definition conversation_with_messages (conv : ConversationRow)
  : M Conversation :=
  rows <- allQuery (SELECT_messages_of (c_id conv)) ;;
  ret {| conv_id := c_id conv; conv_timestamp := c_timestamp conv;
         aiAssistant := c_ai_assistant conv; conv_context := c_context conv;
         conv_messages := map message_of_row rows; outcomes := [] |}.

Definition getProjectMemory `{Host} : M ProjectMemory :=
  projectId <- generateProjectId ;;
  project <- getQuery (fun d =>
    filter (fun r => String.eqb (p_id r) projectId) (projects d)) ;;
  convs <- allQuery (fun d =>
    order_by_desc c_timestamp
      (filter (fun r => String.eqb (c_project_id r) projectId)
              (conversations d))) ;;
  conversationsWithMessages <- map_M conversation_with_messages convs ;;
  decs <- allQuery (fun d =>
    order_by_desc d_timestamp
      (filter (fun r => String.eqb (d_project_id r) projectId)
              (architectural_decisions d))) ;;
  let parsedDecisions :=
    map (fun r => {| dec_id := d_id r; dec_timestamp := d_timestamp r;
                     decision := d_decision r; rationale := d_rationale r;
                     alternatives := d_alternatives r; impact := d_impact r;
                     filesAffected := d_files_affected r |}) decs in
  files <- allQuery (fun d =>
    firstn 100
      (order_by_desc f_timestamp
         (filter (fun r => String.eqb (f_project_id r) projectId)
                 (file_changes d)))) ;;
  let parsedFileHistory :=
    map (fun r => {| fch_id := f_id r; filePath := f_file_path r;
                     changeType := f_change_type r;
                     fch_timestamp := f_timestamp r;
                     conversationId := f_conversation_id r |}) files in
  match project with
  | None =>
      throw "Cannot read properties of undefined (reading 'id')"
  | Some p =>
      ret {| pm_id := p_id p; pm_name := p_name p; rootPath := p_root_path p;
             createdAt := p_created_at p; lastActive := p_last_active p;
             pm_conversations := conversationsWithMessages;
             decisions := parsedDecisions; patterns := [];
             fileHistory := parsedFileHistory |}
  end.

(** ** Recall *)

(** [\w] and [\s] on ASCII. *)
Definition is_word_char (c : ascii) : bool :=
  let n := nat_of_ascii c in
  ((48 <=? n) && (n <=? 57)) || ((65 <=? n) && (n <=? 90)) ||
  ((97 <=? n) && (n <=? 122)) || (n =? 95).

Definition is_space_char (c : ascii) : bool :=
  let n := nat_of_ascii c in
  ((9 <=? n) && (n <=? 13)) || (n =? 32).

(** [.replace(/[^\w\s]/g, ' ')]. *)
Fixpoint strip_punctuation (s : string) : string :=
  match s with
  | EmptyString => EmptyString
  | String c t =>
      String (if is_word_char c || is_space_char c then c else " "%char)
             (strip_punctuation t)
  end.

(** [.split(/\s+/)]: the pieces between maximal runs of white space (the
    first and the last piece may be empty).  [cur] is the piece being read,
    [in_run] tells that the previous character was white space. *)
Fixpoint split_spaces_from (cur : string) (in_run : bool) (s : string)
  : list string :=
  match s with
  | EmptyString => [cur]
  | String c t =>
      if is_space_char c
      then (if in_run then split_spaces_from cur true t
            else cur :: split_spaces_from "" true t)
      else split_spaces_from (cur ++ String c "")%string false t
  end.

Definition split_spaces (s : string) : list string :=
  split_spaces_from "" false s.

Definition stop_words : list string :=
  ["the"; "and"; "for"; "are"; "you"; "can"; "how"; "what"; "why"; "when";
   "where"].

Definition includes (l : list string) (x : string) : bool :=
  existsb (String.eqb x) l.

(** [[...new Set(l)]]: first occurrences, in order. *)
Fixpoint unique_from (seen : list string) (l : list string) : list string :=
  match l with
  | [] => []
  | x :: t =>
      if includes seen x then unique_from seen t
      else x :: unique_from (x :: seen) t
  end.

Definition extractSearchTerms (message : string) : list string :=
  let terms :=
    filter (fun term => negb (includes stop_words term))
      (filter (fun term => 2 <? String.length term)
         (split_spaces (strip_punctuation (toLowerCase message)))) in
  unique_from [] terms.




(** The key [`${memory.type}:${memory.content?.substring(0, 50)}`]. *)
Definition memory_key (type content : string) : string :=
  (type ++ ":" ++ substring 0 50 content)%string.


(** [memories.filter(...)] with the [seen] set threaded through. *)
Fixpoint dedup_from {A} (key : A -> string) (seen : list string)
  (l : list A) : list A :=
  match l with
  | [] => []
  | x :: t =>
      if includes seen (key x) then dedup_from key seen t
      else x :: dedup_from key (key x :: seen) t
  end.

Definition deduplicateMemories {A} (key : A -> string) (l : list A)
  : list A :=
  dedup_from key [] l.









(** ** [TeamMemoryEngine]

    The class extends [MemoryEngine] with a [teamId]; its methods run in the
    same promise monad and take the team id as their first argument. *)

Record TeamMember := {
  member_id : string; email : string; member_name : string;
  member_role : Role; joinedAt : nat; member_lastActive : nat;
  permissions_json : json
}.

Record MemoryVote := {
  vote_memberId : string; vote : Vote; vote_timestamp : nat
}.

Record MemoryComment := {
  comment_id : string; comment_memberId : string; comment_content : string;
  comment_timestamp : nat; parentCommentId : option string
}.

Record TeamMemory := {
  memory_id : string; memory_type : string; title : string;
  memory_content : string; memory_context : string; createdBy : string;
  memory_createdAt : nat; updatedAt : nat; tags : list string;
  visibility : Visibility; memory_projectId : option string;
  memory_metadata : json; votes : list MemoryVote;
  comments : list MemoryComment; usageCount : nat; successScore : Q
}.

(** The argument of [addTeamMember]. *)
Record NewTeamMember := {
  new_email : string; new_name : string; new_role : Role;
  new_permissions : json
}.

(** The argument of [createTeamMemory]. *)
Record NewTeamMemory := {
  new_type : string; new_title : string; new_content : string;
  new_context : string; new_createdBy : string; new_tags : list string;
  new_visibility : Visibility; new_projectId : option string;
  new_metadata : json
}.

(** The optional argument of [getTeamMemories]. *)
Record MemoryFilter := {
  filter_type : option string; filter_createdBy : option string;
  filter_projectId : option string; filter_visibility : option Visibility
}.

Definition Visibility_eqb (a b : Visibility) : bool :=
  match a, b with
  | private, private | team_only, team_only | public, public => true
  | _, _ => false
  end.

Definition Vote_eqb (a b : Vote) : bool :=
  match a, b with
  | upvote, upvote | downvote, downvote => true
  | _, _ => false
  end.

(** [INSERT INTO team_members (id, team_id, email, name, role, permissions)]
    under [PRIMARY KEY (id)] and [UNIQUE (team_id, email)]. *)
Definition INSERT_team_member (id team_id : string) (m : NewTeamMember)
  (now : nat) (d : Database) : result Database :=
  if has_key tm_id id (team_members d)
  then constraint_failed "team_members.id"
  else if existsb (fun r => String.eqb (tm_team_id r) team_id &&
                            String.eqb (tm_email r) (new_email m))
                  (team_members d)
  then constraint_failed "team_members.team_id, team_members.email"
  else Ok (with_team_members d
             (team_members d ++
              [ {| tm_id := id; tm_team_id := team_id;
                   tm_email := new_email m; tm_name := new_name m;
                   tm_role := new_role m; tm_joined_at := now;
                   tm_last_active := now;
                   tm_permissions := new_permissions m |} ])).

(** [INSERT INTO team_memories (id, team_id, type, title, content, context,
    created_by, tags, visibility, project_id, metadata)]; the columns left
    out take their defaults: both dates [CURRENT_TIMESTAMP],
    [usage_count INTEGER DEFAULT 0], [success_score REAL DEFAULT 0.0]. *)
Definition INSERT_team_memory (id team_id : string) (m : NewTeamMemory)
  (now : nat) (d : Database) : result Database :=
  if has_key mem_id id (team_memories d)
  then constraint_failed "team_memories.id"
  else Ok (with_team_memories d
             (team_memories d ++
              [ {| mem_id := id; mem_team_id := team_id;
                   mem_type := new_type m; mem_title := new_title m;
                   mem_content := new_content m;
                   mem_context := new_context m;
                   mem_created_by := new_createdBy m;
                   mem_created_at := now; mem_updated_at := now;
                   mem_tags := new_tags m;
                   mem_visibility := new_visibility m;
                   mem_project_id := new_projectId m;
                   mem_metadata := new_metadata m;
                   mem_usage_count := 0; mem_success_score := 0%Q |} ])).

(** [INSERT OR REPLACE INTO team_memory_votes (id, memory_id, member_id,
    vote)]: the rows that clash on the primary key or on
    [UNIQUE (memory_id, member_id)] are deleted, then the row is added. *)
Definition INSERT_OR_REPLACE_vote (id memory member : string) (v : Vote)
  (now : nat) (d : Database) : result Database :=
  Ok (with_team_memory_votes d
        (filter (fun r => negb (String.eqb (v_id r) id ||
                                (String.eqb (v_memory_id r) memory &&
                                 String.eqb (v_member_id r) member)))
                (team_memory_votes d) ++
         [ {| v_id := id; v_memory_id := memory; v_member_id := member;
              v_vote := v; v_timestamp := now |} ])).

(** [UPDATE team_memories SET success_score = ? WHERE id = ?]. *)
Definition UPDATE_success_score (score : Q) (id : string)
  (now : nat) (d : Database) : result Database :=
  Ok (with_team_memories d
        (map (fun r =>
                if String.eqb (mem_id r) id
                then {| mem_id := mem_id r; mem_team_id := mem_team_id r;
                        mem_type := mem_type r; mem_title := mem_title r;
                        mem_content := mem_content r;
                        mem_context := mem_context r;
                        mem_created_by := mem_created_by r;
                        mem_created_at := mem_created_at r;
                        mem_updated_at := mem_updated_at r;
                        mem_tags := mem_tags r;
                        mem_visibility := mem_visibility r;
                        mem_project_id := mem_project_id r;
                        mem_metadata := mem_metadata r;
                        mem_usage_count := mem_usage_count r;
                        mem_success_score := score |}
                else r)
             (team_memories d))).

Definition addTeamMember `{Host} (teamId : string) (member : NewTeamMember)
  : M string :=
  memberId <- uuidv4 ;;
  runQuery (INSERT_team_member memberId teamId member) ;;;
  ret memberId.

Definition getTeamMembers (teamId : string) : M (list TeamMember) :=
  members <- allQuery (fun d =>
    order_by_asc tm_joined_at
      (filter (fun r => String.eqb (tm_team_id r) teamId)
              (team_members d))) ;;
  ret (map (fun m => {| member_id := tm_id m; email := tm_email m;
                        member_name := tm_name m; member_role := tm_role m;
                        joinedAt := tm_joined_at m;
                        member_lastActive := tm_last_active m;
                        permissions_json := tm_permissions m |}) members).

Definition createTeamMemory `{Host} (teamId : string) (memory : NewTeamMemory)
  : M string :=
  memoryId <- uuidv4 ;;
  runQuery (INSERT_team_memory memoryId teamId memory) ;;;
  ret memoryId.

Definition getMemoryVotes (memoryId : string) : M (list MemoryVote) :=
  rows <- allQuery (fun d =>
    filter (fun r => String.eqb (v_memory_id r) memoryId)
           (team_memory_votes d)) ;;
  ret (map (fun v => {| vote_memberId := v_member_id v; vote := v_vote v;
                        vote_timestamp := v_timestamp v |}) rows).

Definition getMemoryComments (memoryId : string) : M (list MemoryComment) :=
  rows <- allQuery (fun d =>
    order_by_asc co_timestamp
      (filter (fun r => String.eqb (co_memory_id r) memoryId)
              (team_memory_comments d))) ;;
  ret (map (fun c => {| comment_id := co_id c;
                        comment_memberId := co_member_id c;
                        comment_content := co_content c;
                        comment_timestamp := co_timestamp c;
                        parentCommentId := co_parent_comment_id c |}) rows).

(** The [WHERE] clause [getTeamMemories] builds: a condition is added for
    each truthy field of the filter. *)
Definition memory_matches (teamId : string) (flt : option MemoryFilter)
  (r : TeamMemoryRow) : bool :=
  String.eqb (mem_team_id r) teamId &&
  match flt with
  | None => true
  | Some f =>
      (if truthy_opt (filter_type f)
       then opt_eqb (Some (mem_type r)) (filter_type f) else true) &&
      (if truthy_opt (filter_createdBy f)
       then opt_eqb (Some (mem_created_by r)) (filter_createdBy f)
       else true) &&
      (if truthy_opt (filter_projectId f)
       then opt_eqb (mem_project_id r) (filter_projectId f) else true) &&
      match filter_visibility f with
      | Some v => Visibility_eqb (mem_visibility r) v
      | None => true
      end
  end.

Definition getTeamMemories (teamId : string) (flt : option MemoryFilter)
  : M (list TeamMemory) :=
  memories <- allQuery (fun d =>
    order_by_desc mem_created_at
      (filter (memory_matches teamId flt) (team_memories d))) ;;
  map_M (fun m =>
    vs <- getMemoryVotes (mem_id m) ;;
    cs <- getMemoryComments (mem_id m) ;;
    ret {| memory_id := mem_id m; memory_type := mem_type m;
           title := mem_title m; memory_content := mem_content m;
           memory_context := mem_context m; createdBy := mem_created_by m;
           memory_createdAt := mem_created_at m;
           updatedAt := mem_updated_at m; tags := mem_tags m;
           visibility := mem_visibility m;
           memory_projectId := mem_project_id m;
           memory_metadata := mem_metadata m; votes := vs; comments := cs;
           usageCount := mem_usage_count m;
           successScore := mem_success_score m |}) memories.

(** [totalVotes > 0 ? upvotes / totalVotes : 0.5], as an exact fraction. *)
Definition success_score_of (upvotes downvotes : nat) : Q :=
  let totalVotes := upvotes + downvotes in
  if 0 <? totalVotes
  then Qmake (Z.of_nat upvotes) (Pos.of_nat totalVotes)
  else Qmake 1 2.

Definition updateMemorySuccessScore `{Host} (memoryId : string) : M unit :=
  vs <- allQuery (fun d =>
    map v_vote
        (filter (fun r => String.eqb (v_memory_id r) memoryId)
                (team_memory_votes d))) ;;
  let upvotes := List.length (filter (Vote_eqb upvote) vs) in
  let downvotes := List.length (filter (Vote_eqb downvote) vs) in
  runQuery (UPDATE_success_score (success_score_of upvotes downvotes)
                                 memoryId).

Definition voteOnMemory `{Host} (memoryId memberId : string) (v : Vote)
  : M unit :=
  id <- uuidv4 ;;
  runQuery (INSERT_OR_REPLACE_vote id memoryId memberId v) ;;;
  updateMemorySuccessScore memoryId.

(** The handle the permission engine keeps on the team store. *)
Record TeamMemoryEngine := {
  teamId : string;
  engine : MemoryEngine
}.

(** ** [MemoryPermissionsEngine]: data *)

Inductive Action :=
| act_read | act_write | act_delete | act_share
| act_vote | act_comment | act_moderate | act_admin.

Definition Action_eqb (a b : Action) : bool :=
  match a, b with
  | act_read, act_read | act_write, act_write | act_delete, act_delete
  | act_share, act_share | act_vote, act_vote | act_comment, act_comment
  | act_moderate, act_moderate | act_admin, act_admin => true
  | _, _ => false
  end.

Record Permission := { action : Action; granted : bool }.

Inductive Condition :=
| time_window (window_start window_end : nat)
| memory_type_is (value : string)
| approval_required.

Record PermissionRule := {
  rule_id : string;
  resourceType : string;
  resourceId : option string;
  subjectType : string;
  subjectId : string;
  permissions : list Permission;
  rule_createdBy : string;
  rule_createdAt : nat;
  expiresAt : option nat;
  conditions : option (list Condition);
  isActive : bool
}.

(** The argument of [createPermissionRule]: a rule without [id] and
    [createdAt]. *)
Record NewPermissionRule := {
  nr_resourceType : string;
  nr_resourceId : option string;
  nr_subjectType : string;
  nr_subjectId : string;
  nr_permissions : list Permission;
  nr_createdBy : string;
  nr_expiresAt : option nat;
  nr_conditions : option (list Condition);
  nr_isActive : bool
}.

Inductive RequestStatus := pending | approved | denied.

Record AccessRequest := {
  request_id : string;
  requesterId : string;
  req_resourceType : string;
  req_resourceId : string;
  requestedPermissions : list Permission;
  status : RequestStatus;
  req_createdAt : nat;
  approvedAt : option nat;
  approvedBy : option string;
  denyReason : option string;
  req_expiresAt : option nat
}.

(** The argument of [createAccessRequest]. *)
Record NewAccessRequest := {
  na_requesterId : string;
  na_resourceType : string;
  na_resourceId : string;
  na_requestedPermissions : list Permission;
  na_expiresAt : option nat
}.

Record AuditLog := {
  audit_id : string;
  userId : string;
  userName : string;
  audit_action : string;
  audit_resourceType : string;
  audit_resourceId : string;
  resourceName : string;
  audit_timestamp : nat;
  success : bool;
  errorMessage : option string;
  audit_metadata : option json
}.

Record MemoryPermissionsEngine := {
  teamMemoryEngine : TeamMemoryEngine;
  permissionRules : list (string * PermissionRule);  (* a [Map], oldest first *)
  accessRequests : list (string * AccessRequest);    (* a [Map], oldest first *)
  auditLogs : list AuditLog;
  dates_read : nat                                   (* [new Date()] calls *)
}.

Definition P (A : Type) : Type := Promise MemoryPermissionsEngine A.

(** [Map.prototype.get] and [Map.prototype.set]: a key that is already
    present keeps its place. *)
Definition map_get {V} (k : string) (m : list (string * V)) : option V :=
  option_map snd (find (fun kv => String.eqb (fst kv) k) m).

Fixpoint map_set {V} (k : string) (v : V) (m : list (string * V))
  : list (string * V) :=
  match m with
  | [] => [(k, v)]
  | kv :: t =>
      if String.eqb (fst kv) k then (k, v) :: t else kv :: map_set k v t
  end.

(** [Array.from(m.values())]. *)
Definition map_values {V} (m : list (string * V)) : list V := map snd m.

(** The default permission matrix. *)
Definition defaultPermissions (role : Role) (a : Action) : bool :=
  match role, a with
  | admin, _ => true
  | developer, (act_read | act_write | act_share | act_vote | act_comment) =>
      true
  | developer, (act_delete | act_moderate | act_admin) => false
  | observer, (act_read | act_vote | act_comment) => true
  | observer,
    (act_write | act_delete | act_share | act_moderate | act_admin) => false
  end.

(** ** [MemoryPermissionsEngine]: methods *)

(** Run a method of the team engine on [this.teamMemoryEngine]. *)
Definition on_team {A} (m : string -> M A) : P A :=
  fun p =>
    let t := teamMemoryEngine p in
    match m (teamId t) (engine t) with
    | (r, e') =>
        (r, {| teamMemoryEngine := {| teamId := teamId t; engine := e' |};
               permissionRules := permissionRules p;
               accessRequests := accessRequests p;
               auditLogs := auditLogs p;
               dates_read := dates_read p |})
    end.

(** [uuid.v4()] inside the permission engine: the same generator as the
    team engine's. *)
Definition new_uuid `{Host} : P string := on_team (fun _ => uuidv4).

(** [new Date()]. *)
Definition new_Date `{Host} : P nat :=
  fun p =>
    (Ok (date_now (dates_read p)),
     {| teamMemoryEngine := teamMemoryEngine p;
        permissionRules := permissionRules p;
        accessRequests := accessRequests p;
        auditLogs := auditLogs p;
        dates_read := S (dates_read p) |}).

Definition set_permissionRules (f : list (string * PermissionRule) ->
                                    list (string * PermissionRule))
  : P unit :=
  fun p =>
    (Ok tt,
     {| teamMemoryEngine := teamMemoryEngine p;
        permissionRules := f (permissionRules p);
        accessRequests := accessRequests p;
        auditLogs := auditLogs p;
        dates_read := dates_read p |}).

Definition set_accessRequests (f : list (string * AccessRequest) ->
                                   list (string * AccessRequest))
  : P unit :=
  fun p =>
    (Ok tt,
     {| teamMemoryEngine := teamMemoryEngine p;
        permissionRules := permissionRules p;
        accessRequests := f (accessRequests p);
        auditLogs := auditLogs p;
        dates_read := dates_read p |}).

(** The number of audit entries kept in memory: 10,000. *)
Definition MAX_AUDIT_LOGS : nat := 100 * 100.

(** [this.auditLogs.push(entry)] followed by the cut to the last 10,000. *)
Definition push_audit (entry : AuditLog) : P unit :=
  fun p =>
    let logs := auditLogs p ++ [entry] in
    (Ok tt,
     {| teamMemoryEngine := teamMemoryEngine p;
        permissionRules := permissionRules p;
        accessRequests := accessRequests p;
        auditLogs := if MAX_AUDIT_LOGS <? List.length logs
                     then lastn MAX_AUDIT_LOGS logs else logs;
        dates_read := dates_read p |}).

Definition get_state : P MemoryPermissionsEngine := fun p => (Ok p, p).

Definition find_member (id : string) (members : list TeamMember)
  : option TeamMember :=
  find (fun m => String.eqb (member_id m) id) members.

Definition logAudit `{Host} (user action_ resource_type resource_id : string)
  (ok : bool) (error : option string) (metadata : option json) : P unit :=
  members <- on_team getTeamMembers ;;
  let user_row := find_member user members in
  id <- new_uuid ;;
  now <- new_Date ;;
  push_audit
    {| audit_id := id;
       userId := user;
       userName := match user_row with
                   | Some u => if truthy (member_name u) then member_name u
                               else "Unknown"
                   | None => "Unknown"
                   end;
       audit_action := action_;
       audit_resourceType := resource_type;
       audit_resourceId := resource_id;
       resourceName := resource_id;
       audit_timestamp := now;
       success := ok;
       errorMessage := error;
       audit_metadata := metadata |}.

Definition checkRolePermissions (role : Role) (a : Action) : bool :=
  defaultPermissions role a || false.

Definition find_memory (id : string) (memories : list TeamMemory)
  : option TeamMemory :=
  find (fun m => String.eqb (memory_id m) id) memories.

Definition checkMemoryPermissions (user : string) (a : Action)
  (memoryId : string) : P bool :=
  memories <- on_team (fun t => getTeamMemories t None) ;;
  match find_memory memoryId memories with
  | None => ret false
  | Some memory =>
      if String.eqb (createdBy memory) user then ret true
      else match visibility memory with
           | private => ret false
           | team_only => ret true
           | public => ret true
           end
  end.

Definition isInTimeWindow `{Host} (window_start window_end : nat) : P bool :=
  now <- new_Date ;;
  ret ((window_start <=? now) && (now <=? window_end)).

Definition checkApprovalStatus (user resource_type : string)
  (resource_id : option string) : P bool :=
  p <- get_state ;;
  ret (match find (fun req =>
                     String.eqb (requesterId req) user &&
                     String.eqb (req_resourceType req) resource_type &&
                     opt_eqb (Some (req_resourceId req)) resource_id &&
                     match status req with approved => true | _ => false end)
                  (map_values (accessRequests p))
       with Some _ => true | None => false end).

Fixpoint evaluateConditions `{Host} (conds : list Condition)
  (user resource_type : string) (resource_id : option string) : P bool :=
  match conds with
  | [] => ret true
  | c :: rest =>
      ok <- match c with
            | time_window s e => isInTimeWindow s e
            | memory_type_is v =>
                if String.eqb resource_type "memory" && truthy_opt resource_id
                then
                  memories <- on_team (fun t => getTeamMemories t None) ;;
                  match find_memory (or_else resource_id "") memories with
                  | Some memory => ret (String.eqb (memory_type memory) v)
                  | None => ret true
                  end
                else ret true
            | approval_required =>
                checkApprovalStatus user resource_type resource_id
            end ;;
      if ok then evaluateConditions rest user resource_type resource_id
      else ret false
  end.

(** The [for] loop of [checkExplicitPermissions] over the filtered rules. *)
Fixpoint first_decisive_rule `{Host} (rules : list PermissionRule)
  (user : string) (a : Action) (resource_type : string)
  (resource_id : option string) : P (option bool) :=
  match rules with
  | [] => ret None
  | rule :: rest =>
      match find (fun p => Action_eqb (action p) a) (permissions rule) with
      | Some permission =>
          conditionsMet <-
            match conditions rule with
            | Some (c :: cs) =>
                evaluateConditions (c :: cs) user resource_type resource_id
            | _ => ret true
            end ;;
          if conditionsMet then ret (Some (granted permission))
          else first_decisive_rule rest user a resource_type resource_id
      | None => first_decisive_rule rest user a resource_type resource_id
      end
  end.

Definition rule_applies (user resource_type : string)
  (resource_id : option string) (rule : PermissionRule) : bool :=
  isActive rule &&
  String.eqb (resourceType rule) resource_type &&
  (String.eqb (subjectType rule) "user" && String.eqb (subjectId rule) user) &&
  (negb (truthy_opt resource_id) || opt_eqb (resourceId rule) resource_id).

Definition checkExplicitPermissions `{Host} (user : string) (a : Action)
  (resource_type : string) (resource_id : option string) : P (option bool) :=
  p <- get_state ;;
  let rules := filter (rule_applies user resource_type resource_id)
                      (map_values (permissionRules p)) in
  first_decisive_rule rules user a resource_type resource_id.

Definition checkPermission `{Host} (user : string) (a : Action)
  (resource_type : string) (resource_id : option string) : P bool :=
  try_catch
    (members <- on_team getTeamMembers ;;
     match find_member user members with
     | None =>
         logAudit user "permission_check" resource_type
                  (or_else resource_id "") false (Some "User not found")
                  None ;;;
         ret false
     | Some u =>
         explicitPermission <-
           checkExplicitPermissions user a resource_type resource_id ;;
         match explicitPermission with
         | Some b =>
             logAudit user "permission_check" resource_type
                      (or_else resource_id "") b None None ;;;
             ret b
         | None =>
             let rolePermission := checkRolePermissions (member_role u) a in
             if String.eqb resource_type "memory" && truthy_opt resource_id
             then
               memoryPermission <-
                 checkMemoryPermissions user a (or_else resource_id "") ;;
               let result := rolePermission && memoryPermission in
               logAudit user "permission_check" resource_type
                        (or_else resource_id "") result None None ;;;
               ret result
             else
               logAudit user "permission_check" resource_type
                        (or_else resource_id "") rolePermission None None ;;;
               ret rolePermission
         end
     end)
    (fun message =>
       logAudit user "permission_check" resource_type
                (or_else resource_id "") false (Some message) None ;;;
       ret false).

Definition createPermissionRule `{Host} (rule : NewPermissionRule)
  : P string :=
  ruleId <- new_uuid ;;
  now <- new_Date ;;
  set_permissionRules
    (map_set ruleId
       {| rule_id := ruleId;
          resourceType := nr_resourceType rule;
          resourceId := nr_resourceId rule;
          subjectType := nr_subjectType rule;
          subjectId := nr_subjectId rule;
          permissions := nr_permissions rule;
          rule_createdBy := nr_createdBy rule;
          rule_createdAt := now;
          expiresAt := nr_expiresAt rule;
          conditions := nr_conditions rule;
          isActive := nr_isActive rule |}) ;;;
  logAudit (nr_createdBy rule) "create_permission_rule" "permission_rule"
           ruleId true None None ;;;
  ret ruleId.

Definition deactivate (rule : PermissionRule) : PermissionRule :=
  {| rule_id := rule_id rule; resourceType := resourceType rule;
     resourceId := resourceId rule; subjectType := subjectType rule;
     subjectId := subjectId rule; permissions := permissions rule;
     rule_createdBy := rule_createdBy rule;
     rule_createdAt := rule_createdAt rule; expiresAt := expiresAt rule;
     conditions := conditions rule; isActive := false |}.

Definition deletePermissionRule `{Host} (ruleId deletedBy : string)
  : P bool :=
  p <- get_state ;;
  match map_get ruleId (permissionRules p) with
  | None => ret false
  | Some rule =>
      set_permissionRules (map_set ruleId (deactivate rule)) ;;;
      logAudit deletedBy "delete_permission_rule" "permission_rule" ruleId
               true None None ;;;
      ret true
  end.

Definition createAccessRequest `{Host} (request : NewAccessRequest)
  : P string :=
  requestId <- new_uuid ;;
  now <- new_Date ;;
  set_accessRequests
    (map_set requestId
       {| request_id := requestId;
          requesterId := na_requesterId request;
          req_resourceType := na_resourceType request;
          req_resourceId := na_resourceId request;
          requestedPermissions := na_requestedPermissions request;
          status := pending;
          req_createdAt := now;
          approvedAt := None; approvedBy := None; denyReason := None;
          req_expiresAt := na_expiresAt request |}) ;;;
  logAudit (na_requesterId request) "create_access_request"
           (na_resourceType request) (na_resourceId request) true None
           None ;;;
  ret requestId.

Definition is_pending (s : RequestStatus) : bool :=
  match s with pending => true | _ => false end.

Definition approveAccessRequest `{Host} (requestId approverId : string)
  (approverName : string) : P bool :=
  p <- get_state ;;
  match map_get requestId (accessRequests p) with
  | None => ret false
  | Some request =>
      if negb (is_pending (status request)) then ret false
      else
        now <- new_Date ;;
        set_accessRequests
          (map_set requestId
             {| request_id := request_id request;
                requesterId := requesterId request;
                req_resourceType := req_resourceType request;
                req_resourceId := req_resourceId request;
                requestedPermissions := requestedPermissions request;
                status := approved;
                req_createdAt := req_createdAt request;
                approvedAt := Some now;
                approvedBy := Some approverId;
                denyReason := denyReason request;
                req_expiresAt := req_expiresAt request |}) ;;;
        logAudit approverId "approve_access_request"
                 (req_resourceType request) (req_resourceId request) true
                 None None ;;;
        createPermissionRule
          {| nr_resourceType := req_resourceType request;
             nr_resourceId := Some (req_resourceId request);
             nr_subjectType := "user";
             nr_subjectId := requesterId request;
             nr_permissions := requestedPermissions request;
             nr_createdBy := approverId;
             nr_expiresAt := req_expiresAt request;
             nr_conditions := None;
             nr_isActive := true |} ;;;
        ret true
  end.

Definition denyAccessRequest `{Host} (requestId denierId reason : string)
  : P bool :=
  p <- get_state ;;
  match map_get requestId (accessRequests p) with
  | None => ret false
  | Some request =>
      if negb (is_pending (status request)) then ret false
      else
        set_accessRequests
          (map_set requestId
             {| request_id := request_id request;
                requesterId := requesterId request;
                req_resourceType := req_resourceType request;
                req_resourceId := req_resourceId request;
                requestedPermissions := requestedPermissions request;
                status := denied;
                req_createdAt := req_createdAt request;
                approvedAt := approvedAt request;
                approvedBy := approvedBy request;
                denyReason := Some reason;
                req_expiresAt := req_expiresAt request |}) ;;;
        logAudit denierId "deny_access_request"
                 (req_resourceType request) (req_resourceId request) true
                 None None ;;;
        ret true
  end.

(** A fresh engine, as the constructor leaves it. *)
Definition new_MemoryPermissionsEngine (t : TeamMemoryEngine)
  : MemoryPermissionsEngine :=
  {| teamMemoryEngine := t; permissionRules := []; accessRequests := [];
     auditLogs := []; dates_read := 0 |}.

(** * Properties *)

(** ** Lists, sorting and the promise monad *)

Lemma bind_Ok {S A B} (m : Promise S A) (k : A -> Promise S B) s a s' :
  m s = (Ok a, s') -> bind m k s = k a s'.
Proof. intros E. unfold bind. now rewrite E. Qed.

Lemma bind_Throw {S A B} (m : Promise S A) (k : A -> Promise S B) s msg s' :
  m s = (Throw msg, s') -> bind m k s = (Throw msg, s').
Proof. intros E. unfold bind. now rewrite E. Qed.

Lemma lastn_all {A} (n : nat) (l : list A) :
  List.length l <= n -> lastn n l = l.
Proof.
  intros Hle. unfold lastn.
  replace (List.length l - n) with 0 by lia. reflexivity.
Qed.

Lemma lastn_length {A} (n : nat) (l : list A) :
  List.length (lastn n l) = Nat.min n (List.length l).
Proof. unfold lastn. rewrite length_skipn. lia. Qed.

(** The cut of [logAudit] is [lastn] in both branches. *)
Lemma cap_is_lastn {A} (n : nat) (l : list A) :
  (if n <? List.length l then lastn n l else l) = lastn n l.
Proof.
  destruct (n <? List.length l) eqn:E; [reflexivity|].
  apply Nat.ltb_ge in E. now rewrite lastn_all.
Qed.

Lemma lastn_app_last {A} (n : nat) (l : list A) (x : A) :
  0 < n -> exists l', lastn n (l ++ [x]) = l' ++ [x].
Proof.
  intros Hn. unfold lastn. rewrite length_app. simpl.
  rewrite skipn_app.
  replace (List.length l + 1 - n - List.length l) with 0 by lia.
  simpl. eauto.
Qed.

Lemma In_insert_by {A} (le : A -> A -> bool) (x y : A) (l : list A) :
  In y (insert_by le x l) <-> y = x \/ In y l.
Proof.
  induction l as [|z t IH]; simpl.
  - intuition congruence.
  - destruct (le x z); simpl; [intuition congruence|].
    rewrite IH. intuition.
Qed.

Lemma In_sort_by {A} (le : A -> A -> bool) (y : A) (l : list A) :
  In y (sort_by le l) <-> In y l.
Proof.
  induction l as [|x t IH]; simpl; [tauto|].
  unfold sort_by in *. simpl. rewrite In_insert_by, IH. intuition congruence.
Qed.

(** A list whose neighbours are already in order is left as it is. *)
Fixpoint chain {A} (le : A -> A -> bool) (l : list A) : Prop :=
  match l with
  | [] => True
  | x :: t => match t with [] => True | y :: _ => le x y = true end /\
              chain le t
  end.


(** ** Reading the team store *)

(** What [getTeamMembers] and [getTeamMemories] resolve or reject to. *)
Definition members_of (t : TeamMemoryEngine) : result (list TeamMember) :=
  fst (getTeamMembers (teamId t) (engine t)).

Definition memories_of (t : TeamMemoryEngine) : result (list TeamMemory) :=
  fst (getTeamMemories (teamId t) None (engine t)).

(** A promise that leaves the object as it found it. *)
Definition read_only {S A} (m : Promise S A) : Prop :=
  forall s, snd (m s) = s.

Lemma read_only_ret {S A} (a : A) : read_only (@ret S A a).
Proof. intros s. reflexivity. Qed.

Lemma read_only_bind {S A B} (m : Promise S A) (k : A -> Promise S B) :
  read_only m -> (forall a, read_only (k a)) -> read_only (bind m k).
Proof.
  intros Hm Hk s. unfold bind. specialize (Hm s).
  destruct (m s) as [[a|msg] s']; simpl in *; subst; [apply Hk|reflexivity].
Qed.

Lemma read_only_allQuery {R} (q : Database -> list R) :
  read_only (allQuery q).
Proof. intros e. unfold allQuery. now destruct (db e). Qed.

Lemma read_only_map_M {S A B} (f : A -> Promise S B) (l : list A) :
  (forall a, read_only (f a)) -> read_only (map_M f l).
Proof.
  intros Hf. induction l as [|x t IH]; simpl.
  - apply read_only_ret.
  - apply read_only_bind; [apply Hf|]. intros y.
    apply read_only_bind; [apply IH|]. intros ys. apply read_only_ret.
Qed.

Lemma read_only_getTeamMembers (tid : string) :
  read_only (getTeamMembers tid).
Proof.
  unfold getTeamMembers. apply read_only_bind.
  - apply read_only_allQuery.
  - intros. apply read_only_ret.
Qed.

Lemma read_only_getMemoryVotes (id : string) : read_only (getMemoryVotes id).
Proof.
  unfold getMemoryVotes. apply read_only_bind.
  - apply read_only_allQuery.
  - intros. apply read_only_ret.
Qed.

Lemma read_only_getMemoryComments (id : string) :
  read_only (getMemoryComments id).
Proof.
  unfold getMemoryComments. apply read_only_bind.
  - apply read_only_allQuery.
  - intros. apply read_only_ret.
Qed.

Lemma read_only_getTeamMemories (tid : string) (flt : option MemoryFilter) :
  read_only (getTeamMemories tid flt).
Proof.
  unfold getTeamMemories. apply read_only_bind.
  - apply read_only_allQuery.
  - intros rows. apply read_only_map_M. intros m.
    apply read_only_bind; [apply read_only_getMemoryVotes|]. intros vs.
    apply read_only_bind; [apply read_only_getMemoryComments|]. intros cs.
    apply read_only_ret.
Qed.

Lemma on_team_read_only {A} (m : string -> M A) (p : MemoryPermissionsEngine) :
  (forall tid, read_only (m tid)) ->
  on_team m p =
  (fst (m (teamId (teamMemoryEngine p)) (engine (teamMemoryEngine p))), p).
Proof.
  intros Hro. unfold on_team.
  specialize (Hro (teamId (teamMemoryEngine p)) (engine (teamMemoryEngine p))).
  destruct (m _ _) as [r e']. simpl in *. subst e'.
  destruct p as [[tid e] rules reqs logs n]. reflexivity.
Qed.

Lemma on_team_getTeamMembers (p : MemoryPermissionsEngine) :
  on_team getTeamMembers p = (members_of (teamMemoryEngine p), p).
Proof. apply on_team_read_only, read_only_getTeamMembers. Qed.

Lemma on_team_getTeamMemories (p : MemoryPermissionsEngine) :
  on_team (fun t => getTeamMemories t None) p =
  (memories_of (teamMemoryEngine p), p).
Proof.
  apply (on_team_read_only (fun t => getTeamMemories t None)).
  intros tid. apply read_only_getTeamMemories.
Qed.

(** The outcome of a read depends on the open database only. *)
Definition db_determined {A} (m : M A) : Prop :=
  forall e e', db e = db e' -> fst (m e) = fst (m e').

Lemma db_determined_ret {A} (a : A) : db_determined (ret a).
Proof. intros e e' _. reflexivity. Qed.

Lemma db_determined_allQuery {R} (q : Database -> list R) :
  db_determined (allQuery q).
Proof. intros e e' E. unfold allQuery. rewrite E. now destruct (db e'). Qed.

Lemma db_determined_bind {A B} (m : M A) (k : A -> M B) :
  read_only m -> db_determined m -> (forall a, db_determined (k a)) ->
  db_determined (bind m k).
Proof.
  intros Hro Hm Hk e e' E. unfold bind.
  pose proof (Hro e) as R1. pose proof (Hro e') as R2.
  pose proof (Hm e e' E) as F.
  destruct (m e) as [r1 s1], (m e') as [r2 s2]. simpl in *. subst.
  destruct r2; [now apply Hk|reflexivity].
Qed.

Lemma db_determined_map_M {A B} (f : A -> M B) (l : list A) :
  (forall a, read_only (f a)) -> (forall a, db_determined (f a)) ->
  db_determined (map_M f l).
Proof.
  intros Hro Hf. induction l as [|x t IH]; simpl.
  - apply db_determined_ret.
  - apply db_determined_bind; auto. intros y.
    apply db_determined_bind; auto using read_only_map_M.
    intros ys. apply db_determined_ret.
Qed.

Lemma db_determined_getTeamMembers (tid : string) :
  db_determined (getTeamMembers tid).
Proof.
  unfold getTeamMembers.
  apply db_determined_bind;
    auto using read_only_allQuery, db_determined_allQuery.
  intros. apply db_determined_ret.
Qed.

Lemma db_determined_getMemoryVotes (id : string) :
  db_determined (getMemoryVotes id).
Proof.
  unfold getMemoryVotes.
  apply db_determined_bind;
    auto using read_only_allQuery, db_determined_allQuery.
  intros. apply db_determined_ret.
Qed.

Lemma db_determined_getMemoryComments (id : string) :
  db_determined (getMemoryComments id).
Proof.
  unfold getMemoryComments.
  apply db_determined_bind;
    auto using read_only_allQuery, db_determined_allQuery.
  intros. apply db_determined_ret.
Qed.

Lemma db_determined_getTeamMemories (tid : string) (flt : option MemoryFilter) :
  db_determined (getTeamMemories tid flt).
Proof.
  unfold getTeamMemories.
  apply db_determined_bind;
    auto using read_only_allQuery, db_determined_allQuery.
  intros rows. apply db_determined_map_M; intros m.
  - apply read_only_bind; [apply read_only_getMemoryVotes|]. intros vs.
    apply read_only_bind; [apply read_only_getMemoryComments|]. intros cs.
    apply read_only_ret.
  - apply db_determined_bind;
      auto using read_only_getMemoryVotes, db_determined_getMemoryVotes.
    intros vs.
    apply db_determined_bind;
      auto using read_only_getMemoryComments, db_determined_getMemoryComments.
    intros cs. apply db_determined_ret.
Qed.

(** Two handles on the same team and the same database contents. *)
Definition same_store (t t' : TeamMemoryEngine) : Prop :=
  teamId t' = teamId t /\ db (engine t') = db (engine t).

Lemma same_store_refl t : same_store t t.
Proof. split; reflexivity. Qed.

Lemma same_store_trans t1 t2 t3 :
  same_store t1 t2 -> same_store t2 t3 -> same_store t1 t3.
Proof. intros [A B] [C D]. split; congruence. Qed.

Lemma members_of_same_store t t' :
  same_store t t' -> members_of t' = members_of t.
Proof.
  intros [E1 E2]. unfold members_of. rewrite E1.
  now apply db_determined_getTeamMembers.
Qed.

Lemma memories_of_same_store t t' :
  same_store t t' -> memories_of t' = memories_of t.
Proof.
  intros [E1 E2]. unfold memories_of. rewrite E1.
  now apply db_determined_getTeamMemories.
Qed.

(** With the database closed every read of the team store rejects. *)
Lemma members_of_closed t :
  db (engine t) = None -> members_of t = Throw "Database not initialized".
Proof.
  intros E. unfold members_of, getTeamMembers, bind, allQuery. now rewrite E.
Qed.

Lemma map_M_reads_Ok {A B} (f : A -> M B) (l : list A) (e : MemoryEngine) :
  (forall a, read_only (f a)) ->
  (forall a, exists b, fst (f a e) = Ok b) ->
  exists bs, fst (map_M f l e) = Ok bs.
Proof.
  intros Hro Hok. induction l as [|x t [bs IH]]; simpl.
  - eexists. reflexivity.
  - unfold bind. destruct (Hok x) as [b Hb]. pose proof (Hro x e) as R.
    destruct (f x e) as [r s]. simpl in *. subst.
    pose proof (read_only_map_M f t Hro e) as R'.
    destruct (map_M f t e) as [r' s']. simpl in *. subst.
    eexists. reflexivity.
Qed.

(** With the database open both reads resolve. *)
Lemma members_of_open t d :
  db (engine t) = Some d -> exists ms, members_of t = Ok ms.
Proof.
  intros E. unfold members_of, getTeamMembers, bind, allQuery. rewrite E.
  eexists. reflexivity.
Qed.

Lemma memories_of_open t d :
  db (engine t) = Some d -> exists ms, memories_of t = Ok ms.
Proof.
  intros E. unfold memories_of, getTeamMemories, bind at 1, allQuery at 1.
  rewrite E.
  apply map_M_reads_Ok.
  - intros m.
    apply read_only_bind; [apply read_only_getMemoryVotes|]. intros vs.
    apply read_only_bind; [apply read_only_getMemoryComments|]. intros cs.
    apply read_only_ret.
  - intros m. unfold getMemoryVotes, getMemoryComments, bind, allQuery, ret.
    cbv beta. repeat (rewrite E; cbv beta iota). eexists. reflexivity.
Qed.

Lemma members_of_Ok_open t ms :
  members_of t = Ok ms -> exists d, db (engine t) = Some d.
Proof.
  intros E. destruct (db (engine t)) as [d|] eqn:Hd; [eauto|].
  rewrite (members_of_closed _ Hd) in E. discriminate.
Qed.

Lemma bind_getTeamMembers {B} (k : list TeamMember -> P B) p ms :
  members_of (teamMemoryEngine p) = Ok ms ->
  bind (on_team getTeamMembers) k p = k ms p.
Proof.
  intros E. apply bind_Ok. now rewrite on_team_getTeamMembers, E.
Qed.

Lemma bind_getTeamMemories {B} (k : list TeamMemory -> P B) p ms :
  memories_of (teamMemoryEngine p) = Ok ms ->
  bind (on_team (fun t => getTeamMemories t None)) k p = k ms p.
Proof.
  intros E. apply bind_Ok. now rewrite on_team_getTeamMemories, E.
Qed.

(** ** Steps of the permission engine *)

(** A step that touches neither the team store, nor the rules, nor the
    requests, nor the audit log (only the counters may move). *)
Record quiet (p p' : MemoryPermissionsEngine) : Prop := {
  quiet_store : same_store (teamMemoryEngine p) (teamMemoryEngine p');
  quiet_rules : permissionRules p' = permissionRules p;
  quiet_requests : accessRequests p' = accessRequests p;
  quiet_logs : auditLogs p' = auditLogs p
}.

(** A step whose only visible effect is one more audit entry [e], the log
    being cut to its most recent [MAX_AUDIT_LOGS] entries. *)
Record audit_step (e : AuditLog) (p p' : MemoryPermissionsEngine) : Prop := {
  step_store : same_store (teamMemoryEngine p) (teamMemoryEngine p');
  step_rules : permissionRules p' = permissionRules p;
  step_requests : accessRequests p' = accessRequests p;
  step_logs : auditLogs p' = lastn MAX_AUDIT_LOGS (auditLogs p ++ [e])
}.

Lemma quiet_refl p : quiet p p.
Proof. split; auto using same_store_refl. Qed.

Lemma quiet_trans p1 p2 p3 : quiet p1 p2 -> quiet p2 p3 -> quiet p1 p3.
Proof.
  intros [A B C D] [A' B' C' D'].
  split; eauto using same_store_trans; congruence.
Qed.

Lemma quiet_audit_step e p1 p2 p3 :
  quiet p1 p2 -> audit_step e p2 p3 -> audit_step e p1 p3.
Proof.
  intros [A B C D] [A' B' C' D'].
  split; eauto using same_store_trans; congruence.
Qed.

Lemma new_Date_quiet `{Host} p :
  exists p', new_Date p = (Ok (date_now (dates_read p)), p') /\ quiet p p'.
Proof.
  eexists. split; [reflexivity|].
  split; simpl; auto using same_store_refl.
Qed.

Lemma new_uuid_quiet `{Host} p :
  exists id p', new_uuid p = (Ok id, p') /\ quiet p p'.
Proof.
  do 2 eexists. split; [reflexivity|].
  split; simpl; auto. split; reflexivity.
Qed.

Lemma get_state_eq p : get_state p = (Ok p, p).
Proof. reflexivity. Qed.

(** [logAudit] resolves exactly when the members can be read, and then adds
    one entry carrying its arguments. *)
Lemma logAudit_Ok `{Host} user act rt rid ok err md p ms :
  members_of (teamMemoryEngine p) = Ok ms ->
  exists e p',
    logAudit user act rt rid ok err md p = (Ok tt, p') /\
    audit_step e p p' /\
    userId e = user /\ audit_action e = act /\ audit_resourceType e = rt /\
    audit_resourceId e = rid /\ success e = ok /\ errorMessage e = err.
Proof.
  intros Hms. unfold logAudit.
  rewrite (bind_getTeamMembers _ _ Hms).
  destruct (new_uuid_quiet p) as (id & p1 & E1 & Q1).
  rewrite (bind_Ok _ _ _ E1).
  destruct (new_Date_quiet p1) as (p2 & E2 & Q2).
  rewrite (bind_Ok _ _ _ E2).
  unfold push_audit. rewrite cap_is_lastn.
  do 2 eexists. split; [reflexivity|]. split.
  - apply quiet_audit_step with (p2 := p2); [eapply quiet_trans; eauto|].
    split; simpl; auto using same_store_refl.
  - simpl. repeat split; reflexivity.
Qed.

Lemma logAudit_Throw `{Host} user act rt rid ok err md p msg :
  members_of (teamMemoryEngine p) = Throw msg ->
  logAudit user act rt rid ok err md p = (Throw msg, p).
Proof.
  intros Hms. unfold logAudit.
  apply bind_Throw. now rewrite on_team_getTeamMembers, Hms.
Qed.

(** The decision of [checkMemoryPermissions] on the memories read. *)
Definition memory_decision (user memoryId : string)
  (memories : list TeamMemory) : bool :=
  match find_memory memoryId memories with
  | None => false
  | Some memory =>
      String.eqb (createdBy memory) user ||
      match visibility memory with
      | private => false
      | team_only | public => true
      end
  end.

Lemma checkMemoryPermissions_Ok user a memoryId p mems :
  memories_of (teamMemoryEngine p) = Ok mems ->
  checkMemoryPermissions user a memoryId p =
  (Ok (memory_decision user memoryId mems), p).
Proof.
  intros Hm. unfold checkMemoryPermissions, memory_decision.
  rewrite (bind_getTeamMemories _ _ Hm).
  destruct (find_memory memoryId mems) as [m|]; [|reflexivity].
  destruct (String.eqb (createdBy m) user); [reflexivity|].
  now destruct (visibility m).
Qed.

(** The explicit rules are consulted without any visible effect, and the
    consultation resolves whenever the memories can be read. *)
Lemma evaluateConditions_quiet `{Host} conds user rt rid p mems :
  memories_of (teamMemoryEngine p) = Ok mems ->
  exists b p', evaluateConditions conds user rt rid p = (Ok b, p') /\
               quiet p p'.
Proof.
  revert p. induction conds as [|c rest IH]; intros p Hm; simpl.
  - do 2 eexists. split; [reflexivity|apply quiet_refl].
  - assert (exists ok p1,
      match c with
      | time_window s e => isInTimeWindow s e
      | memory_type_is v =>
          if String.eqb rt "memory" && truthy_opt rid
          then
            memories <- on_team (fun t => getTeamMemories t None) ;;
            match find_memory (or_else rid "") memories with
            | Some memory => ret (String.eqb (memory_type memory) v)
            | None => ret true
            end
          else ret true
      | approval_required => checkApprovalStatus user rt rid
      end p = (Ok ok, p1) /\ quiet p p1) as (ok & p1 & E1 & Q1).
    { destruct c as [s e|v|].
      - unfold isInTimeWindow.
        destruct (new_Date_quiet p) as (p1 & E1 & Q1).
        rewrite (bind_Ok _ _ _ E1). do 2 eexists. split; [reflexivity|exact Q1].
      - destruct (String.eqb rt "memory" && truthy_opt rid).
        + rewrite (bind_getTeamMemories _ _ Hm).
          destruct (find_memory (or_else rid "") mems);
            do 2 eexists; (split; [reflexivity|apply quiet_refl]).
        + do 2 eexists. split; [reflexivity|apply quiet_refl].
      - unfold checkApprovalStatus. rewrite (bind_Ok _ _ _ (get_state_eq p)).
        do 2 eexists. split; [reflexivity|apply quiet_refl]. }
    rewrite (bind_Ok _ _ _ E1). destruct ok.
    + destruct (IH p1) as (b & p2 & E2 & Q2).
      { rewrite (memories_of_same_store (quiet_store Q1)). exact Hm. }
      do 2 eexists. split; [exact E2|eapply quiet_trans; eauto].
    + do 2 eexists. split; [reflexivity|exact Q1].
Qed.

Lemma first_decisive_rule_quiet `{Host} rules user a rt rid p mems :
  memories_of (teamMemoryEngine p) = Ok mems ->
  exists r p', first_decisive_rule rules user a rt rid p = (Ok r, p') /\
               quiet p p'.
Proof.
  revert p. induction rules as [|rule rest IH]; intros p Hm; simpl.
  - do 2 eexists. split; [reflexivity|apply quiet_refl].
  - destruct (find _ (permissions rule)) as [perm|]; [|now apply IH].
    assert (exists ok p1,
      match conditions rule with
      | Some (c :: cs) => evaluateConditions (c :: cs) user rt rid
      | _ => ret true
      end p = (Ok ok, p1) /\ quiet p p1) as (ok & p1 & E1 & Q1).
    { destruct (conditions rule) as [[|c cs]|];
        try (do 2 eexists; split; [reflexivity|apply quiet_refl]).
      eapply evaluateConditions_quiet; eauto. }
    rewrite (bind_Ok _ _ _ E1). destruct ok.
    + do 2 eexists. split; [reflexivity|exact Q1].
    + destruct (IH p1) as (r & p2 & E2 & Q2).
      { rewrite (memories_of_same_store (quiet_store Q1)). exact Hm. }
      do 2 eexists. split; [exact E2|eapply quiet_trans; eauto].
Qed.

Lemma checkExplicitPermissions_quiet `{Host} user a rt rid p mems :
  memories_of (teamMemoryEngine p) = Ok mems ->
  exists r p', checkExplicitPermissions user a rt rid p = (Ok r, p') /\
               quiet p p'.
Proof.
  intros Hm. unfold checkExplicitPermissions.
  rewrite (bind_Ok _ _ _ (get_state_eq p)).
  eapply first_decisive_rule_quiet; eauto.
Qed.

Lemma try_catch_Ok {S A} (body : Promise S A) handler s a s' :
  body s = (Ok a, s') -> try_catch body handler s = (Ok a, s').
Proof. intros E. unfold try_catch. now rewrite E. Qed.

Lemma try_catch_Throw {S A} (body : Promise S A) handler s msg s' :
  body s = (Throw msg, s') -> try_catch body handler s = handler msg s'.
Proof. intros E. unfold try_catch. now rewrite E. Qed.

(** ** [checkPermission] *)

(** What the role matrix and the memory's visibility decide when no explicit
    rule does. *)
Definition default_decision (u : TeamMember) (a : Action) (rt : string)
  (rid : option string) (mems : list TeamMemory) : bool :=
  if String.eqb rt "memory" && truthy_opt rid
  then checkRolePermissions (member_role u) a &&
       memory_decision (member_id u) (or_else rid "") mems
  else checkRolePermissions (member_role u) a.

Lemma find_member_id user ms u :
  find_member user ms = Some u -> member_id u = user.
Proof.
  intros E. apply find_some in E. destruct E as [_ E].
  now apply String.eqb_eq in E.
Qed.

Lemma checkPermission_unknown_user `{Host} user a rt rid p ms :
  members_of (teamMemoryEngine p) = Ok ms ->
  find_member user ms = None ->
  exists e p',
    checkPermission user a rt rid p = (Ok false, p') /\
    audit_step e p p' /\ userId e = user /\ success e = false /\
    errorMessage e = Some "User not found".
Proof.
  intros Hms Hf.
  destruct (logAudit_Ok user "permission_check" rt (or_else rid "") false
              (Some "User not found") None p Hms)
    as (e & p' & E & St & Hu & _ & _ & _ & Hs & He).
  exists e, p'. split; [|auto].
  unfold checkPermission. apply try_catch_Ok.
  rewrite (bind_getTeamMembers _ _ Hms), Hf.
  now rewrite (bind_Ok _ _ _ E).
Qed.

Lemma checkPermission_member `{Host} user a rt rid p ms u mems ex p1 :
  members_of (teamMemoryEngine p) = Ok ms ->
  find_member user ms = Some u ->
  memories_of (teamMemoryEngine p) = Ok mems ->
  checkExplicitPermissions user a rt rid p = (Ok ex, p1) ->
  exists e p',
    checkPermission user a rt rid p =
      (Ok (match ex with
           | Some g => g
           | None => default_decision u a rt rid mems
           end), p') /\
    audit_step e p p' /\ userId e = user /\
    success e = match ex with
                | Some g => g
                | None => default_decision u a rt rid mems
                end /\
    errorMessage e = None /\ audit_action e = "permission_check".
Proof.
  intros Hms Hf Hmem Hex.
  destruct (checkExplicitPermissions_quiet user a rt rid p Hmem)
    as (r & p1' & Hex' & Q).
  rewrite Hex in Hex'. injection Hex' as <- <-.
  assert (Hms1 : members_of (teamMemoryEngine p1) = Ok ms)
    by (now rewrite (members_of_same_store (quiet_store Q))).
  assert (Hmem1 : memories_of (teamMemoryEngine p1) = Ok mems)
    by (now rewrite (memories_of_same_store (quiet_store Q))).
  set (b := match ex with
            | Some g => g
            | None => default_decision u a rt rid mems
            end).
  destruct (logAudit_Ok user "permission_check" rt (or_else rid "") b None
              None p1 Hms1)
    as (e & p' & E & St & Hu & Ha & _ & _ & Hs & He).
  exists e, p'. split; [|eauto 6 using quiet_audit_step].
  unfold checkPermission. apply try_catch_Ok.
  rewrite (bind_getTeamMembers _ _ Hms), Hf.
  rewrite (bind_Ok _ _ _ Hex).
  destruct ex as [g|].
  - subst b. now rewrite (bind_Ok _ _ _ E).
  - subst b. unfold default_decision in *.
    rewrite (find_member_id _ _ Hf) in *.
    destruct (String.eqb rt "memory" && truthy_opt rid).
    + rewrite (bind_Ok _ _ _ (checkMemoryPermissions_Ok user a _ p1 Hmem1)).
      now rewrite (bind_Ok _ _ _ E).
    + now rewrite (bind_Ok _ _ _ E).
Qed.

(** Whenever the team store can be read, the check resolves to a boolean
    and leaves exactly one more audit entry, whose [success] flag is that
    boolean. *)
Lemma checkPermission_resolves `{Host} user a rt rid p ms :
  members_of (teamMemoryEngine p) = Ok ms ->
  exists b e p',
    checkPermission user a rt rid p = (Ok b, p') /\
    audit_step e p p' /\ userId e = user /\ success e = b.
Proof.
  intros Hms.
  destruct (members_of_Ok_open _ Hms) as [d Hd].
  destruct (memories_of_open _ Hd) as [mems Hmem].
  destruct (find_member user ms) as [u|] eqn:Hf.
  - destruct (checkExplicitPermissions_quiet user a rt rid p Hmem)
      as (ex & p1 & Hex & _).
    destruct (checkPermission_member user a rt rid p Hms Hf Hmem Hex)
      as (e & p' & E & St & Hu & Hs & _ & _).
    eauto 10.
  - destruct (checkPermission_unknown_user user a rt rid p Hms Hf)
      as (e & p' & E & St & Hu & Hs & _).
    eauto 10.
Qed.

(** With no applicable rule the explicit consultation finds nothing. *)
Lemma checkExplicitPermissions_none `{Host} user a rt rid p :
  filter (rule_applies user rt rid) (map_values (permissionRules p)) = [] ->
  checkExplicitPermissions user a rt rid p = (Ok None, p).
Proof.
  intros E. unfold checkExplicitPermissions.
  rewrite (bind_Ok _ _ _ (get_state_eq p)), E. reflexivity.
Qed.

(** The handler of [checkPermission] calls [logAudit], which reads the team
    members again: when that read rejects, so does the whole check, and the
    engine is left as it was. *)
Lemma checkPermission_members_unreadable `{Host} user a rt rid p msg :
  members_of (teamMemoryEngine p) = Throw msg ->
  checkPermission user a rt rid p = (Throw msg, p).
Proof.
  intros Hms. unfold checkPermission.
  rewrite (try_catch_Throw _ _ p (msg := msg) (s' := p)).
  - apply bind_Throw. now apply logAudit_Throw.
  - apply bind_Throw. now rewrite on_team_getTeamMembers, Hms.
Qed.

Lemma audit_step_length e p p' :
  audit_step e p p' -> List.length (auditLogs p') <= MAX_AUDIT_LOGS.
Proof. intros St. rewrite (step_logs St), lastn_length. lia. Qed.

Lemma audit_step_keeps_new_entry e p p' :
  audit_step e p p' -> exists older, auditLogs p' = older ++ [e].
Proof.
  intros St. rewrite (step_logs St). apply lastn_app_last.
  unfold MAX_AUDIT_LOGS. lia.
Qed.

(** ** A small team used to instantiate the statements *)

Definition decimal (n : nat) : string :=
  DecimalString.NilEmpty.string_of_uint (Nat.to_uint n).

(** Stand-ins for the host services: numbered identifiers, a clock that
    advances by one second per statement, the path as its own digest. *)
#[export] Instance example_host : Host := {|
  uuid_v4 := fun n => ("id-" ++ decimal n)%string;
  wall_clock := fun n => 1000 + n;
  date_now := fun n => 5000 + n;
  md5_hex := fun path => path
|}.

Definition unopened_engine (path : string) : MemoryEngine :=
  {| projectPath := path; db := None; uuid_calls := 0; sql_calls := 0 |}.

(** [initialize], three members (ids [id-0], [id-1], [id-2]) and three
    memories (ids [id-3], [id-4], [id-5]). *)
Definition example_setup : M unit :=
  initialize None ;;;
  alice <- addTeamMember "team-1"
             {| new_email := "alice@example.org"; new_name := "Alice";
                new_role := admin; new_permissions := "[]" |} ;;
  dave <- addTeamMember "team-1"
            {| new_email := "dave@example.org"; new_name := "Dave";
               new_role := developer; new_permissions := "[]" |} ;;
  olga <- addTeamMember "team-1"
            {| new_email := "olga@example.org"; new_name := "Olga";
               new_role := observer; new_permissions := "[]" |} ;;
  createTeamMemory "team-1"
    {| new_type := "decision"; new_title := "Use SQLite";
       new_content := "One database file per project"; new_context := "";
       new_createdBy := alice; new_tags := ["storage"];
       new_visibility := team_only; new_projectId := None;
       new_metadata := "{}" |} ;;;
  createTeamMemory "team-1"
    {| new_type := "lesson"; new_title := "Review notes";
       new_content := "Keep reviews small"; new_context := "";
       new_createdBy := olga; new_tags := [];
       new_visibility := team_only; new_projectId := None;
       new_metadata := "{}" |} ;;;
  createTeamMemory "team-1"
    {| new_type := "pattern"; new_title := "Scratch";
       new_content := "Private notes"; new_context := "";
       new_createdBy := dave; new_tags := [];
       new_visibility := private; new_projectId := None;
       new_metadata := "{}" |} ;;;
  ret tt.

Definition example_team : TeamMemoryEngine :=
  {| teamId := "team-1";
     engine := snd (example_setup (unopened_engine "/work/app")) |}.

Definition example_engine : MemoryPermissionsEngine :=
  new_MemoryPermissionsEngine example_team.

(** An engine built on a team store that was never initialized. *)
Definition unopened_team : TeamMemoryEngine :=
  {| teamId := "team-1"; engine := unopened_engine "/work/app" |}.

(** ** Claims about [checkPermission] *)




Lemma memory_decision_team_only user memoryId mems m :
  find_memory memoryId mems = Some m -> visibility m = team_only ->
  memory_decision user memoryId mems = true.
Proof.
  intros Hf Hv. unfold memory_decision. rewrite Hf, Hv.
  apply Bool.orb_true_r.
Qed.

(** The default decision on a [team_only] memory is the role default. *)
Lemma default_decision_team_only u a memoryId mems m :
  find_memory memoryId mems = Some m -> visibility m = team_only ->
  default_decision u a "memory" (Some memoryId) mems =
  defaultPermissions (member_role u) a.
Proof.
  intros Hf Hv. unfold default_decision, checkRolePermissions. simpl.
  rewrite Bool.orb_false_r.
  destruct (truthy memoryId) eqn:T; [|reflexivity].
  rewrite (memory_decision_team_only _ _ _ Hf Hv). apply Bool.andb_true_r.
Qed.

(** C2.  With no explicit rule present, a developer [D] who did not create
    the [team_only] memory [M] may [write] it but not [delete] it; an
    observer [O] may [vote] and [comment] on it, and a [write] attempt by
    [O] returns [false] and appends an audit entry for [O] whose [success]
    flag is [false]. *)
Theorem developer_and_observer_on_team_only_memory `{Host}
  p ms mems D O M uD uO m :
  members_of (teamMemoryEngine p) = Ok ms ->
  memories_of (teamMemoryEngine p) = Ok mems ->
  permissionRules p = [] ->
  find_member D ms = Some uD -> member_role uD = developer ->
  find_member O ms = Some uO -> member_role uO = observer ->
  find_memory M mems = Some m -> visibility m = team_only ->
  createdBy m <> D ->
  fst (checkPermission D act_write "memory" (Some M) p) = Ok true /\
  fst (checkPermission D act_delete "memory" (Some M) p) = Ok false /\
  fst (checkPermission O act_vote "memory" (Some M) p) = Ok true /\
  fst (checkPermission O act_comment "memory" (Some M) p) = Ok true /\
  exists e p',
    checkPermission O act_write "memory" (Some M) p = (Ok false, p') /\
    auditLogs p' = lastn MAX_AUDIT_LOGS (auditLogs p ++ [e]) /\
    In e (auditLogs p') /\
    userId e = O /\ audit_action e = "permission_check" /\
    success e = false.
Proof.
  intros Hms Hmem Hrules HD HrD HO HrO Hm Hv _.
  assert (Hnone : forall user a,
    checkExplicitPermissions user a "memory" (Some M) p = (Ok None, p)).
  { intros. apply checkExplicitPermissions_none. now rewrite Hrules. }
  assert (Hdec : forall user u a,
    find_member user ms = Some u ->
    fst (checkPermission user a "memory" (Some M) p) =
    Ok (defaultPermissions (member_role u) a)).
  { intros user u a Hu.
    destruct (checkPermission_member user a "memory" (Some M) p
                Hms Hu Hmem (Hnone user a)) as (e & p' & E & _).
    rewrite E. simpl. now rewrite (@default_decision_team_only u a _ _ _ Hm Hv). }
  repeat split.
  - now rewrite (Hdec D uD act_write HD), HrD.
  - now rewrite (Hdec D uD act_delete HD), HrD.
  - now rewrite (Hdec O uO act_vote HO), HrO.
  - now rewrite (Hdec O uO act_comment HO), HrO.
  - destruct (checkPermission_member O act_write "memory" (Some M) p
                Hms HO Hmem (Hnone O act_write))
      as (e & p' & E & St & Hu & Hs & _ & Ha).
    rewrite (@default_decision_team_only uO act_write _ _ _ Hm Hv), HrO in E, Hs.
    exists e, p'. split; [exact E|]. split; [apply (step_logs St)|].
    split; [|auto].
    destruct (audit_step_keeps_new_entry St) as [older ->].
    apply in_or_app. right. now left.
Qed.

Lemma developer_and_observer_witness :
  fst (checkPermission "id-1" act_write "memory" (Some "id-3")
         example_engine) = Ok true /\
  fst (checkPermission "id-1" act_delete "memory" (Some "id-3")
         example_engine) = Ok false /\
  fst (checkPermission "id-2" act_vote "memory" (Some "id-3")
         example_engine) = Ok true /\
  fst (checkPermission "id-2" act_comment "memory" (Some "id-3")
         example_engine) = Ok true /\
  exists e p',
    checkPermission "id-2" act_write "memory" (Some "id-3") example_engine =
      (Ok false, p') /\
    auditLogs p' = lastn MAX_AUDIT_LOGS (auditLogs example_engine ++ [e]) /\
    In e (auditLogs p') /\
    userId e = "id-2" /\ audit_action e = "permission_check" /\
    success e = false.
Proof.
  let ms := eval vm_compute in (members_of example_team) in
  let mems := eval vm_compute in (memories_of example_team) in
  match ms with
  | Ok ?l =>
      match mems with
      | Ok ?l' =>
          let dave := eval vm_compute in (find_member "id-1" l) in
          let olga := eval vm_compute in (find_member "id-2" l) in
          let mem := eval vm_compute in (find_memory "id-3" l') in
          match constr:((dave, olga, mem)) with
          | (Some ?d, Some ?o, Some ?m) =>
              apply (@developer_and_observer_on_team_only_memory
                       example_host example_engine l l' "id-1" "id-2" "id-3"
                       d o m)
          end
      end
  end.
  - vm_compute. reflexivity.
  - vm_compute. reflexivity.
  - reflexivity.
  - vm_compute. reflexivity.
  - reflexivity.
  - vm_compute. reflexivity.
  - reflexivity.
  - vm_compute. reflexivity.
  - reflexivity.
  - simpl. discriminate.
Defined.

(** ** Claims about failures and the audit log *)

(** C10, at the failing input.  On an engine whose team store has not been
    initialized, [checkPermission] does not return [false]: the read of the
    members rejects, the handler's own [logAudit] reads the members again
    and rejects as well, so the promise is rejected. *)
Theorem checkPermission_rejects_on_unopened_store `{Host} user a rt rid p :
  db (engine (teamMemoryEngine p)) = None ->
  fst (checkPermission user a rt rid p) = Throw "Database not initialized".
Proof.
  intros Hdb.
  now rewrite (checkPermission_members_unreadable user a rt rid p
                 (members_of_closed _ Hdb)).
Qed.

Lemma checkPermission_rejects_on_unopened_store_witness :
  fst (checkPermission "id-1" act_read "memory" (Some "id-3")
         (new_MemoryPermissionsEngine unopened_team)) =
  Throw "Database not initialized".
Proof.
  apply (@checkPermission_rejects_on_unopened_store example_host).
  reflexivity.
Defined.

(** C9, at the failing input.  The same check on an unopened team store is
    an error path that appends no audit entry at all. *)
Theorem checkPermission_error_path_without_entry `{Host} user a rt rid p :
  db (engine (teamMemoryEngine p)) = None ->
  is_ok (fst (checkPermission user a rt rid p)) = false /\
  auditLogs (snd (checkPermission user a rt rid p)) = auditLogs p.
Proof.
  intros Hdb.
  rewrite (checkPermission_members_unreadable user a rt rid p
             (members_of_closed _ Hdb)).
  split; reflexivity.
Qed.

Lemma checkPermission_error_path_without_entry_witness :
  is_ok (fst (checkPermission "id-1" act_read "memory" (Some "id-3")
                (new_MemoryPermissionsEngine unopened_team))) = false /\
  auditLogs (snd (checkPermission "id-1" act_read "memory" (Some "id-3")
                    (new_MemoryPermissionsEngine unopened_team))) =
  auditLogs (new_MemoryPermissionsEngine unopened_team).
Proof.
  apply (@checkPermission_error_path_without_entry example_host).
  reflexivity.
Defined.

(** What does hold of the audit log: a check that returns leaves the log
    equal to the last [MAX_AUDIT_LOGS] entries of the old log followed by
    one new entry, so the log never exceeds the cap and the newest entries
    are the ones kept. *)
Lemma checkPermission_audit_log `{Host} user a rt rid p b p' :
  checkPermission user a rt rid p = (Ok b, p') ->
  exists e,
    auditLogs p' = lastn MAX_AUDIT_LOGS (auditLogs p ++ [e]) /\
    List.length (auditLogs p') <= MAX_AUDIT_LOGS /\
    userId e = user /\ success e = b.
Proof.
  intros E.
  destruct (members_of (teamMemoryEngine p)) as [ms|msg] eqn:Hms.
  - destruct (checkPermission_resolves user a rt rid p Hms)
      as (b' & e & p2 & E' & St & Hu & Hs).
    rewrite E in E'. injection E' as -> ->.
    exists e. split; [apply (step_logs St)|].
    split; [apply (audit_step_length St)|]. split; assumption.
  - rewrite (checkPermission_members_unreadable user a rt rid p Hms) in E.
    discriminate.
Qed.

(** ** Rules and access requests *)

Lemma map_get_map_set {V} (k : string) (v : V) (m : list (string * V)) :
  map_get k (map_set k v m) = Some v.
Proof.
  unfold map_get. induction m as [|[k' v'] t IH]; simpl.
  - now rewrite String.eqb_refl.
  - destruct (String.eqb k' k) eqn:E; simpl.
    + now rewrite String.eqb_refl.
    + now rewrite E.
Qed.

Lemma In_map_set_new {V} (k : string) (v : V) (m : list (string * V)) :
  In v (map_values (map_set k v m)).
Proof.
  unfold map_values. induction m as [|[k' v'] t IH]; simpl; [now left|].
  destruct (String.eqb k' k); simpl; auto.
Qed.

Lemma In_map_set_inv {V} (k : string) (v x : V) (m : list (string * V)) :
  In x (map_values (map_set k v m)) -> x = v \/ In x (map_values m).
Proof.
  unfold map_values. induction m as [|[k' v'] t IH]; simpl.
  - intros [<-|[]]. now left.
  - destruct (String.eqb k' k); simpl.
    + intros [<-|Hin]; auto.
    + intros [<-|Hin]; auto. destruct (IH Hin); auto.
Qed.

Lemma createPermissionRule_Ok `{Host} (nr : NewPermissionRule) p ms :
  members_of (teamMemoryEngine p) = Ok ms ->
  exists ruleId now e p',
    createPermissionRule nr p = (Ok ruleId, p') /\
    permissionRules p' =
      map_set ruleId
        {| rule_id := ruleId;
           resourceType := nr_resourceType nr;
           resourceId := nr_resourceId nr;
           subjectType := nr_subjectType nr;
           subjectId := nr_subjectId nr;
           permissions := nr_permissions nr;
           rule_createdBy := nr_createdBy nr;
           rule_createdAt := now;
           expiresAt := nr_expiresAt nr;
           conditions := nr_conditions nr;
           isActive := nr_isActive nr |} (permissionRules p) /\
    accessRequests p' = accessRequests p /\
    same_store (teamMemoryEngine p) (teamMemoryEngine p') /\
    auditLogs p' = lastn MAX_AUDIT_LOGS (auditLogs p ++ [e]).
Proof.
  intros Hms. unfold createPermissionRule.
  destruct (new_uuid_quiet p) as (id & p1 & E1 & Q1).
  rewrite (bind_Ok _ _ _ E1).
  destruct (new_Date_quiet p1) as (p2 & E2 & Q2).
  rewrite (bind_Ok _ _ _ E2).
  pose proof (quiet_trans Q1 Q2) as Q.
  match goal with
  | |- context [set_permissionRules ?f] =>
      set (p3 := snd (set_permissionRules f p2));
      assert (E3 : set_permissionRules f p2 = (Ok tt, p3)) by reflexivity
  end.
  rewrite (bind_Ok _ _ _ E3).
  assert (Hms3 : members_of (teamMemoryEngine p3) = Ok ms).
  { rewrite <- Hms. apply members_of_same_store. apply (quiet_store Q). }
  destruct (logAudit_Ok (nr_createdBy nr) "create_permission_rule"
              "permission_rule" id true None None p3 Hms3)
    as (e & p4 & E4 & St & _).
  rewrite (bind_Ok _ _ _ E4).
  exists id, (date_now (dates_read p1)), e, p4.
  split; [reflexivity|].
  destruct St as [S1 S2 S3 S4], Q as [Q1' Q2' Q3' Q4'].
  subst p3. simpl in *.
  repeat split.
  - now rewrite S2, Q2'.
  - now rewrite S3, Q3'.
  - destruct S1, Q1'. congruence.
  - destruct S1, Q1'. congruence.
  - now rewrite S4, Q4'.
Qed.

Definition approve_request (r : AccessRequest) (now : nat) (by_ : string)
  : AccessRequest :=
  {| request_id := request_id r; requesterId := requesterId r;
     req_resourceType := req_resourceType r;
     req_resourceId := req_resourceId r;
     requestedPermissions := requestedPermissions r; status := approved;
     req_createdAt := req_createdAt r; approvedAt := Some now;
     approvedBy := Some by_; denyReason := denyReason r;
     req_expiresAt := req_expiresAt r |}.

Definition deny_request (r : AccessRequest) (reason : string)
  : AccessRequest :=
  {| request_id := request_id r; requesterId := requesterId r;
     req_resourceType := req_resourceType r;
     req_resourceId := req_resourceId r;
     requestedPermissions := requestedPermissions r; status := denied;
     req_createdAt := req_createdAt r; approvedAt := approvedAt r;
     approvedBy := approvedBy r; denyReason := Some reason;
     req_expiresAt := req_expiresAt r |}.

(** The rule [approveAccessRequest] materializes for a request. *)
Definition rule_for_request (r : AccessRequest) (ruleId approver : string)
  (now : nat) : PermissionRule :=
  {| rule_id := ruleId;
     resourceType := req_resourceType r;
     resourceId := Some (req_resourceId r);
     subjectType := "user";
     subjectId := requesterId r;
     permissions := requestedPermissions r;
     rule_createdBy := approver;
     rule_createdAt := now;
     expiresAt := req_expiresAt r;
     conditions := None;
     isActive := true |}.

Lemma approveAccessRequest_not_pending `{Host} id approver name p r :
  map_get id (accessRequests p) = Some r -> status r <> pending ->
  approveAccessRequest id approver name p = (Ok false, p).
Proof.
  intros Hg Hs. unfold approveAccessRequest.
  rewrite (bind_Ok _ _ _ (get_state_eq p)), Hg.
  destruct (status r); [congruence| |]; reflexivity.
Qed.

Lemma denyAccessRequest_not_pending `{Host} id denier reason p r :
  map_get id (accessRequests p) = Some r -> status r <> pending ->
  denyAccessRequest id denier reason p = (Ok false, p).
Proof.
  intros Hg Hs. unfold denyAccessRequest.
  rewrite (bind_Ok _ _ _ (get_state_eq p)), Hg.
  destruct (status r); [congruence| |]; reflexivity.
Qed.

Lemma approveAccessRequest_unknown `{Host} id approver name p :
  map_get id (accessRequests p) = None ->
  approveAccessRequest id approver name p = (Ok false, p).
Proof.
  intros Hg. unfold approveAccessRequest.
  now rewrite (bind_Ok _ _ _ (get_state_eq p)), Hg.
Qed.

Lemma denyAccessRequest_unknown `{Host} id denier reason p :
  map_get id (accessRequests p) = None ->
  denyAccessRequest id denier reason p = (Ok false, p).
Proof.
  intros Hg. unfold denyAccessRequest.
  now rewrite (bind_Ok _ _ _ (get_state_eq p)), Hg.
Qed.

Lemma approveAccessRequest_pending `{Host} id approver name p r ms :
  members_of (teamMemoryEngine p) = Ok ms ->
  map_get id (accessRequests p) = Some r -> status r = pending ->
  exists now ruleId now' p',
    approveAccessRequest id approver name p = (Ok true, p') /\
    accessRequests p' =
      map_set id (approve_request r now approver) (accessRequests p) /\
    permissionRules p' =
      map_set ruleId (rule_for_request r ruleId approver now')
              (permissionRules p) /\
    same_store (teamMemoryEngine p) (teamMemoryEngine p') /\
    List.length (auditLogs p') <= MAX_AUDIT_LOGS.
Proof.
  intros Hms Hg Hs. unfold approveAccessRequest.
  rewrite (bind_Ok _ _ _ (get_state_eq p)), Hg, Hs.
  change (negb (is_pending pending)) with false. cbv iota.
  destruct (new_Date_quiet p) as (p1 & E1 & Q1).
  rewrite (bind_Ok _ _ _ E1).
  match goal with
  | |- context [set_accessRequests ?f] =>
      set (p2 := snd (set_accessRequests f p1));
      assert (E2 : set_accessRequests f p1 = (Ok tt, p2)) by reflexivity
  end.
  rewrite (bind_Ok _ _ _ E2).
  assert (Hms2 : members_of (teamMemoryEngine p2) = Ok ms).
  { rewrite <- Hms. apply members_of_same_store. apply (quiet_store Q1). }
  destruct (logAudit_Ok approver "approve_access_request"
              (req_resourceType r) (req_resourceId r) true None None p2 Hms2)
    as (e & p3 & E3 & St & _).
  rewrite (bind_Ok _ _ _ E3).
  assert (Hms3 : members_of (teamMemoryEngine p3) = Ok ms).
  { rewrite <- Hms2. apply members_of_same_store. apply (step_store St). }
  match goal with
  | |- context [createPermissionRule ?nr] =>
      destruct (createPermissionRule_Ok nr p3 Hms3)
        as (ruleId & now' & e' & p4 & E4 & R4 & A4 & S4 & L4)
  end.
  rewrite (bind_Ok _ _ _ E4).
  exists (date_now (dates_read p)), ruleId, now', p4.
  split; [reflexivity|].
  destruct St as [S1 S2 S3 S5], Q1 as [Q1' Q2' Q3' Q4'].
  subst p2. simpl in *.
  repeat split.
  - now rewrite A4, S3, Q3'.
  - now rewrite R4, S2, Q2'.
  - destruct S4, S1, Q1'. congruence.
  - destruct S4, S1, Q1'. congruence.
  - rewrite L4, lastn_length. lia.
Qed.

Lemma denyAccessRequest_pending `{Host} id denier reason p r ms :
  members_of (teamMemoryEngine p) = Ok ms ->
  map_get id (accessRequests p) = Some r -> status r = pending ->
  exists p',
    denyAccessRequest id denier reason p = (Ok true, p') /\
    accessRequests p' =
      map_set id (deny_request r reason) (accessRequests p) /\
    permissionRules p' = permissionRules p /\
    same_store (teamMemoryEngine p) (teamMemoryEngine p') /\
    List.length (auditLogs p') <= MAX_AUDIT_LOGS.
Proof.
  intros Hms Hg Hs. unfold denyAccessRequest.
  rewrite (bind_Ok _ _ _ (get_state_eq p)), Hg, Hs.
  change (negb (is_pending pending)) with false. cbv iota.
  match goal with
  | |- context [set_accessRequests ?f] =>
      set (p2 := snd (set_accessRequests f p));
      assert (E2 : set_accessRequests f p = (Ok tt, p2)) by reflexivity
  end.
  rewrite (bind_Ok _ _ _ E2).
  assert (Hms2 : members_of (teamMemoryEngine p2) = Ok ms) by exact Hms.
  destruct (logAudit_Ok denier "deny_access_request"
              (req_resourceType r) (req_resourceId r) true None None p2 Hms2)
    as (e & p3 & E3 & St & _).
  rewrite (bind_Ok _ _ _ E3).
  exists p3. split; [reflexivity|].
  pose proof (audit_step_length St) as L.
  destruct St as [S1 S2 S3 S5]. subst p2. simpl in *.
  repeat split; auto; destruct S1; congruence.
Qed.

(** Among rules that are silent on the action, a condition-free rule with
    an entry for it decides. *)
Lemma first_decisive_rule_new `{Host} rules new perm user a rt rid p :
  (forall rule, In rule rules ->
     rule = new \/
     find (fun q => Action_eqb (action q) a) (permissions rule) = None) ->
  In new rules ->
  find (fun q => Action_eqb (action q) a) (permissions new) = Some perm ->
  conditions new = None ->
  first_decisive_rule rules user a rt rid p = (Ok (Some (granted perm)), p).
Proof.
  intros Hall Hin Hperm Hcond.
  induction rules as [|rule rest IH]; [destruct Hin|]. simpl.
  destruct (Hall rule (or_introl eq_refl)) as [->|Hnone].
  - rewrite Hperm, Hcond. reflexivity.
  - rewrite Hnone. apply IH.
    + intros rule' Hin'. apply Hall. now right.
    + destruct Hin as [->|Hin]; [congruence|exact Hin].
Qed.

Lemma rule_for_request_applies r ruleId approver now :
  rule_applies (requesterId r) (req_resourceType r)
               (Some (req_resourceId r))
               (rule_for_request r ruleId approver now) = true.
Proof.
  unfold rule_applies, rule_for_request, opt_eqb. simpl.
  rewrite !String.eqb_refl. simpl. apply Bool.orb_true_r.
Qed.

(** Without an applicable rule, the answer depends on the team store only. *)
Lemma checkPermission_without_rules `{Host} user a rt rid p q :
  same_store (teamMemoryEngine p) (teamMemoryEngine q) ->
  filter (rule_applies user rt rid) (map_values (permissionRules p)) = [] ->
  permissionRules q = permissionRules p ->
  forall ms, members_of (teamMemoryEngine p) = Ok ms ->
  fst (checkPermission user a rt rid q) = fst (checkPermission user a rt rid p).
Proof.
  intros Hst Hnone Hrules ms Hms.
  destruct (members_of_Ok_open _ Hms) as [d Hd].
  destruct (memories_of_open _ Hd) as [mems Hmem].
  assert (Hmsq : members_of (teamMemoryEngine q) = Ok ms)
    by (now rewrite (members_of_same_store Hst)).
  assert (Hmemq : memories_of (teamMemoryEngine q) = Ok mems)
    by (now rewrite (memories_of_same_store Hst)).
  assert (Hnoneq : filter (rule_applies user rt rid)
                          (map_values (permissionRules q)) = [])
    by (now rewrite Hrules).
  destruct (find_member user ms) as [u|] eqn:Hf.
  - destruct (checkPermission_member user a rt rid p Hms Hf Hmem
                (checkExplicitPermissions_none _ _ _ _ _ Hnone))
      as (e & p' & -> & _).
    destruct (checkPermission_member user a rt rid q Hmsq Hf Hmemq
                (checkExplicitPermissions_none _ _ _ _ _ Hnoneq))
      as (e' & q' & -> & _).
    reflexivity.
  - destruct (checkPermission_unknown_user user a rt rid p Hms Hf)
      as (e & p' & -> & _).
    destruct (checkPermission_unknown_user user a rt rid q Hmsq Hf)
      as (e' & q' & -> & _).
    reflexivity.
Qed.

(** ** Claim about the access-request lifecycle *)

(** C5, as amended.  For a request [r] stored under [id] in an engine whose
    team store can be read:
    - when [r] is not [pending], approving and denying both return [false]
      and change nothing;
    - when [r] is [pending], approving returns [true] and leaves [r]
      [approved], denying returns [true] and leaves [r] [denied], and after
      either one both calls return [false] (the transitions are terminal);
    - approval adds an active, condition-free rule for the requester on the
      requested resource carrying the requested permissions; for a requester
      who is a team member, [checkPermission] on that resource then returns
      the [granted] flag of the request's first entry for the action,
      provided no applicable rule that existed before has an entry for the
      action (an earlier rule would be consulted first);
    - denial creates no rule, and where no explicit rule applies to the
      requester on the resource, [checkPermission] answers after the denial
      what it answered before it (the role and visibility default). *)
Theorem access_request_lifecycle `{Host}
  p ms id r approver approverName denier reason :
  members_of (teamMemoryEngine p) = Ok ms ->
  map_get id (accessRequests p) = Some r ->
  (status r <> pending ->
     approveAccessRequest id approver approverName p = (Ok false, p) /\
     denyAccessRequest id denier reason p = (Ok false, p)) /\
  (status r = pending ->
     exists pa pd,
       approveAccessRequest id approver approverName p = (Ok true, pa) /\
       denyAccessRequest id denier reason p = (Ok true, pd) /\
       (exists ra, map_get id (accessRequests pa) = Some ra /\
                   status ra = approved) /\
       (exists rd, map_get id (accessRequests pd) = Some rd /\
                   status rd = denied) /\
       approveAccessRequest id approver approverName pa = (Ok false, pa) /\
       denyAccessRequest id denier reason pa = (Ok false, pa) /\
       approveAccessRequest id approver approverName pd = (Ok false, pd) /\
       denyAccessRequest id denier reason pd = (Ok false, pd) /\
       (exists rule,
          In rule (map_values (permissionRules pa)) /\
          isActive rule = true /\ conditions rule = None /\
          subjectType rule = "user" /\ subjectId rule = requesterId r /\
          resourceType rule = req_resourceType r /\
          resourceId rule = Some (req_resourceId r) /\
          permissions rule = requestedPermissions r) /\
       (forall a perm u,
          find_member (requesterId r) ms = Some u ->
          find (fun q => Action_eqb (action q) a) (requestedPermissions r) =
            Some perm ->
          (forall rule,
             In rule (map_values (permissionRules p)) ->
             rule_applies (requesterId r) (req_resourceType r)
                          (Some (req_resourceId r)) rule = true ->
             find (fun q => Action_eqb (action q) a) (permissions rule) =
               None) ->
          fst (checkPermission (requesterId r) a (req_resourceType r)
                 (Some (req_resourceId r)) pa) = Ok (granted perm)) /\
       permissionRules pd = permissionRules p /\
       (forall a,
          filter (rule_applies (requesterId r) (req_resourceType r)
                               (Some (req_resourceId r)))
                 (map_values (permissionRules p)) = [] ->
          fst (checkPermission (requesterId r) a (req_resourceType r)
                 (Some (req_resourceId r)) pd) =
          fst (checkPermission (requesterId r) a (req_resourceType r)
                 (Some (req_resourceId r)) p))).
Proof.
  intros Hms Hg. split.
  - intros Hs. split.
    + now apply approveAccessRequest_not_pending with (r := r).
    + now apply denyAccessRequest_not_pending with (r := r).
  - intros Hs.
    destruct (approveAccessRequest_pending id approver approverName p
                Hms Hg Hs)
      as (now & ruleId & now' & pa & Ea & Ra & Pa & Sa & _).
    destruct (denyAccessRequest_pending id denier reason p Hms Hg Hs)
      as (pd & Ed & Rd & Pd & Sd & _).
    exists pa, pd.
    assert (Ga : map_get id (accessRequests pa) =
                 Some (approve_request r now approver))
      by (rewrite Ra; apply map_get_map_set).
    assert (Gd : map_get id (accessRequests pd) =
                 Some (deny_request r reason))
      by (rewrite Rd; apply map_get_map_set).
    split; [exact Ea|]. split; [exact Ed|].
    split; [eexists; split; [exact Ga|reflexivity]|].
    split; [eexists; split; [exact Gd|reflexivity]|].
    split; [now apply approveAccessRequest_not_pending
                  with (r := approve_request r now approver)|].
    split; [now apply denyAccessRequest_not_pending
                  with (r := approve_request r now approver)|].
    split; [now apply approveAccessRequest_not_pending
                  with (r := deny_request r reason)|].
    split; [now apply denyAccessRequest_not_pending
                  with (r := deny_request r reason)|].
    split.
    { exists (rule_for_request r ruleId approver now').
      split; [rewrite Pa; apply In_map_set_new|].
      repeat split; reflexivity. }
    split.
    { intros a perm u Hu Hperm Hsilent.
      assert (Hmsa : members_of (teamMemoryEngine pa) = Ok ms)
        by (now rewrite (members_of_same_store Sa)).
      destruct (members_of_Ok_open _ Hmsa) as [d Hd].
      destruct (memories_of_open _ Hd) as [mems Hmem].
      assert (Hex : checkExplicitPermissions (requesterId r) a
                      (req_resourceType r) (Some (req_resourceId r)) pa =
                    (Ok (Some (granted perm)), pa)).
      { unfold checkExplicitPermissions.
        rewrite (bind_Ok _ _ _ (get_state_eq pa)).
        apply first_decisive_rule_new
          with (new := rule_for_request r ruleId approver now').
        - intros rule Hin. apply filter_In in Hin. destruct Hin as [Hin Happ].
          rewrite Pa in Hin. apply In_map_set_inv in Hin.
          destruct Hin as [->|Hin]; [now left|right; now apply Hsilent].
        - apply filter_In. split.
          + rewrite Pa. apply In_map_set_new.
          + apply rule_for_request_applies.
        - exact Hperm.
        - reflexivity. }
      destruct (checkPermission_member _ a _ _ pa Hmsa Hu Hmem Hex)
        as (e & p' & -> & _).
      reflexivity. }
    split; [exact Pd|].
    intros a Hnone.
    now apply checkPermission_without_rules with (ms := ms).
Qed.

(** Olga (observer) and Dave (developer) each ask for [write] on the memory
    [id-3]; the request is stored under [id-6]. *)
Definition write_request (requester : string) : NewAccessRequest :=
  {| na_requesterId := requester; na_resourceType := "memory";
     na_resourceId := "id-3";
     na_requestedPermissions := [ {| action := act_write; granted := true |} ];
     na_expiresAt := None |}.

Definition olga_has_asked : MemoryPermissionsEngine :=
  snd (createAccessRequest (write_request "id-2") example_engine).

Definition dave_has_asked : MemoryPermissionsEngine :=
  snd (createAccessRequest (write_request "id-1") example_engine).

Lemma access_request_lifecycle_witness :
  exists pa pd,
    approveAccessRequest "id-6" "id-0" "Alice" olga_has_asked = (Ok true, pa) /\
    denyAccessRequest "id-6" "id-0" "not now" olga_has_asked = (Ok true, pd) /\
    approveAccessRequest "id-6" "id-0" "Alice" pa = (Ok false, pa) /\
    denyAccessRequest "id-6" "id-0" "not now" pd = (Ok false, pd) /\
    fst (checkPermission "id-2" act_write "memory" (Some "id-3") pa) =
      Ok true /\
    fst (checkPermission "id-2" act_write "memory" (Some "id-3") pd) =
      Ok false.
Proof.
  assert (Hms : exists ms,
             members_of (teamMemoryEngine olga_has_asked) = Ok ms /\
             exists u, find_member "id-2" ms = Some u).
  { eexists. split; [vm_compute; reflexivity|].
    eexists. vm_compute. reflexivity. }
  destruct Hms as (ms & Hms & u & Hu).
  assert (Hr : exists r,
             map_get "id-6" (accessRequests olga_has_asked) = Some r /\
             status r = pending /\ requesterId r = "id-2" /\
             req_resourceType r = "memory" /\ req_resourceId r = "id-3" /\
             requestedPermissions r =
               [ {| action := act_write; granted := true |} ]).
  { eexists. split; [vm_compute; reflexivity|]. repeat split. }
  destruct Hr as (r & Hr & Hs & Hq & Ht & Hi & Hp).
  destruct (@access_request_lifecycle example_host olga_has_asked ms "id-6" r
              "id-0" "Alice" "id-0" "not now" Hms Hr) as [_ L].
  destruct (L Hs) as (pa & pd & Ea & Ed & _ & _ & Ea' & _ & _ & Ed' & _ &
                      Hgrant & _ & Hsame).
  assert (Hrules : permissionRules olga_has_asked = [])
    by (vm_compute; reflexivity).
  exists pa, pd. rewrite Hq, Ht, Hi, Hp, Hrules in *.
  repeat split; try assumption.
  - apply (Hgrant act_write {| action := act_write; granted := true |} u Hu).
    + reflexivity.
    + intros rule Hin. destruct Hin.
  - rewrite (Hsame act_write); [|reflexivity].
    vm_compute. reflexivity.
Defined.

(** C5, as stated, fails on its last part: Dave, a developer, asked for
    [write] on the [team_only] memory [id-3]; the request is denied, and the
    same check still returns [true], by his role. *)
Lemma denied_request_does_not_imply_refusal :
  exists r pd,
    map_get "id-6" (accessRequests dave_has_asked) = Some r /\
    requesterId r = "id-1" /\ req_resourceType r = "memory" /\
    req_resourceId r = "id-3" /\
    requestedPermissions r = [ {| action := act_write; granted := true |} ] /\
    denyAccessRequest "id-6" "id-0" "not now" dave_has_asked = (Ok true, pd) /\
    fst (checkPermission "id-1" act_write "memory" (Some "id-3") pd) =
      Ok true.
Proof.
  do 2 eexists.
  split; [vm_compute; reflexivity|].
  split; [reflexivity|]. split; [reflexivity|]. split; [reflexivity|].
  split; [reflexivity|].
  split; [vm_compute; reflexivity|].
  vm_compute. reflexivity.
Qed.

(** ** The project store *)

(** The engine after one more statement that left the database as [d]. *)
Definition after_statement (e : MemoryEngine) (d : Database) : MemoryEngine :=
  {| projectPath := projectPath e; db := Some d;
     uuid_calls := uuid_calls e; sql_calls := S (sql_calls e) |}.

(** The engine after one more identifier was drawn. *)
Definition after_uuid (e : MemoryEngine) : MemoryEngine :=
  {| projectPath := projectPath e; db := db e;
     uuid_calls := S (uuid_calls e); sql_calls := sql_calls e |}.

(** The value of [generateProjectId()]. *)
Definition project_id_of `{Host} (e : MemoryEngine) : string :=
  substring 0 16 (md5_hex (projectPath e)).

Lemma runQuery_Ok `{Host} stmt e d d' :
  db e = Some d -> stmt (wall_clock (sql_calls e)) d = Ok d' ->
  runQuery stmt e = (Ok tt, after_statement e d').
Proof. intros Hd Hs. unfold runQuery. now rewrite Hd, Hs. Qed.

Lemma runQuery_Throw `{Host} stmt e d msg :
  db e = Some d -> stmt (wall_clock (sql_calls e)) d = Throw msg ->
  runQuery stmt e = (Throw msg, after_statement e d).
Proof. intros Hd Hs. unfold runQuery. now rewrite Hd, Hs. Qed.

Lemma allQuery_Ok {R} (q : Database -> list R) e d :
  db e = Some d -> allQuery q e = (Ok (q d), e).
Proof. intros Hd. unfold allQuery. now rewrite Hd. Qed.

Lemma uuidv4_eq `{Host} e :
  uuidv4 e = (Ok (uuid_v4 (uuid_calls e)), after_uuid e).
Proof. reflexivity. Qed.

Lemma generateProjectId_eq `{Host} e :
  generateProjectId e = (Ok (project_id_of e), e).
Proof. reflexivity. Qed.

(** [Promise.all] over reads that all resolve. *)
Lemma map_M_pure {S A B} (f : A -> Promise S B) (g : A -> B) (l : list A) s :
  (forall a, f a s = (Ok (g a), s)) -> map_M f l s = (Ok (map g l), s).
Proof.
  intros Hf. induction l as [|x t IH]; simpl; [reflexivity|].
  rewrite (bind_Ok _ _ _ (Hf x)), (bind_Ok _ _ _ IH). reflexivity.
Qed.

(** ** Claim about [clearAllMemory] *)

(** C6, at the failing input.  On every initialized store, the empty one
    included, [clearAllMemory] rejects: its first statement is
    [DELETE FROM messages WHERE project_id = ?] and [messages] has no such
    column.  Nothing is deleted. *)
Theorem clearAllMemory_rejects `{Host} e d :
  db e = Some d ->
  fst (clearAllMemory e) = Throw "SQLITE_ERROR: no such column: project_id" /\
  db (snd (clearAllMemory e)) = Some d.
Proof.
  intros Hd. unfold clearAllMemory.
  rewrite (bind_Ok _ _ _ (generateProjectId_eq e)). simpl for_each.
  rewrite (bind_Throw _ _ _
             (runQuery_Throw (DELETE_where_project_id T_messages _) e Hd
                             eq_refl)).
  split; reflexivity.
Qed.

Lemma clearAllMemory_rejects_witness :
  fst (clearAllMemory (snd (initialize None (unopened_engine "/work/app")))) =
    Throw "SQLITE_ERROR: no such column: project_id" /\
  exists d,
    db (snd (clearAllMemory
               (snd (initialize None (unopened_engine "/work/app"))))) =
      Some d /\
    conversations d = [] /\ messages d = [].
Proof.
  destruct (@clearAllMemory_rejects example_host
              (snd (initialize None (unopened_engine "/work/app")))
              (with_projects empty_database
                 [ {| p_id := "/work/app"; p_name := "app";
                      p_root_path := "/work/app"; p_created_at := 1000;
                      p_last_active := 1000 |} ]))
    as [E1 E2].
  - vm_compute. reflexivity.
  - split; [exact E1|]. eexists. split; [exact E2|]. split; reflexivity.
Defined.

(** ** Claim about [recordArchitecturalDecision] and [trackFileChange] *)

(** Two databases that agree on every table but [projects],
    [architectural_decisions] and [file_changes]. *)
Definition same_other_tables (d d' : Database) : Prop :=
  conversations d' = conversations d /\ messages d' = messages d /\
  code_patterns d' = code_patterns d /\
  user_preferences d' = user_preferences d /\
  team_members d' = team_members d /\ team_memories d' = team_memories d /\
  team_memory_votes d' = team_memory_votes d /\
  team_memory_comments d' = team_memory_comments d /\
  team_memory_usage d' = team_memory_usage d.

(** C8, as amended.  On an initialized store and with a fresh identifier,
    [recordArchitecturalDecision] appends exactly one decision row and sets
    [last_active] of the project's row to the time of the update, leaving
    the other columns of [projects] and every other table as they were;
    [trackFileChange] appends exactly one file-change row and leaves every
    other table, the [projects] row and its [last_active] included, as it
    was. *)
Theorem decision_and_file_change_inserts `{Host} e d dec path kind conv :
  db e = Some d ->
  has_key d_id (uuid_v4 (uuid_calls e)) (architectural_decisions d) = false ->
  has_key f_id (uuid_v4 (uuid_calls e)) (file_changes d) = false ->
  (exists e1 d1,
     recordArchitecturalDecision dec e = (Ok tt, e1) /\ db e1 = Some d1 /\
     architectural_decisions d1 =
       architectural_decisions d ++
       [ {| d_id := uuid_v4 (uuid_calls e);
            d_project_id := project_id_of e;
            d_decision := in_decision dec; d_rationale := in_rationale dec;
            d_alternatives := in_alternatives dec;
            d_impact := in_impact dec;
            d_files_affected := in_filesAffected dec;
            d_timestamp := wall_clock (sql_calls e) |} ] /\
     projects d1 =
       map (set_last_active (project_id_of e)
                            (wall_clock (S (sql_calls e))))
           (projects d) /\
     file_changes d1 = file_changes d /\
     same_other_tables d d1) /\
  (exists e2 d2,
     trackFileChange path kind conv e = (Ok tt, e2) /\ db e2 = Some d2 /\
     file_changes d2 =
       file_changes d ++
       [ {| f_id := uuid_v4 (uuid_calls e);
            f_project_id := project_id_of e;
            f_file_path := path; f_change_type := kind;
            f_timestamp := wall_clock (sql_calls e);
            f_conversation_id := conv |} ] /\
     projects d2 = projects d /\
     architectural_decisions d2 = architectural_decisions d /\
     same_other_tables d d2).
Proof.
  intros Hd Hfd Hff.
  assert (Hd1 : db (after_uuid e) = Some d) by exact Hd.
  split.
  - unfold recordArchitecturalDecision, updateProjectActivity.
    rewrite (bind_Ok _ _ _ (generateProjectId_eq e)).
    rewrite (bind_Ok _ _ _ (uuidv4_eq e)).
    match goal with
    | |- context [runQuery ?stmt] =>
        assert (Hins : exists d', stmt (wall_clock (sql_calls (after_uuid e)))
                                       d = Ok d' /\
                  d' = with_architectural_decisions d
                         (architectural_decisions d ++
                          [ {| d_id := uuid_v4 (uuid_calls e);
                               d_project_id := project_id_of e;
                               d_decision := in_decision dec;
                               d_rationale := in_rationale dec;
                               d_alternatives := in_alternatives dec;
                               d_impact := in_impact dec;
                               d_files_affected := in_filesAffected dec;
                               d_timestamp := wall_clock (sql_calls e) |} ]))
          by (unfold INSERT_decision; rewrite Hfd; eexists; split; reflexivity)
    end.
    destruct Hins as (d' & Hins & ->).
    rewrite (bind_Ok _ _ _ (runQuery_Ok _ _ Hd1 Hins)).
    rewrite (bind_Ok _ _ _ (generateProjectId_eq _)).
    erewrite runQuery_Ok; [|reflexivity|reflexivity].
    do 2 eexists. split; [reflexivity|]. split; [reflexivity|].
    unfold same_other_tables. simpl. repeat split; reflexivity.
  - unfold trackFileChange.
    rewrite (bind_Ok _ _ _ (generateProjectId_eq e)).
    rewrite (bind_Ok _ _ _ (uuidv4_eq e)).
    match goal with
    | |- context [runQuery ?stmt] =>
        assert (Hins : exists d', stmt (wall_clock (sql_calls (after_uuid e)))
                                       d = Ok d' /\
                  d' = with_file_changes d
                         (file_changes d ++
                          [ {| f_id := uuid_v4 (uuid_calls e);
                               f_project_id := project_id_of e;
                               f_file_path := path; f_change_type := kind;
                               f_timestamp := wall_clock (sql_calls e);
                               f_conversation_id := conv |} ]))
          by (unfold INSERT_file_change; rewrite Hff; eexists; split;
              reflexivity)
    end.
    destruct Hins as (d' & Hins & ->).
    rewrite (runQuery_Ok _ _ Hd1 Hins).
    do 2 eexists. split; [reflexivity|]. split; [reflexivity|].
    unfold same_other_tables. simpl. repeat split; reflexivity.
Qed.

(** The store right after [initialize] on a new project: one project row,
    created and last active at second 1000. *)
Definition initialized_engine : MemoryEngine :=
  snd (initialize None (unopened_engine "/work/app")).

Definition initialized_database : Database :=
  with_projects empty_database
    [ {| p_id := "/work/app"; p_name := "app"; p_root_path := "/work/app";
         p_created_at := 1000; p_last_active := 1000 |} ].

Lemma initialized_engine_db : db initialized_engine = Some initialized_database.
Proof. vm_compute. reflexivity. Qed.

Definition example_decision : DecisionInput :=
  {| in_decision := "Use SQLite for project memory";
     in_rationale := "Embedded, one file per project";
     in_alternatives := ["JSON files"]; in_impact := ["storage layer"];
     in_filesAffected := ["src/services/memoryEngine.ts"] |}.

Lemma decision_and_file_change_witness :
  (exists e1 d1,
     recordArchitecturalDecision example_decision initialized_engine =
       (Ok tt, e1) /\ db e1 = Some d1 /\
     map d_decision (architectural_decisions d1) =
       ["Use SQLite for project memory"] /\
     map p_last_active (projects d1) = [1002]) /\
  (exists e2 d2,
     trackFileChange "src/a.ts" modified None initialized_engine =
       (Ok tt, e2) /\ db e2 = Some d2 /\
     map f_file_path (file_changes d2) = ["src/a.ts"] /\
     map p_last_active (projects d2) = [1000]).
Proof.
  destruct (@decision_and_file_change_inserts example_host initialized_engine
              initialized_database example_decision "src/a.ts" modified None
              initialized_engine_db eq_refl eq_refl)
    as [(e1 & d1 & E1 & D1 & A1 & P1 & _) (e2 & d2 & E2 & D2 & F2 & P2 & _)].
  split.
  - exists e1, d1. rewrite A1, P1. repeat split; assumption.
  - exists e2, d2. rewrite F2, P2. repeat split; assumption.
Defined.

(** C8, as stated, fails for [trackFileChange]: the file change is written
    at second 1001 and the project row keeps [last_active] 1000. *)
Lemma trackFileChange_does_not_touch_last_active :
  exists e2 d2,
    db initialized_engine = Some initialized_database /\
    trackFileChange "src/a.ts" modified None initialized_engine =
      (Ok tt, e2) /\
    db e2 = Some d2 /\
    map f_timestamp (file_changes d2) = [1001] /\
    projects d2 = projects initialized_database /\
    map p_last_active (projects d2) = [1000].
Proof.
  do 2 eexists. split; [exact initialized_engine_db|].
  split; [vm_compute; reflexivity|].
  split; [reflexivity|].
  split; [vm_compute; reflexivity|].
  split; vm_compute; reflexivity.
Qed.

(** ** Claim about the success score *)

(** Once a vote was cast, the stored score is the fraction of upvotes among
    the votes of the memory. *)
Lemma success_score_of_votes (upvotes downvotes : nat) :
  0 < upvotes + downvotes ->
  (success_score_of upvotes downvotes ==
   inject_Z (Z.of_nat upvotes) / inject_Z (Z.of_nat (upvotes + downvotes)))%Q.
Proof.
  intros Hpos. unfold success_score_of.
  destruct (0 <? upvotes + downvotes) eqn:E;
    [|apply Nat.ltb_ge in E; lia].
  rewrite (Qmake_Qdiv (Z.of_nat upvotes) (Pos.of_nat (upvotes + downvotes))).
  replace (Z.pos (Pos.of_nat (upvotes + downvotes)))
    with (Z.of_nat (upvotes + downvotes)); [reflexivity|].
  lia.
Qed.

(** After the example setup a fourth member joins ([id-6]); three members
    upvote the memory [id-3] and one downvotes it. *)
Definition voting_setup : M unit :=
  example_setup ;;;
  addTeamMember "team-1"
    {| new_email := "erin@example.org"; new_name := "Erin";
       new_role := developer; new_permissions := "[]" |} ;;;
  voteOnMemory "id-3" "id-0" upvote ;;;
  voteOnMemory "id-3" "id-1" upvote ;;;
  voteOnMemory "id-3" "id-2" downvote ;;;
  voteOnMemory "id-3" "id-6" upvote.

Definition voted_team : TeamMemoryEngine :=
  {| teamId := "team-1";
     engine := snd (voting_setup (unopened_engine "/work/app")) |}.

Lemma three_upvotes_one_downvote :
  exists mems m,
    memories_of voted_team = Ok mems /\ find_memory "id-3" mems = Some m /\
    map vote (votes m) = [upvote; upvote; downvote; upvote] /\
    (successScore m == 3 # 4)%Q.
Proof.
  do 2 eexists. split; [vm_compute; reflexivity|].
  split; [vm_compute; reflexivity|].
  split; [reflexivity|]. vm_compute. reflexivity.
Qed.

(** C3, at the failing input.  A memory on which no vote was cast reads
    back with the success score 0, the default of the [success_score]
    column, not with 0.5: [createTeamMemory] does not set the column, and
    the score is recomputed only by [voteOnMemory]. *)
Theorem unvoted_memory_reads_back_zero :
  exists mems m,
    memories_of example_team = Ok mems /\ find_memory "id-3" mems = Some m /\
    votes m = [] /\ successScore m = 0%Q /\
    ~ (successScore m == 1 # 2)%Q.
Proof.
  do 2 eexists. split; [vm_compute; reflexivity|].
  split; [vm_compute; reflexivity|].
  split; [reflexivity|]. split; [reflexivity|].
  simpl. intros E. discriminate E.
Qed.

(** ** Claim about [recall] *)

Lemma includes_In (l : list string) (x : string) :
  includes l x = true <-> In x l.
Proof.
  unfold includes. rewrite existsb_exists. split.
  - intros (y & Hin & E). apply String.eqb_eq in E. now subst.
  - intros Hin. exists x. split; [exact Hin|apply String.eqb_refl].
Qed.

Lemma dedup_from_keys {A} (key : A -> string) (l : list A) :
  forall seen,
    NoDup (map key (dedup_from key seen l)) /\
    forall x, In x (dedup_from key seen l) -> ~ In (key x) seen.
Proof.
  induction l as [|a t IH]; intros seen; simpl.
  - split; [constructor|intros x []].
  - destruct (includes seen (key a)) eqn:E; [apply IH|].
    destruct (IH (key a :: seen)) as [Hnd Hout]. split.
    + simpl. constructor; [|exact Hnd].
      intros Hin. apply in_map_iff in Hin. destruct Hin as (x & Hk & Hx).
      apply (Hout x Hx). left. now symmetry.
    + intros x [<-|Hx].
      * intros Hin. apply includes_In in Hin. congruence.
      * intros Hin. apply (Hout x Hx). now right.
Qed.

Lemma dedup_from_In {A} (key : A -> string) (l : list A) :
  forall seen x, In x (dedup_from key seen l) -> In x l.
Proof.
  induction l as [|a t IH]; intros seen x; simpl; [tauto|].
  destruct (includes seen (key a)).
  - intros Hx. right. eapply IH, Hx.
  - intros [<-|Hx]; [now left|right; eapply IH, Hx].
Qed.


Lemma In_firstn {A} (n : nat) (l : list A) (x : A) :
  In x (firstn n l) -> In x l.
Proof.
  revert n. induction l as [|a t IH]; intros [|n]; simpl; try tauto.
  intros [<-|Hin]; [now left|right; eapply IH, Hin].
Qed.

Lemma NoDup_firstn {A} (n : nat) (l : list A) :
  NoDup l -> NoDup (firstn n l).
Proof.
  intros Hnd. revert n. induction Hnd as [|x l Hx Hnd IH]; intros [|n]; simpl;
    try constructor; auto.
  intros Hin. apply Hx. eapply In_firstn, Hin.
Qed.




(** One conversation of sixteen short turns, none of which mentions
    authentication or a bug. *)
Definition turn_message (i : nat) : Message :=
  {| msg_id := ("m" ++ decimal i)%string;
     msg_role := if Nat.even i then role_user else role_assistant;
     msg_content := ("turn " ++ decimal i)%string;
     msg_timestamp := 0; msg_metadata := None |}.




(** ** Claim about [recordConversation] and [getProjectMemory] *)

(** The rows the message loop writes, the first one at statement [tick]. *)
Fixpoint message_rows `{Host} (cid : string) (tick : nat)
  (msgs : list Message) : list MessageRow :=
  match msgs with
  | [] => []
  | m :: t =>
      {| m_id := msg_id m; m_conversation_id := cid; m_role := msg_role m;
         m_content := msg_content m; m_timestamp := wall_clock tick;
         m_metadata := stringify_or_empty_object (msg_metadata m) |}
      :: message_rows cid (S tick) t
  end.

Lemma has_key_app {R} (key : R -> string) k (l l' : list R) :
  has_key key k (l ++ l') = has_key key k l || has_key key k l'.
Proof. unfold has_key. apply existsb_app. Qed.

Lemma with_messages_twice d l l' :
  with_messages (with_messages d l) l' = with_messages d l'.
Proof. reflexivity. Qed.

Lemma insert_messages_Ok `{Host} cid msgs :
  forall e d,
    db e = Some d ->
    (forall m, In m msgs -> truthy (msg_id m) = true) ->
    NoDup (map msg_id msgs) ->
    (forall m, In m msgs -> has_key m_id (msg_id m) (messages d) = false) ->
    for_each msgs (fun message =>
      id <- (if truthy (msg_id message) then ret (msg_id message)
             else uuidv4) ;;
      runQuery (INSERT_message id cid (msg_role message)
                  (msg_content message)
                  (stringify_or_empty_object (msg_metadata message)))) e =
    (Ok tt,
     {| projectPath := projectPath e;
        db := Some (with_messages d
                      (messages d ++ message_rows cid (sql_calls e) msgs));
        uuid_calls := uuid_calls e;
        sql_calls := sql_calls e + List.length msgs |}).
Proof.
  induction msgs as [|m t IH]; intros e d Hd Hids Hnd Hfresh.
  - simpl. unfold ret. f_equal. destruct e as [pp dbe uc sc], d. simpl in *.
    subst dbe. rewrite app_nil_r, Nat.add_0_r. reflexivity.
  - simpl for_each. simpl message_rows.
    rewrite (Hids m (or_introl eq_refl)).
    set (row := {| m_id := msg_id m; m_conversation_id := cid;
                   m_role := msg_role m; m_content := msg_content m;
                   m_timestamp := wall_clock (sql_calls e);
                   m_metadata :=
                     stringify_or_empty_object (msg_metadata m) |}).
    assert (Hins : INSERT_message (msg_id m) cid (msg_role m) (msg_content m)
                     (stringify_or_empty_object (msg_metadata m))
                     (wall_clock (sql_calls e)) d =
                   Ok (with_messages d (messages d ++ [row]))).
    { unfold INSERT_message. now rewrite (Hfresh m (or_introl eq_refl)). }
    unfold bind at 1.
    unfold bind at 1. unfold ret at 1.
    rewrite (runQuery_Ok _ _ Hd Hins).
    inversion Hnd as [|x l Hnotin Hnd' Heq]; subst.
    rewrite (IH (after_statement e (with_messages d (messages d ++ [row])))
                (with_messages d (messages d ++ [row])) eq_refl).
    + simpl. rewrite <- app_assoc. simpl.
      do 3 f_equal. lia.
    + intros m' Hin. apply Hids. now right.
    + exact Hnd'.
    + intros m' Hin. simpl. rewrite has_key_app.
      rewrite (Hfresh m' (or_intror Hin)). simpl.
      rewrite Bool.orb_false_r.
      destruct (String.eqb (msg_id m) (msg_id m')) eqn:E; [|reflexivity].
      apply String.eqb_eq in E. exfalso. apply Hnotin. rewrite E.
      now apply in_map.
Qed.

Lemma recordConversation_Ok `{Host} assistant msgs context e d :
  db e = Some d ->
  has_key c_id (uuid_v4 (uuid_calls e)) (conversations d) = false ->
  (forall m, In m msgs -> truthy (msg_id m) = true) ->
  NoDup (map msg_id msgs) ->
  (forall m, In m msgs -> has_key m_id (msg_id m) (messages d) = false) ->
  exists e' d',
    recordConversation assistant msgs context e =
      (Ok (uuid_v4 (uuid_calls e)), e') /\
    db e' = Some d' /\ projectPath e' = projectPath e /\
    conversations d' =
      conversations d ++
      [ {| c_id := uuid_v4 (uuid_calls e); c_project_id := project_id_of e;
           c_ai_assistant := assistant;
           c_timestamp := wall_clock (sql_calls e);
           c_context := stringify_or_empty_object context |} ] /\
    messages d' =
      messages d ++
      message_rows (uuid_v4 (uuid_calls e)) (S (sql_calls e)) msgs /\
    projects d' =
      map (set_last_active (project_id_of e)
             (wall_clock (S (sql_calls e) + List.length msgs)))
          (projects d).
Proof.
  intros Hd Hc Hids Hnd Hfresh.
  set (cid := uuid_v4 (uuid_calls e)).
  unfold recordConversation.
  rewrite (bind_Ok _ _ _ (uuidv4_eq e)). fold cid.
  rewrite (bind_Ok _ _ _ (generateProjectId_eq _)).
  set (crow := {| c_id := cid; c_project_id := project_id_of e;
                  c_ai_assistant := assistant;
                  c_timestamp := wall_clock (sql_calls e);
                  c_context := stringify_or_empty_object context |}).
  assert (Hd1 : db (after_uuid e) = Some d) by exact Hd.
  assert (Hins : INSERT_conversation cid (project_id_of (after_uuid e))
                   assistant (stringify_or_empty_object context)
                   (wall_clock (sql_calls (after_uuid e))) d =
                 Ok (with_conversations d (conversations d ++ [crow]))).
  { unfold INSERT_conversation. fold cid in Hc. now rewrite Hc. }
  rewrite (bind_Ok _ _ _ (runQuery_Ok _ _ Hd1 Hins)).
  rewrite (bind_Ok _ _ _
             (insert_messages_Ok cid msgs
                (after_statement (after_uuid e)
                   (with_conversations d (conversations d ++ [crow])))
                eq_refl Hids Hnd Hfresh)).
  unfold updateProjectActivity.
  do 2 eexists. split; [reflexivity|]. simpl.
  repeat split; reflexivity.
Qed.

(** A conversation row as [getProjectMemory] returns it. *)
Definition conversation_view (d : Database) (conv : ConversationRow)
  : Conversation :=
  {| conv_id := c_id conv; conv_timestamp := c_timestamp conv;
     aiAssistant := c_ai_assistant conv; conv_context := c_context conv;
     conv_messages := map message_of_row (SELECT_messages_of (c_id conv) d);
     outcomes := [] |}.


Lemma filter_none {A} (f : A -> bool) (l : list A) :
  (forall x, In x l -> f x = false) -> filter f l = [].
Proof.
  induction l as [|a t IH]; intros Hf; simpl; [reflexivity|].
  rewrite (Hf a (or_introl eq_refl)). apply IH. intros x Hx. apply Hf.
  now right.
Qed.








Definition question : Message :=
  {| msg_id := "m1"; msg_role := role_user;
     msg_content := "How do we store memory?"; msg_timestamp := 42;
     msg_metadata := None |}.

Definition answer : Message :=
  {| msg_id := "m2"; msg_role := role_assistant;
     msg_content := "In one SQLite file per project."; msg_timestamp := 43;
     msg_metadata := Some "[1]" |}.



(** * Further methods of [MemoryPermissionsEngine] *)

(** ** JSON text of the values the engines build *)

Definition quote_char : ascii := ascii_of_nat 34.
Definition backslash_char : ascii := ascii_of_nat 92.

Definition hex_digit (n : nat) : ascii :=
  if n <? 10 then ascii_of_nat (48 + n) else ascii_of_nat (87 + n).

(** One character inside a JSON string, as [JSON.stringify] writes it. *)
Definition json_escape (c : ascii) : string :=
  let n := nat_of_ascii c in
  if n =? 34 then String backslash_char (String quote_char "")
  else if n =? 92 then String backslash_char (String backslash_char "")
  else if n =? 8 then String backslash_char "b"
  else if n =? 12 then String backslash_char "f"
  else if n =? 10 then String backslash_char "n"
  else if n =? 13 then String backslash_char "r"
  else if n =? 9 then String backslash_char "t"
  else if n <? 32
  then String backslash_char
         (String "u" (String "0" (String "0"
            (String (hex_digit (n / 16)) (String (hex_digit (n mod 16)) "")))))
  else String c "".

Fixpoint json_escape_all (s : string) : string :=
  match s with
  | EmptyString => EmptyString
  | String c t => (json_escape c ++ json_escape_all t)%string
  end.

(** [JSON.stringify(s)] for a string [s]. *)
Definition json_string (s : string) : json :=
  (String quote_char (json_escape_all s) ++ String quote_char "")%string.

Definition json_bool (b : bool) : json := if b then "true" else "false".

(** Comma-separated items. *)
Fixpoint json_items (items : list json) : json :=
  match items with
  | [] => ""
  | [x] => x
  | x :: t => (x ++ "," ++ json_items t)%string
  end.

Definition json_array (items : list json) : json :=
  ("[" ++ json_items items ++ "]")%string.

(** An object from its fields in order; a field whose value is [undefined]
    ([None]) is left out, as [JSON.stringify] does. *)
Definition json_object (fields : list (string * option json)) : json :=
  ("{" ++
   json_items
     (flat_map (fun kv => match snd kv with
                          | Some v => [(json_string (fst kv) ++ ":" ++ v)%string]
                          | None => []
                          end) fields) ++
   "}")%string.

(** ** Rule management *)

(** The [updates] argument of [updatePermissionRule]: the fields of a rule
    that are given. *)
Record RuleUpdates := {
  upd_id : option string;
  upd_resourceType : option string;
  upd_resourceId : option (option string);
  upd_subjectType : option string;
  upd_subjectId : option string;
  upd_permissions : option (list Permission);
  upd_createdBy : option string;
  upd_createdAt : option nat;
  upd_expiresAt : option (option nat);
  upd_conditions : option (option (list Condition));
  upd_isActive : option bool
}.

Definition given {A} (o : option A) (d : A) : A :=
  match o with Some a => a | None => d end.

(** [{ ...rule, ...updates }]. *)
Definition spread_updates (rule : PermissionRule) (u : RuleUpdates)
  : PermissionRule :=
  {| rule_id := given (upd_id u) (rule_id rule);
     resourceType := given (upd_resourceType u) (resourceType rule);
     resourceId := given (upd_resourceId u) (resourceId rule);
     subjectType := given (upd_subjectType u) (subjectType rule);
     subjectId := given (upd_subjectId u) (subjectId rule);
     permissions := given (upd_permissions u) (permissions rule);
     rule_createdBy := given (upd_createdBy u) (rule_createdBy rule);
     rule_createdAt := given (upd_createdAt u) (rule_createdAt rule);
     expiresAt := given (upd_expiresAt u) (expiresAt rule);
     conditions := given (upd_conditions u) (conditions rule);
     isActive := given (upd_isActive u) (isActive rule) |}.

Definition updatePermissionRule `{Host} (ruleId : string)
  (updates : RuleUpdates) (updatedBy : string) : P bool :=
  p <- get_state ;;
  match map_get ruleId (permissionRules p) with
  | None => ret false
  | Some rule =>
      set_permissionRules (map_set ruleId (spread_updates rule updates)) ;;;
      logAudit updatedBy "update_permission_rule" "permission_rule" ruleId
               true None None ;;;
      ret true
  end.

(** The optional argument of [getPermissionRules]. *)
Record RuleFilters := {
  rf_resourceType : option string;
  rf_resourceId : option string;
  rf_subjectId : option string;
  rf_isActive : option bool
}.

(** A filter on a string field is applied when the given value is truthy. *)
Definition keep_if_truthy {R} (wanted : option string) (field : R -> option string)
  (rows : list R) : list R :=
  if truthy_opt wanted then filter (fun r => opt_eqb (field r) wanted) rows
  else rows.

Definition getPermissionRules (filters : option RuleFilters)
  : P (list PermissionRule) :=
  p <- get_state ;;
  let rules := map_values (permissionRules p) in
  ret (match filters with
       | None => rules
       | Some f =>
           let rules := keep_if_truthy (rf_resourceType f)
                          (fun r => Some (resourceType r)) rules in
           let rules := keep_if_truthy (rf_resourceId f) resourceId rules in
           let rules := keep_if_truthy (rf_subjectId f)
                          (fun r => Some (subjectId r)) rules in
           match rf_isActive f with
           | Some b => filter (fun r => Bool.eqb (isActive r) b) rules
           | None => rules
           end
       end).

(** ** Sharing *)

Definition shareMemory `{Host} (memoryId sharedBy : string)
  (sharedWith : list string) (perms : list Permission)
  (message : option string) : P bool :=
  hasPermission <- checkPermission sharedBy act_share "memory"
                     (Some memoryId) ;;
  if negb hasPermission then ret false
  else
    for_each sharedWith (fun user =>
      createPermissionRule
        {| nr_resourceType := "memory"; nr_resourceId := Some memoryId;
           nr_subjectType := "user"; nr_subjectId := user;
           nr_permissions := perms; nr_createdBy := sharedBy;
           nr_expiresAt := None; nr_conditions := None;
           nr_isActive := true |} ;;;
      ret tt) ;;;
    logAudit sharedBy "share_memory" "memory" memoryId true None
      (Some (json_object
               [("sharedWith", Some (json_array (map json_string sharedWith)));
                ("message", option_map json_string message)])) ;;;
    ret true.

Definition revokeMemoryAccess `{Host} (memoryId revokedBy revokedFrom : string)
  : P bool :=
  hasPermission <- checkPermission revokedBy act_admin "memory"
                     (Some memoryId) ;;
  if negb hasPermission then ret false
  else
    rules <- getPermissionRules
               (Some {| rf_resourceType := Some "memory";
                        rf_resourceId := Some memoryId;
                        rf_subjectId := Some revokedFrom;
                        rf_isActive := Some true |}) ;;
    for_each rules (fun rule =>
      deletePermissionRule (rule_id rule) revokedBy ;;; ret tt) ;;;
    logAudit revokedBy "revoke_memory_access" "memory" memoryId true None
      (Some (json_object [("revokedFrom", Some (json_string revokedFrom))])) ;;;
    ret true.

(** One element of the [updates] argument of [bulkUpdatePermissions]. *)
Record BulkUpdate := {
  bu_resourceType : string;
  bu_resourceId : option string;
  bu_userId : string;
  bu_permissions : list Permission
}.

Definition bulkUpdatePermissions `{Host} (updates : list BulkUpdate)
  (updatedBy : string) : P bool :=
  for_each updates (fun update =>
    createPermissionRule
      {| nr_resourceType := bu_resourceType update;
         nr_resourceId := bu_resourceId update;
         nr_subjectType := "user"; nr_subjectId := bu_userId update;
         nr_permissions := bu_permissions update; nr_createdBy := updatedBy;
         nr_expiresAt := None; nr_conditions := None;
         nr_isActive := true |} ;;;
    ret tt) ;;;
  logAudit updatedBy "bulk_update_permissions" "permission_rule" "bulk" true
    None
    (Some (json_object [("count", Some (decimal (List.length updates)))])) ;;;
  ret true.

(** ** Queries on requests and on the audit log *)

Definition RequestStatus_eqb (a b : RequestStatus) : bool :=
  match a, b with
  | pending, pending | approved, approved | denied, denied => true
  | _, _ => false
  end.

(** The optional argument of [getAccessRequests]. *)
Record RequestFilters := {
  qf_requesterId : option string;
  qf_status : option RequestStatus;
  qf_resourceType : option string
}.

Definition getAccessRequests (filters : option RequestFilters)
  : P (list AccessRequest) :=
  p <- get_state ;;
  let requests := map_values (accessRequests p) in
  let requests :=
    match filters with
    | None => requests
    | Some f =>
        let requests := keep_if_truthy (qf_requesterId f)
                          (fun r => Some (requesterId r)) requests in
        let requests :=
          match qf_status f with
          | Some s => filter (fun r => RequestStatus_eqb (status r) s) requests
          | None => requests
          end in
        keep_if_truthy (qf_resourceType f)
                       (fun r => Some (req_resourceType r)) requests
    end in
  ret (order_by_desc req_createdAt requests).

(** The optional argument of [getAuditLogs]. *)
Record AuditFilters := {
  af_userId : option string;
  af_action : option string;
  af_resourceType : option string;
  af_startDate : option nat;
  af_endDate : option nat;
  af_limit : option nat
}.

(** The filters of [getAuditLogs] before sorting and cutting. *)
Definition audit_matches (f : AuditFilters) (l : AuditLog) : bool :=
  (if truthy_opt (af_userId f)
   then opt_eqb (Some (userId l)) (af_userId f) else true) &&
  (if truthy_opt (af_action f)
   then opt_eqb (Some (audit_action l)) (af_action f) else true) &&
  (if truthy_opt (af_resourceType f)
   then opt_eqb (Some (audit_resourceType l)) (af_resourceType f)
   else true) &&
  match af_startDate f with
  | Some s => s <=? audit_timestamp l
  | None => true
  end &&
  match af_endDate f with
  | Some e => audit_timestamp l <=? e
  | None => true
  end.

Definition getAuditLogs (filters : option AuditFilters) : P (list AuditLog) :=
  p <- get_state ;;
  let logs := auditLogs p in
  let logs := match filters with
              | Some f =>
                  let logs := keep_if_truthy (af_userId f)
                                (fun l => Some (userId l)) logs in
                  let logs := keep_if_truthy (af_action f)
                                (fun l => Some (audit_action l)) logs in
                  let logs := keep_if_truthy (af_resourceType f)
                                (fun l => Some (audit_resourceType l)) logs in
                  let logs := match af_startDate f with
                              | Some s =>
                                  filter (fun l => s <=? audit_timestamp l) logs
                              | None => logs
                              end in
                  match af_endDate f with
                  | Some e => filter (fun l => audit_timestamp l <=? e) logs
                  | None => logs
                  end
              | None => logs
              end in
  let logs := order_by_desc audit_timestamp logs in
  ret (match filters with
       | Some f =>
           match af_limit f with
           | Some (S n) => firstn (S n) logs
           | _ => logs
           end
       | None => logs
       end).

(** * Further methods of [MemoryEngine] and [TeamMemoryEngine] *)

(** ** Searching and storing conversations *)

(** [SELECT DISTINCT c.* FROM conversations c JOIN messages m
    ON c.id = m.conversation_id WHERE c.project_id = ? AND
    (m.content LIKE ? OR c.summary LIKE ?) ORDER BY c.timestamp DESC].  No
    statement of the engine writes the column [summary]: it is [NULL], and
    [NULL LIKE ?] selects nothing. *)
Definition SELECT_conversations_like (pid query : string) (d : Database)
  : list ConversationRow :=
  order_by_desc c_timestamp
    (filter (fun c =>
               String.eqb (c_project_id c) pid &&
               existsb (fun m => String.eqb (c_id c) (m_conversation_id m) &&
                                 like_contains query (m_content m))
                       (messages d))
            (conversations d)).

Definition searchConversations `{Host} (query : string)
  : M (list Conversation) :=
  projectId <- generateProjectId ;;
  convs <- allQuery (SELECT_conversations_like projectId query) ;;
  map_M conversation_with_messages convs.

(** The argument of [storeConversation]. *)
Record ConversationInput := {
  ci_message : string;
  ci_response : string;
  ci_projectId : option string;
  ci_aiProvider : option string;
  ci_timestamp : nat
}.

(** [pid] is computed and not used: [recordConversation] takes the project
    id from the engine. *)
Definition storeConversation `{Host} (conversation : ConversationInput)
  : M unit :=
  own <- generateProjectId ;;
  let pid := or_else (ci_projectId conversation) own in
  id1 <- uuidv4 ;;
  id2 <- uuidv4 ;;
  let messages :=
    [ {| msg_id := id1; msg_role := role_user;
         msg_content := ci_message conversation;
         msg_timestamp := ci_timestamp conversation; msg_metadata := None |};
      {| msg_id := id2; msg_role := role_assistant;
         msg_content := ci_response conversation;
         msg_timestamp := ci_timestamp conversation;
         msg_metadata := None |} ] in
  recordConversation (or_else (ci_aiProvider conversation) "unknown")
                     messages None ;;;
  ret tt.

(** [SELECT c.*, m.content, m.role FROM conversations c LEFT JOIN messages m
    ON c.id = m.conversation_id WHERE c.project_id = ?
    ORDER BY c.timestamp DESC LIMIT ?]: one row per message, and one row
    without message for a conversation that has none. *)
Definition SELECT_conversations_with_messages (pid : string) (limit : nat)
  (d : Database) : list (ConversationRow * option MessageRow) :=
  firstn limit
    (order_by_desc (fun cm => c_timestamp (fst cm))
       (flat_map
          (fun c =>
             match filter (fun m => String.eqb (c_id c) (m_conversation_id m))
                          (messages d) with
             | [] => [(c, None)]
             | ms => map (fun m => (c, Some m)) ms
             end)
          (filter (fun c => String.eqb (c_project_id c) pid)
                  (conversations d)))).

(** The objects [getRecentConversations] returns. *)
Record RecentConversation := {
  rc_message : string; rc_aiProvider : string; rc_timestamp : nat
}.

Definition getRecentConversations `{Host} (limit : option nat)
  : M (list RecentConversation) :=
  projectId <- generateProjectId ;;
  rows <- allQuery (SELECT_conversations_with_messages projectId
                      (match limit with Some n => n | None => 10 end)) ;;
  ret (map (fun cm =>
              {| rc_message :=
                   or_else (option_map m_content (snd cm)) "No message";
                 rc_aiProvider :=
                   or_else (Some (c_ai_assistant (fst cm))) "unknown";
                 rc_timestamp := c_timestamp (fst cm) |}) rows).

(** ** Code patterns *)

(** [INSERT INTO code_patterns (id, project_id, pattern, context,
    frequency)]. *)
Definition INSERT_code_pattern (id project_id pattern_ : string)
  (context : json) (frequency_ : nat) (now : nat) (d : Database)
  : result Database :=
  if has_key cp_id id (code_patterns d)
  then constraint_failed "code_patterns.id"
  else Ok (with_code_patterns d
             (code_patterns d ++
              [ {| cp_id := id; cp_project_id := project_id;
                   cp_pattern := pattern_; cp_frequency := frequency_;
                   cp_context := context |} ])).

(** The argument of [storeCodePattern]. *)
Record PatternInput := {
  pi_pattern : string; pi_language : string; pi_context : string;
  pi_success : bool; pi_projectId : option string
}.

Definition storeCodePattern `{Host} (pattern_ : PatternInput) : M unit :=
  own <- generateProjectId ;;
  let pid := or_else (pi_projectId pattern_) own in
  patternId <- uuidv4 ;;
  runQuery (INSERT_code_pattern patternId pid (pi_pattern pattern_)
              (json_object
                 [("language", Some (json_string (pi_language pattern_)));
                  ("context", Some (json_string (pi_context pattern_)));
                  ("success", Some (json_bool (pi_success pattern_)))])
              1).

(** ** Comments, usage and search of team memories *)

Definition with_team_memory_comments (d : Database) (l : list CommentRow)
  : Database :=
  {| projects := projects d; conversations := conversations d;
     messages := messages d;
     architectural_decisions := architectural_decisions d;
     file_changes := file_changes d; code_patterns := code_patterns d;
     user_preferences := user_preferences d; team_members := team_members d;
     team_memories := team_memories d;
     team_memory_votes := team_memory_votes d;
     team_memory_comments := l;
     team_memory_usage := team_memory_usage d |}.

Definition with_team_memory_usage (d : Database) (l : list UsageRow)
  : Database :=
  {| projects := projects d; conversations := conversations d;
     messages := messages d;
     architectural_decisions := architectural_decisions d;
     file_changes := file_changes d; code_patterns := code_patterns d;
     user_preferences := user_preferences d; team_members := team_members d;
     team_memories := team_memories d;
     team_memory_votes := team_memory_votes d;
     team_memory_comments := team_memory_comments d;
     team_memory_usage := l |}.

(** [INSERT INTO team_memory_comments (id, memory_id, member_id, content,
    parent_comment_id)]. *)
Definition INSERT_comment (id memory member content : string)
  (parent : option string) (now : nat) (d : Database) : result Database :=
  if has_key co_id id (team_memory_comments d)
  then constraint_failed "team_memory_comments.id"
  else Ok (with_team_memory_comments d
             (team_memory_comments d ++
              [ {| co_id := id; co_memory_id := memory;
                   co_member_id := member; co_content := content;
                   co_timestamp := now;
                   co_parent_comment_id := parent |} ])).

Definition addMemoryComment `{Host} (memoryId memberId content : string)
  (parentCommentId : option string) : M string :=
  commentId <- uuidv4 ;;
  runQuery (INSERT_comment commentId memoryId memberId content
                           parentCommentId) ;;;
  ret commentId.

(** [INSERT INTO team_memory_usage (id, memory_id, used_by, context,
    success)]. *)
Definition INSERT_usage (id memory used_by context : string) (success_ : bool)
  (now : nat) (d : Database) : result Database :=
  if has_key us_id id (team_memory_usage d)
  then constraint_failed "team_memory_usage.id"
  else Ok (with_team_memory_usage d
             (team_memory_usage d ++
              [ {| us_id := id; us_memory_id := memory; us_used_by := used_by;
                   us_used_at := now; us_context := context;
                   us_success := success_ |} ])).

Definition used_once_more (id : string) (r : TeamMemoryRow) : TeamMemoryRow :=
  if String.eqb (mem_id r) id
  then {| mem_id := mem_id r; mem_team_id := mem_team_id r;
          mem_type := mem_type r; mem_title := mem_title r;
          mem_content := mem_content r; mem_context := mem_context r;
          mem_created_by := mem_created_by r;
          mem_created_at := mem_created_at r;
          mem_updated_at := mem_updated_at r; mem_tags := mem_tags r;
          mem_visibility := mem_visibility r;
          mem_project_id := mem_project_id r;
          mem_metadata := mem_metadata r;
          mem_usage_count := mem_usage_count r + 1;
          mem_success_score := mem_success_score r |}
  else r.

(** [UPDATE team_memories SET usage_count = usage_count + 1 WHERE id = ?]. *)
Definition UPDATE_usage_count (id : string) (now : nat) (d : Database)
  : result Database :=
  Ok (with_team_memories d (map (used_once_more id) (team_memories d))).

Definition trackMemoryUsage `{Host} (memoryId usedBy context : string)
  (success_ : bool) : M unit :=
  id <- uuidv4 ;;
  runQuery (INSERT_usage id memoryId usedBy context success_) ;;;
  runQuery (UPDATE_usage_count memoryId).

(** [SELECT * FROM team_memories WHERE team_id = ? AND (title LIKE ? OR
    content LIKE ? OR context LIKE ?) AND (visibility = 'public' OR
    visibility = 'team_only' OR (visibility = 'private' AND created_by = ?))
    ORDER BY usage_count DESC, success_score DESC LIMIT 20]. *)
Definition SELECT_team_memories_like (teamId term memberId : string)
  (d : Database) : list TeamMemoryRow :=
  firstn 20
    (sort_by
       (fun x y =>
          (mem_usage_count y <? mem_usage_count x) ||
          ((mem_usage_count x =? mem_usage_count y) &&
           Qle_bool (mem_success_score y) (mem_success_score x)))
       (filter
          (fun r =>
             String.eqb (mem_team_id r) teamId &&
             (like_contains term (mem_title r) ||
              like_contains term (mem_content r) ||
              like_contains term (mem_context r)) &&
             (Visibility_eqb (mem_visibility r) public ||
              Visibility_eqb (mem_visibility r) team_only ||
              (Visibility_eqb (mem_visibility r) private &&
               String.eqb (mem_created_by r) memberId)))
          (team_memories d))).

(** The rows are returned as they are read; their key for deduplication
    is made of the columns [type] and [content]. *)
Definition searchTeamMemories (teamId query : string)
  (memberId : option string) : M (list TeamMemoryRow) :=
  let searchTerms := extractSearchTerms query in
  results <- map_M (fun term =>
               allQuery (SELECT_team_memories_like teamId term
                           (or_else memberId ""))) searchTerms ;;
  let uniqueMemories :=
    deduplicateMemories (fun r => memory_key (mem_type r) (mem_content r))
                        (List.concat results) in
  ret (firstn 15 uniqueMemories).

(** * [SubscriptionManager]

    The manager keeps the subscription in memory and in the file
    [.codecontext/subscription.json].  Dates are stored as ISO strings and
    read back with [new Date(...)]; they are instants in milliseconds here.
    What the methods print on the console is not part of the model, and the
    file is taken to hold a subscription when it can be read. *)

(** What the manager takes from the process, the clock and the local
    calendar: two environment variables, the working directory, the instant
    each [new Date()] gives, the month and the year of an instant, and the
    instants [setDate(getDate() + n)] and [setMonth(getMonth() + n)] lead
    to. *)
Class Platform := {
  env_CODECONTEXT_DEV : option string;
  env_USER : option string;
  process_cwd : string;
  time_now : nat -> N;
  getMonth : N -> N;
  getFullYear : N -> N;
  plus_days : N -> Z -> N;
  plus_months : N -> Z -> N
}.

Inductive SubscriptionStatus :=
| status_trial | status_active | status_expired | status_cancelled.

Inductive Tier := tier_free | tier_pro | tier_lifetime | tier_developer.

Record UsageStats := {
  executionsThisMonth : N;
  filesTracked : N;
  lastResetDate : N;
  totalExecutions : N
}.

Record UsageLimits := {
  maxExecutionsPerMonth : N;
  maxFilesTracked : N;
  advancedPatternRecognition : bool;
  unlimitedMemory : bool
}.

Record SubscriptionInfo := {
  sub_status : SubscriptionStatus;
  sub_tier : Tier;
  sub_userId : string;
  sub_expiresAt : option N;
  sub_usage : UsageStats;
  sub_limits : UsageLimits
}.

(** The file [subscription.json]. *)
Inductive ConfigFile :=
| no_file
| unreadable_file
| file_with (s : SubscriptionInfo).

Record SubscriptionManager := {
  subscription : option SubscriptionInfo;
  configFile : ConfigFile;
  clock_reads : nat            (* [new Date()] calls *)
}.

Definition SM (A : Type) : Type := Promise SubscriptionManager A.

Definition new_SubscriptionManager (file : ConfigFile) : SubscriptionManager :=
  {| subscription := None; configFile := file; clock_reads := 0 |}.

Definition this_subscription : SM (option SubscriptionInfo) :=
  fun s => (Ok (subscription s), s).

Definition set_subscription (sub : SubscriptionInfo) : SM unit :=
  fun s =>
    (Ok tt, {| subscription := Some sub; configFile := configFile s;
               clock_reads := clock_reads s |}).

Definition current_Date `{Platform} : SM N :=
  fun s =>
    (Ok (time_now (clock_reads s)),
     {| subscription := subscription s; configFile := configFile s;
        clock_reads := S (clock_reads s) |}).

(** [String.prototype.includes]. *)
Definition string_includes (hay needle : string) : bool :=
  match String.index 0 needle hay with Some _ => true | None => false end.

Definition loadSubscription : SM (option SubscriptionInfo) :=
  fun s =>
    match configFile s with
    | file_with sub =>
        (Ok (Some sub),
         {| subscription := Some sub; configFile := configFile s;
            clock_reads := clock_reads s |})
    | no_file => (Ok None, s)
    | unreadable_file => (Ok None, s)
    end.

Definition saveSubscription : SM unit :=
  fun s =>
    match subscription s with
    | Some sub =>
        (Ok tt, {| subscription := subscription s; configFile := file_with sub;
                   clock_reads := clock_reads s |})
    | None => (Ok tt, s)
    end.

Definition isDeveloper `{Platform} : bool :=
  opt_eqb env_CODECONTEXT_DEV (Some "true") ||
  string_includes process_cwd "code-context-pro" ||
  opt_eqb env_USER (Some "developer").

Definition createFreeSubscription `{Platform} : SM unit :=
  if isDeveloper then
    now <- current_Date ;;
    set_subscription
      {| sub_status := status_active; sub_tier := tier_developer;
         sub_userId := "developer-unlimited"; sub_expiresAt := None;
         sub_usage := {| executionsThisMonth := 0%N; filesTracked := 0%N;
                         lastResetDate := now; totalExecutions := 0%N |};
         sub_limits := {| maxExecutionsPerMonth := 999999%N;
                          maxFilesTracked := 999999%N;
                          advancedPatternRecognition := true;
                          unlimitedMemory := true |} |} ;;;
    saveSubscription
  else
    now <- current_Date ;;
    set_subscription
      {| sub_status := status_active; sub_tier := tier_free;
         sub_userId := "free-user"; sub_expiresAt := None;
         sub_usage := {| executionsThisMonth := 0%N; filesTracked := 0%N;
                         lastResetDate := now; totalExecutions := 0%N |};
         sub_limits := {| maxExecutionsPerMonth := 25%N;
                          maxFilesTracked := 25%N;
                          advancedPatternRecognition := false;
                          unlimitedMemory := false |} |} ;;;
    saveSubscription.

Definition createTrialSubscription `{Platform} : SM unit :=
  today <- current_Date ;;
  let trialEndDate := plus_days today 14 in
  now <- current_Date ;;
  set_subscription
    {| sub_status := status_trial; sub_tier := tier_pro;
       sub_userId := "trial-user"; sub_expiresAt := Some trialEndDate;
       sub_usage := {| executionsThisMonth := 0%N; filesTracked := 0%N;
                       lastResetDate := now; totalExecutions := 0%N |};
       sub_limits := {| maxExecutionsPerMonth := 700%N;
                        maxFilesTracked := 1000%N;
                        advancedPatternRecognition := true;
                        unlimitedMemory := true |} |} ;;;
  saveSubscription.

Definition with_usage (sub : SubscriptionInfo) (u : UsageStats)
  : SubscriptionInfo :=
  {| sub_status := sub_status sub; sub_tier := sub_tier sub;
     sub_userId := sub_userId sub; sub_expiresAt := sub_expiresAt sub;
     sub_usage := u; sub_limits := sub_limits sub |}.

Definition with_status (sub : SubscriptionInfo) (st : SubscriptionStatus)
  : SubscriptionInfo :=
  {| sub_status := st; sub_tier := sub_tier sub;
     sub_userId := sub_userId sub; sub_expiresAt := sub_expiresAt sub;
     sub_usage := sub_usage sub; sub_limits := sub_limits sub |}.

Definition with_expiresAt (sub : SubscriptionInfo) (t : option N)
  : SubscriptionInfo :=
  {| sub_status := sub_status sub; sub_tier := sub_tier sub;
     sub_userId := sub_userId sub; sub_expiresAt := t;
     sub_usage := sub_usage sub; sub_limits := sub_limits sub |}.

Definition with_userId (sub : SubscriptionInfo) (u : string)
  : SubscriptionInfo :=
  {| sub_status := sub_status sub; sub_tier := sub_tier sub;
     sub_userId := u; sub_expiresAt := sub_expiresAt sub;
     sub_usage := sub_usage sub; sub_limits := sub_limits sub |}.

Definition checkAndResetMonthlyUsage `{Platform} : SM unit :=
  current <- this_subscription ;;
  match current with
  | None => ret tt
  | Some sub =>
      let lastReset := lastResetDate (sub_usage sub) in
      now <- current_Date ;;
      if negb (getMonth lastReset =? getMonth now)%N ||
         negb (getFullYear lastReset =? getFullYear now)%N
      then
        set_subscription
          (with_usage sub
             {| executionsThisMonth := 0%N;
                filesTracked := filesTracked (sub_usage sub);
                lastResetDate := now;
                totalExecutions := totalExecutions (sub_usage sub) |}) ;;;
        saveSubscription
      else ret tt
  end.

Definition initialize_subscription `{Platform} : SM unit :=
  loadSubscription ;;;
  current <- this_subscription ;;
  (match current with
   | None => createFreeSubscription
   | Some _ => ret tt
   end) ;;;
  checkAndResetMonthlyUsage.

(** A count as a template literal prints it. *)
Definition decimal_N (n : N) : string :=
  DecimalString.NilEmpty.string_of_uint (N.to_uint n).

(** The object [canExecute] and [canTrackFile] return. *)
Record Verdict := { allowed : bool; reason : option string }.

Definition Tier_eqb (a b : Tier) : bool :=
  match a, b with
  | tier_free, tier_free | tier_pro, tier_pro
  | tier_lifetime, tier_lifetime | tier_developer, tier_developer => true
  | _, _ => false
  end.

Definition SubscriptionStatus_eqb (a b : SubscriptionStatus) : bool :=
  match a, b with
  | status_trial, status_trial | status_active, status_active
  | status_expired, status_expired | status_cancelled, status_cancelled => true
  | _, _ => false
  end.

(** The check of the execution limit, with which [canExecute] ends. *)
Definition execution_limit_verdict (sub : SubscriptionInfo) : Verdict :=
  let used := executionsThisMonth (sub_usage sub) in
  let limit := maxExecutionsPerMonth (sub_limits sub) in
  if (limit <=? used)%N then
    if Tier_eqb (sub_tier sub) tier_free
    then {| allowed := false;
            reason := Some ("🆓 Free tier limit reached (" ++ decimal_N limit ++
                            " executions). Upgrade to Lifetime Pro: " ++
                            "codecontext-pro upgrade")%string |}
    else {| allowed := false;
            reason := Some ("Monthly execution limit reached (" ++
                            decimal_N limit ++
                            "). Resets next month or upgrade at " ++
                            "codecontextpro.com")%string |}
  else {| allowed := true; reason := None |}.

Definition canExecute `{Platform} : SM Verdict :=
  current <- this_subscription ;;
  match current with
  | None => ret {| allowed := false; reason := Some "No subscription found" |}
  | Some sub =>
      if Tier_eqb (sub_tier sub) tier_developer
      then ret {| allowed := true; reason := None |}
      else if SubscriptionStatus_eqb (sub_status sub) status_expired ||
              SubscriptionStatus_eqb (sub_status sub) status_cancelled
      then ret {| allowed := false;
                  reason := Some ("Subscription expired. Please renew at " ++
                                  "codecontextpro.com")%string |}
      else
        match (if SubscriptionStatus_eqb (sub_status sub) status_trial
               then sub_expiresAt sub else None) with
        | Some expiry =>
            now <- current_Date ;;
            if (expiry <? now)%N
            then
              set_subscription (with_status sub status_expired) ;;;
              saveSubscription ;;;
              ret {| allowed := false;
                     reason := Some ("Trial expired. Upgrade to Pro at " ++
                                     "codecontextpro.com")%string |}
            else ret (execution_limit_verdict sub)
        | None => ret (execution_limit_verdict sub)
        end
  end.

Definition canTrackFile : SM Verdict :=
  current <- this_subscription ;;
  match current with
  | None => ret {| allowed := false; reason := Some "No subscription found" |}
  | Some sub =>
      if (maxFilesTracked (sub_limits sub) <=? filesTracked (sub_usage sub))%N
      then ret {| allowed := false;
                  reason := Some ("File tracking limit reached (" ++
                                  decimal_N (maxFilesTracked (sub_limits sub)) ++
                                  "). Upgrade at codecontextpro.com")%string |}
      else ret {| allowed := true; reason := None |}
  end.

Definition recordExecution : SM unit :=
  current <- this_subscription ;;
  match current with
  | None => ret tt
  | Some sub =>
      set_subscription
        (with_usage sub
           {| executionsThisMonth :=
                N.succ (executionsThisMonth (sub_usage sub));
              filesTracked := filesTracked (sub_usage sub);
              lastResetDate := lastResetDate (sub_usage sub);
              totalExecutions := N.succ (totalExecutions (sub_usage sub)) |}) ;;;
      saveSubscription
  end.

Definition recordFileTracked : SM unit :=
  current <- this_subscription ;;
  match current with
  | None => ret tt
  | Some sub =>
      set_subscription
        (with_usage sub
           {| executionsThisMonth := executionsThisMonth (sub_usage sub);
              filesTracked := N.succ (filesTracked (sub_usage sub));
              lastResetDate := lastResetDate (sub_usage sub);
              totalExecutions := totalExecutions (sub_usage sub) |}) ;;;
      saveSubscription
  end.

Definition getUsageStats : SM (option UsageStats) :=
  current <- this_subscription ;;
  ret (option_map sub_usage current).

Definition getSubscriptionStatus : SM (option SubscriptionInfo) :=
  this_subscription.

Definition activatePaidSubscription `{Platform} (userId_ : string)
  : SM unit :=
  current <- this_subscription ;;
  (match current with
   | None => createTrialSubscription
   | Some _ => ret tt
   end) ;;;
  current <- this_subscription ;;
  match current with
  | None => ret tt
  | Some sub =>
      today <- current_Date ;;
      set_subscription
        (with_expiresAt (with_userId (with_status sub status_active) userId_)
                        (Some (plus_months today 1))) ;;;
      saveSubscription
  end.

(** [Math.ceil(a / b)] for an integer [a] and a positive integer [b]. *)
Definition ceil_div (a b : Z) : Z := (- ((- a) / b))%Z.

Definition getTrialDaysRemaining `{Platform} : SM N :=
  current <- this_subscription ;;
  match current with
  | None => ret 0%N
  | Some sub =>
      match (if SubscriptionStatus_eqb (sub_status sub) status_trial
             then sub_expiresAt sub else None) with
      | None => ret 0%N
      | Some expiry =>
          now <- current_Date ;;
          let diffTime := (Z.of_N expiry - Z.of_N now)%Z in
          let diffDays := ceil_div diffTime (1000 * 60 * 60 * 24) in
          ret (Z.to_N (Z.max 0 diffDays))
      end
  end.

Definition extendTrial `{Platform} (days : Z) : SM unit :=
  current <- this_subscription ;;
  match current with
  | None => ret tt
  | Some sub =>
      match (if SubscriptionStatus_eqb (sub_status sub) status_trial
             then sub_expiresAt sub else None) with
      | None => ret tt
      | Some expiry =>
          set_subscription
            (with_expiresAt sub (Some (plus_days expiry days))) ;;;
          saveSubscription
      end
  end.

(** * Further properties of [checkPermission] *)

(** ** [checkPermission]: members, explicit rules, visibility *)

(** X1.  A caller who is not a member of the team is refused whatever is
    asked and whatever rules are stored: the explicit rules are not even
    consulted, and the audit entry of the check carries the error
    [User not found]. *)
Theorem non_member_is_refused `{Host} p ms user a rt rid :
  members_of (teamMemoryEngine p) = Ok ms ->
  find_member user ms = None ->
  exists e p',
    checkPermission user a rt rid p = (Ok false, p') /\
    auditLogs p' = lastn MAX_AUDIT_LOGS (auditLogs p ++ [e]) /\
    permissionRules p' = permissionRules p /\
    userId e = user /\ userName e = "Unknown" /\ success e = false /\
    errorMessage e = Some "User not found".
Proof.
  intros Hms Hf. unfold checkPermission.
  rewrite (try_catch_Ok _ _ p (a := false)
             (s' := snd (logAudit user "permission_check" rt (or_else rid "")
                           false (Some "User not found") None p))).
  - unfold logAudit.
    rewrite (bind_getTeamMembers _ _ Hms), Hf.
    destruct (new_uuid_quiet p) as (id & p1 & E1 & Q1).
    rewrite (bind_Ok _ _ _ E1).
    destruct (new_Date_quiet p1) as (p2 & E2 & Q2).
    rewrite (bind_Ok _ _ _ E2).
    unfold push_audit. rewrite cap_is_lastn. simpl.
    do 2 eexists. split; [reflexivity|]. simpl.
    rewrite (quiet_logs Q2), (quiet_logs Q1), (quiet_rules Q2),
      (quiet_rules Q1).
    repeat split; reflexivity.
  - rewrite (bind_getTeamMembers _ _ Hms), Hf.
    destruct (logAudit_Ok user "permission_check" rt (or_else rid "") false
                (Some "User not found") None p Hms) as (e & p' & E & _).
    rewrite (bind_Ok _ _ _ E), E. reflexivity.
Qed.

Lemma non_member_is_refused_witness :
  exists e p',
    checkPermission "mallory" act_read "memory" (Some "id-3") example_engine =
      (Ok false, p') /\
    auditLogs p' = lastn MAX_AUDIT_LOGS (auditLogs example_engine ++ [e]) /\
    permissionRules p' = permissionRules example_engine /\
    userId e = "mallory" /\ userName e = "Unknown" /\ success e = false /\
    errorMessage e = Some "User not found".
Proof.
  let ms := eval vm_compute in (members_of example_team) in
  match ms with
  | Ok ?l =>
      apply (@non_member_is_refused example_host example_engine l)
  end.
  - vm_compute. reflexivity.
  - vm_compute. reflexivity.
Defined.

(** The loop of [checkExplicitPermissions] stops at the first rule that has
    an entry for the action and no condition. *)
Lemma first_decisive_rule_prefix `{Host} silent rule rest perm user a rt rid p :
  (forall r, In r silent ->
     find (fun q => Action_eqb (action q) a) (permissions r) = None) ->
  find (fun q => Action_eqb (action q) a) (permissions rule) = Some perm ->
  conditions rule = None \/ conditions rule = Some [] ->
  first_decisive_rule (silent ++ rule :: rest) user a rt rid p =
  (Ok (Some (granted perm)), p).
Proof.
  intros Hsilent Hperm Hcond.
  induction silent as [|r t IH]; simpl.
  - rewrite Hperm. destruct Hcond as [-> | ->]; reflexivity.
  - rewrite (Hsilent r (or_introl eq_refl)). apply IH.
    intros r' Hr'. apply Hsilent. now right.
Qed.

(** X2.  Explicit rules come first.  For a team member, if, among the
    active rules that apply to the caller and the resource, the first one
    with an entry for the action carries no condition, then its [granted]
    flag is the answer, whatever the caller's role and the memory's
    visibility say; the audit entry records that flag. *)
Theorem explicit_rule_decides_first `{Host}
  p ms u user a rt rid silent rule rest perm :
  members_of (teamMemoryEngine p) = Ok ms ->
  find_member user ms = Some u ->
  filter (rule_applies user rt rid) (map_values (permissionRules p)) =
    silent ++ rule :: rest ->
  (forall r, In r silent ->
     find (fun q => Action_eqb (action q) a) (permissions r) = None) ->
  find (fun q => Action_eqb (action q) a) (permissions rule) = Some perm ->
  conditions rule = None \/ conditions rule = Some [] ->
  exists e p',
    checkPermission user a rt rid p = (Ok (granted perm), p') /\
    auditLogs p' = lastn MAX_AUDIT_LOGS (auditLogs p ++ [e]) /\
    userId e = user /\ success e = granted perm.
Proof.
  intros Hms Hu Hrules Hsilent Hperm Hcond.
  destruct (members_of_Ok_open _ Hms) as [d Hd].
  destruct (memories_of_open _ Hd) as [mems Hmem].
  assert (Hex : checkExplicitPermissions user a rt rid p =
                (Ok (Some (granted perm)), p)).
  { unfold checkExplicitPermissions.
    rewrite (bind_Ok _ _ _ (get_state_eq p)), Hrules.
    now apply first_decisive_rule_prefix. }
  destruct (checkPermission_member user a rt rid p Hms Hu Hmem Hex)
    as (e & p' & E & St & Hue & Hs & _).
  exists e, p'. split; [exact E|]. split; [apply (step_logs St)|].
  split; assumption.
Qed.

(** Alice (an admin) is explicitly denied [delete] on the memory [id-3]. *)
Definition alice_denied_delete : MemoryPermissionsEngine :=
  snd (createPermissionRule
         {| nr_resourceType := "memory"; nr_resourceId := Some "id-3";
            nr_subjectType := "user"; nr_subjectId := "id-0";
            nr_permissions := [ {| action := act_delete; granted := false |} ];
            nr_createdBy := "id-0"; nr_expiresAt := None;
            nr_conditions := None; nr_isActive := true |}
         example_engine).

Lemma explicit_rule_decides_first_witness :
  exists e p',
    checkPermission "id-0" act_delete "memory" (Some "id-3")
      alice_denied_delete = (Ok false, p') /\
    auditLogs p' = lastn MAX_AUDIT_LOGS (auditLogs alice_denied_delete ++ [e]) /\
    userId e = "id-0" /\ success e = false.
Proof.
  let ms := eval vm_compute in (members_of example_team) in
  let rs := eval vm_compute in
              (map_values (permissionRules alice_denied_delete)) in
  match ms with
  | Ok ?l =>
      let alice := eval vm_compute in (find_member "id-0" l) in
      match constr:((alice, rs)) with
      | (Some ?al, [?rule]) =>
          apply (@explicit_rule_decides_first example_host
                   alice_denied_delete l al "id-0" act_delete "memory"
                   (Some "id-3") [] rule []
                   {| action := act_delete; granted := false |})
      end
  end.
  - vm_compute. reflexivity.
  - vm_compute. reflexivity.
  - vm_compute. reflexivity.
  - intros r [].
  - reflexivity.
  - left. reflexivity.
Defined.

(** X3.  When no explicit rule applies, a [private] memory is closed to
    every member but its creator, administrators included, and a memory id
    that matches no team memory is closed to everybody: the check returns
    [false] for every action. *)
Theorem private_or_unknown_memory_is_closed `{Host}
  p ms u mems user a memoryId :
  members_of (teamMemoryEngine p) = Ok ms ->
  find_member user ms = Some u ->
  memories_of (teamMemoryEngine p) = Ok mems ->
  truthy memoryId = true ->
  filter (rule_applies user "memory" (Some memoryId))
         (map_values (permissionRules p)) = [] ->
  match find_memory memoryId mems with
  | Some m => visibility m = private /\ createdBy m <> user
  | None => True
  end ->
  fst (checkPermission user a "memory" (Some memoryId) p) = Ok false.
Proof.
  intros Hms Hu Hmem Ht Hnone Hclosed.
  destruct (checkPermission_member user a "memory" (Some memoryId) p
              Hms Hu Hmem (checkExplicitPermissions_none _ _ _ _ _ Hnone))
    as (e & p' & -> & _).
  simpl. f_equal. unfold default_decision. simpl. rewrite Ht. simpl.
  unfold memory_decision.
  rewrite (find_member_id _ _ Hu).
  destruct (find_memory memoryId mems) as [m|];
    [|apply Bool.andb_false_r].
  destruct Hclosed as [Hv Hc]. rewrite Hv.
  apply String.eqb_neq in Hc. rewrite Hc. apply Bool.andb_false_r.
Qed.

Lemma private_or_unknown_memory_is_closed_witness :
  fst (checkPermission "id-0" act_read "memory" (Some "id-5")
         example_engine) = Ok false /\
  fst (checkPermission "id-0" act_read "memory" (Some "no-such-memory")
         example_engine) = Ok false.
Proof.
  let ms := eval vm_compute in (members_of example_team) in
  let mems := eval vm_compute in (memories_of example_team) in
  match constr:((ms, mems)) with
  | (Ok ?l, Ok ?l') =>
      let alice := eval vm_compute in (find_member "id-0" l) in
      match alice with
      | Some ?al =>
          split;
          [ apply (@private_or_unknown_memory_is_closed example_host
                     example_engine l al l' "id-0" act_read "id-5")
          | apply (@private_or_unknown_memory_is_closed example_host
                     example_engine l al l' "id-0" act_read
                     "no-such-memory") ]
      end
  end.
  - vm_compute. reflexivity.
  - vm_compute. reflexivity.
  - vm_compute. reflexivity.
  - reflexivity.
  - reflexivity.
  - simpl. split; [reflexivity|discriminate].
  - vm_compute. reflexivity.
  - vm_compute. reflexivity.
  - vm_compute. reflexivity.
  - reflexivity.
  - reflexivity.
  - simpl. exact I.
Defined.

(** X4.  A check made without a resource id (or with the empty id) does not
    look at the resource of the rules: when the only stored rule is an
    active, condition-free rule of the caller for that resource type, on
    whatever resource, its entry for the action decides the check. *)
Theorem check_without_resource_matches_any_rule `{Host}
  p ms u user a rt rid key rule perm :
  members_of (teamMemoryEngine p) = Ok ms ->
  find_member user ms = Some u ->
  truthy_opt rid = false ->
  permissionRules p = [(key, rule)] ->
  isActive rule = true -> resourceType rule = rt ->
  subjectType rule = "user" -> subjectId rule = user ->
  conditions rule = None ->
  find (fun q => Action_eqb (action q) a) (permissions rule) = Some perm ->
  fst (checkPermission user a rt rid p) = Ok (granted perm).
Proof.
  intros Hms Hu Hrid Hrules Hact Hrt Hst Hsu Hcond Hperm.
  destruct (members_of_Ok_open _ Hms) as [d Hd].
  destruct (memories_of_open _ Hd) as [mems Hmem].
  assert (Hex : checkExplicitPermissions user a rt rid p =
                (Ok (Some (granted perm)), p)).
  { unfold checkExplicitPermissions.
    rewrite (bind_Ok _ _ _ (get_state_eq p)), Hrules. simpl.
    unfold rule_applies. rewrite Hact, Hrt, Hst, Hsu, Hrid.
    rewrite !String.eqb_refl. simpl. rewrite Hperm, Hcond. reflexivity. }
  destruct (checkPermission_member user a rt rid p Hms Hu Hmem Hex)
    as (e & p' & -> & _).
  reflexivity.
Qed.

Lemma check_without_resource_matches_any_rule_witness :
  fst (checkPermission "id-0" act_delete "memory" None alice_denied_delete) =
    Ok false.
Proof.
  let ms := eval vm_compute in (members_of example_team) in
  let rs := eval vm_compute in (permissionRules alice_denied_delete) in
  match ms with
  | Ok ?l =>
      let alice := eval vm_compute in (find_member "id-0" l) in
      match constr:((alice, rs)) with
      | (Some ?al, [(?k, ?rule)]) =>
          apply (@check_without_resource_matches_any_rule example_host
                   alice_denied_delete l al "id-0" act_delete "memory" None
                   k rule {| action := act_delete; granted := false |})
      end
  end.
  - vm_compute. reflexivity.
  - vm_compute. reflexivity.
  - reflexivity.
  - vm_compute. reflexivity.
  - reflexivity.
  - reflexivity.
  - reflexivity.
  - reflexivity.
  - reflexivity.
  - reflexivity.
Defined.

(** * Further properties of [MemoryPermissionsEngine] *)

(** ** The audit log never outgrows its cap *)

Definition bounded_log (p : MemoryPermissionsEngine) : Prop :=
  List.length (auditLogs p) <= MAX_AUDIT_LOGS.

(** A promise that leaves a bounded log bounded, also when it rejects. *)
Definition keeps_bound {A} (m : P A) : Prop :=
  forall p, bounded_log p -> bounded_log (snd (m p)).

Lemma keeps_bound_ret {A} (a : A) : keeps_bound (ret a).
Proof. intros p Hp. exact Hp. Qed.

Lemma keeps_bound_bind {A B} (m : P A) (k : A -> P B) :
  keeps_bound m -> (forall a, keeps_bound (k a)) -> keeps_bound (bind m k).
Proof.
  intros Hm Hk p Hp. unfold bind. specialize (Hm p Hp).
  destruct (m p) as [[a|msg] p1]; simpl in *; [now apply Hk|exact Hm].
Qed.

Lemma keeps_bound_try_catch {A} (body : P A) (handler : string -> P A) :
  keeps_bound body -> (forall msg, keeps_bound (handler msg)) ->
  keeps_bound (try_catch body handler).
Proof.
  intros Hb Hh p Hp. unfold try_catch. specialize (Hb p Hp).
  destruct (body p) as [[a|msg] p1]; simpl in *; [exact Hb|now apply Hh].
Qed.

Lemma keeps_bound_on_team {A} (m : string -> M A) : keeps_bound (on_team m).
Proof.
  intros p Hp. unfold on_team.
  destruct (m (teamId (teamMemoryEngine p)) (engine (teamMemoryEngine p))).
  exact Hp.
Qed.

Lemma keeps_bound_new_Date `{Host} : keeps_bound new_Date.
Proof. intros p Hp. exact Hp. Qed.

Lemma keeps_bound_get_state : keeps_bound get_state.
Proof. intros p Hp. exact Hp. Qed.

Lemma keeps_bound_set_permissionRules f : keeps_bound (set_permissionRules f).
Proof. intros p Hp. exact Hp. Qed.

Lemma keeps_bound_set_accessRequests f : keeps_bound (set_accessRequests f).
Proof. intros p Hp. exact Hp. Qed.

Lemma keeps_bound_push_audit entry : keeps_bound (push_audit entry).
Proof.
  intros p _. unfold bounded_log, push_audit. simpl.
  rewrite cap_is_lastn, lastn_length. lia.
Qed.

Lemma keeps_bound_for_each {A} (l : list A) (body : A -> P unit) :
  (forall a, keeps_bound (body a)) -> keeps_bound (for_each l body).
Proof.
  intros Hb. induction l as [|x t IH]; simpl.
  - apply keeps_bound_ret.
  - apply keeps_bound_bind; [apply Hb|]. intros _. exact IH.
Qed.

Create HintDb keeps.

#[local] Hint Resolve keeps_bound_ret keeps_bound_on_team keeps_bound_new_Date
  keeps_bound_get_state keeps_bound_set_permissionRules
  keeps_bound_set_accessRequests keeps_bound_push_audit : keeps.

Ltac keeps_step :=
  first
    [ apply keeps_bound_bind; [|intros ?]
    | apply keeps_bound_try_catch; [|intros ?]
    | apply keeps_bound_for_each; intros ?
    | solve [auto with keeps]
    | match goal with
      | |- keeps_bound (match ?x with _ => _ end) => destruct x
      | |- keeps_bound (if ?x then _ else _) => destruct x
      end ].

Lemma keeps_bound_logAudit `{Host} user act rt rid ok err md :
  keeps_bound (logAudit user act rt rid ok err md).
Proof. unfold logAudit, new_uuid. repeat keeps_step. Qed.

Lemma keeps_bound_evaluateConditions `{Host} conds user rt rid :
  keeps_bound (evaluateConditions conds user rt rid).
Proof.
  induction conds as [|c rest IH]; simpl; [auto with keeps|].
  apply keeps_bound_bind.
  - destruct c; unfold isInTimeWindow, checkApprovalStatus;
      repeat keeps_step.
  - intros [|]; [exact IH|auto with keeps].
Qed.

Lemma keeps_bound_first_decisive_rule `{Host} rules user a rt rid :
  keeps_bound (first_decisive_rule rules user a rt rid).
Proof.
  induction rules as [|rule rest IH]; simpl; [auto with keeps|].
  destruct (find _ (permissions rule)); [|exact IH].
  apply keeps_bound_bind.
  - destruct (conditions rule) as [[|c cs]|]; auto with keeps.
    apply (keeps_bound_evaluateConditions (c :: cs)).
  - intros [|]; [auto with keeps|exact IH].
Qed.

Lemma keeps_bound_checkPermission `{Host} user a rt rid :
  keeps_bound (checkPermission user a rt rid).
Proof.
  unfold checkPermission, checkExplicitPermissions, checkMemoryPermissions.
  pose proof keeps_bound_logAudit. pose proof keeps_bound_first_decisive_rule.
  repeat (keeps_step || match goal with
                        | Hl : forall _, _ |- _ => solve [apply Hl]
                        end).
Qed.

Lemma keeps_bound_createPermissionRule `{Host} nr :
  keeps_bound (createPermissionRule nr).
Proof.
  unfold createPermissionRule, new_uuid. pose proof keeps_bound_logAudit.
  repeat (keeps_step || match goal with
                        | Hl : forall _, _ |- _ => solve [apply Hl]
                        end).
Qed.

Lemma keeps_bound_deletePermissionRule `{Host} id by_ :
  keeps_bound (deletePermissionRule id by_).
Proof.
  unfold deletePermissionRule. pose proof keeps_bound_logAudit.
  repeat (keeps_step || match goal with
                        | Hl : forall _, _ |- _ => solve [apply Hl]
                        end).
Qed.

(** The public methods, as calls with their arguments. *)
Inductive Call :=
| call_checkPermission (user : string) (a : Action) (rt : string)
    (rid : option string)
| call_createPermissionRule (rule : NewPermissionRule)
| call_updatePermissionRule (ruleId : string) (updates : RuleUpdates)
    (updatedBy : string)
| call_deletePermissionRule (ruleId deletedBy : string)
| call_getPermissionRules (filters : option RuleFilters)
| call_createAccessRequest (request : NewAccessRequest)
| call_approveAccessRequest (requestId approverId approverName : string)
| call_denyAccessRequest (requestId denierId reason : string)
| call_getAccessRequests (filters : option RequestFilters)
| call_shareMemory (memoryId sharedBy : string) (sharedWith : list string)
    (perms : list Permission) (message : option string)
| call_revokeMemoryAccess (memoryId revokedBy revokedFrom : string)
| call_getAuditLogs (filters : option AuditFilters)
| call_bulkUpdatePermissions (updates : list BulkUpdate) (updatedBy : string).

(** The engine after a call, whether the call resolved or rejected. *)
Definition after_call `{Host} (c : Call) (p : MemoryPermissionsEngine)
  : MemoryPermissionsEngine :=
  match c with
  | call_checkPermission user a rt rid => snd (checkPermission user a rt rid p)
  | call_createPermissionRule rule => snd (createPermissionRule rule p)
  | call_updatePermissionRule id u by_ => snd (updatePermissionRule id u by_ p)
  | call_deletePermissionRule id by_ => snd (deletePermissionRule id by_ p)
  | call_getPermissionRules f => snd (getPermissionRules f p)
  | call_createAccessRequest r => snd (createAccessRequest r p)
  | call_approveAccessRequest id by_ name =>
      snd (approveAccessRequest id by_ name p)
  | call_denyAccessRequest id by_ reason =>
      snd (denyAccessRequest id by_ reason p)
  | call_getAccessRequests f => snd (getAccessRequests f p)
  | call_shareMemory m by_ to perms msg => snd (shareMemory m by_ to perms msg p)
  | call_revokeMemoryAccess m by_ from => snd (revokeMemoryAccess m by_ from p)
  | call_getAuditLogs f => snd (getAuditLogs f p)
  | call_bulkUpdatePermissions us by_ => snd (bulkUpdatePermissions us by_ p)
  end.

Definition after_calls `{Host} (calls : list Call)
  (p : MemoryPermissionsEngine) : MemoryPermissionsEngine :=
  fold_left (fun q c => after_call c q) calls p.

Ltac keeps_known :=
  match goal with
  | |- keeps_bound (logAudit _ _ _ _ _ _ _) => apply keeps_bound_logAudit
  | |- keeps_bound (checkPermission _ _ _ _) =>
      apply keeps_bound_checkPermission
  | |- keeps_bound (createPermissionRule _) =>
      apply keeps_bound_createPermissionRule
  | |- keeps_bound (deletePermissionRule _ _) =>
      apply keeps_bound_deletePermissionRule
  end.

Lemma after_call_bounded `{Host} c p :
  bounded_log p -> bounded_log (after_call c p).
Proof.
  intros Hp.
  assert (Hk : forall A (m : P A), keeps_bound m -> bounded_log (snd (m p)))
    by (intros A m Hm; apply Hm, Hp).
  destruct c; cbv beta iota delta [after_call]; apply Hk; clear Hk Hp p;
    try keeps_known;
    unfold updatePermissionRule, getPermissionRules, createAccessRequest,
      approveAccessRequest, denyAccessRequest, getAccessRequests,
      shareMemory, revokeMemoryAccess, getAuditLogs, bulkUpdatePermissions,
      new_uuid;
    repeat (keeps_known || keeps_step).
Qed.

(** X5.  Whatever sequence of public methods is called on a newly
    constructed engine, with whatever arguments, and whether the calls
    resolve or reject, the audit log never holds more than 10,000
    entries. *)
Theorem audit_log_never_exceeds_cap `{Host} (t : TeamMemoryEngine)
  (calls : list Call) :
  List.length (auditLogs (after_calls calls (new_MemoryPermissionsEngine t)))
  <= MAX_AUDIT_LOGS.
Proof.
  assert (Hgen : forall p, bounded_log p -> bounded_log (after_calls calls p)).
  { induction calls as [|c rest IH]; intros p Hp; simpl; [exact Hp|].
    apply IH. now apply after_call_bounded. }
  apply Hgen. unfold bounded_log. simpl. lia.
Qed.

(** ** Reading the audit log *)

Lemma chain_insert_by {A} (le : A -> A -> bool) (x : A) (l : list A) :
  (forall a b, le a b = false -> le b a = true) ->
  chain le l -> chain le (insert_by le x l).
Proof.
  intros Htot. induction l as [|y t IH]; intros Hc; simpl.
  - split; exact I.
  - destruct (le x y) eqn:E.
    + split; [exact E|exact Hc].
    + destruct Hc as [Hy Ht]. specialize (IH Ht). split; [|exact IH].
      destruct t as [|z t']; simpl in *.
      * now apply Htot.
      * destruct (le x z); [now apply Htot|exact Hy].
Qed.

Lemma chain_sort_by {A} (le : A -> A -> bool) (l : list A) :
  (forall a b, le a b = false -> le b a = true) -> chain le (sort_by le l).
Proof.
  intros Htot. induction l as [|x t IH]; [exact I|].
  unfold sort_by in *. simpl. now apply chain_insert_by.
Qed.

Lemma chain_firstn {A} (le : A -> A -> bool) (n : nat) (l : list A) :
  chain le l -> chain le (firstn n l).
Proof.
  revert n. induction l as [|x t IH]; intros [|n] Hc; simpl; try exact I.
  destruct Hc as [Hx Ht]. split; [|now apply IH].
  destruct t as [|y t']; [destruct n; exact I|].
  destruct n; [exact I|exact Hx].
Qed.

Lemma order_by_desc_chain {A} (key : A -> nat) (l : list A) :
  chain (fun x y => key y <=? key x) (order_by_desc key l).
Proof.
  apply chain_sort_by. intros a b E.
  apply Nat.leb_gt in E. apply Nat.leb_le. lia.
Qed.

Lemma keep_if_truthy_In {R} wanted (field : R -> option string) rows x :
  In x (keep_if_truthy wanted field rows) <->
  In x rows /\ (if truthy_opt wanted then opt_eqb (field x) wanted else true)
               = true.
Proof.
  unfold keep_if_truthy. destruct (truthy_opt wanted).
  - apply filter_In.
  - tauto.
Qed.

(** X6.  [getAuditLogs] returns entries of the log that pass every given
    filter, newest first; it returns every such entry when no (or a zero)
    limit is given and at most [limit] entries otherwise; the log itself is
    left as it was. *)
Theorem getAuditLogs_newest_first (p : MemoryPermissionsEngine)
  (filters : option AuditFilters) :
  exists logs,
    getAuditLogs filters p = (Ok logs, p) /\
    chain (fun newer older => audit_timestamp older <=? audit_timestamp newer)
          logs /\
    (forall l, In l logs ->
       In l (auditLogs p) /\
       match filters with
       | Some f => audit_matches f l = true
       | None => True
       end) /\
    (forall f n, filters = Some f -> af_limit f = Some (S n) ->
                 List.length logs <= S n) /\
    (match filters with
     | Some f => af_limit f = None \/ af_limit f = Some 0
     | None => True
     end ->
     forall l, In l (auditLogs p) ->
       match filters with
       | Some f => audit_matches f l = true
       | None => True
       end -> In l logs).
Proof.
  unfold getAuditLogs. rewrite (bind_Ok _ _ _ (get_state_eq p)).
  eexists. split; [reflexivity|].
  set (filtered :=
         match filters with
         | Some f =>
             let logs := keep_if_truthy (af_userId f)
                           (fun l => Some (userId l)) (auditLogs p) in
             let logs := keep_if_truthy (af_action f)
                           (fun l => Some (audit_action l)) logs in
             let logs := keep_if_truthy (af_resourceType f)
                           (fun l => Some (audit_resourceType l)) logs in
             let logs := match af_startDate f with
                         | Some s =>
                             filter (fun l => s <=? audit_timestamp l) logs
                         | None => logs
                         end in
             match af_endDate f with
             | Some e => filter (fun l => audit_timestamp l <=? e) logs
             | None => logs
             end
         | None => auditLogs p
         end).
  assert (Hfiltered : forall l,
            In l filtered <->
            In l (auditLogs p) /\
            match filters with
            | Some f => audit_matches f l = true
            | None => True
            end).
  { intros l. subst filtered. destruct filters as [f|]; [|tauto].
    unfold audit_matches. cbv zeta.
    destruct (af_endDate f) as [e|], (af_startDate f) as [s|];
      rewrite ?filter_In, !keep_if_truthy_In, !Bool.andb_true_iff;
      intuition. }
  split.
  { destruct filters as [f|]; [|apply order_by_desc_chain].
    destruct (af_limit f) as [[|n]|];
      try apply chain_firstn; apply order_by_desc_chain. }
  split.
  { intros l Hl. apply Hfiltered.
    destruct filters as [f|]; [|now apply In_sort_by in Hl].
    destruct (af_limit f) as [[|n]|]; try apply In_firstn in Hl;
      now apply In_sort_by in Hl. }
  split.
  { intros f n -> Hlim. rewrite Hlim. apply firstn_le_length. }
  intros Hnolimit l Hin Hmatch.
  assert (Hl : In l filtered) by (apply Hfiltered; auto).
  destruct filters as [f|]; [|now apply In_sort_by].
  destruct Hnolimit as [-> | ->]; now apply In_sort_by.
Qed.

(** ** Creating and deleting rules *)

Lemma map_get_None {V} (k : string) (m : list (string * V)) :
  map_get k m = None <-> forall kv, In kv m -> String.eqb (fst kv) k = false.
Proof.
  unfold map_get. split.
  - intros E kv Hin.
    destruct (find (fun kv => String.eqb (fst kv) k) m) eqn:F;
      [discriminate|].
    apply (find_none _ _ F kv Hin).
  - intros Hall.
    destruct (find (fun kv => String.eqb (fst kv) k) m) as [kv|] eqn:F;
      [|reflexivity].
    apply find_some in F. destruct F as [Hin E].
    rewrite (Hall kv Hin) in E. discriminate.
Qed.

Lemma map_set_fresh {V} (k : string) (v : V) (m : list (string * V)) :
  map_get k m = None -> map_set k v m = m ++ [(k, v)].
Proof.
  rewrite map_get_None. induction m as [|kv t IH]; intros Hall; simpl.
  - reflexivity.
  - rewrite (Hall kv (or_introl eq_refl)). f_equal. apply IH.
    intros kv' Hin. apply Hall. now right.
Qed.

Lemma map_set_last {V} (k : string) (v v' : V) (m : list (string * V)) :
  map_get k m = None -> map_set k v' (m ++ [(k, v)]) = m ++ [(k, v')].
Proof.
  rewrite map_get_None. induction m as [|kv t IH]; intros Hall; simpl.
  - now rewrite String.eqb_refl.
  - rewrite (Hall kv (or_introl eq_refl)). f_equal. apply IH.
    intros kv' Hin. apply Hall. now right.
Qed.

Lemma map_get_last {V} (k : string) (v : V) (m : list (string * V)) :
  map_get k m = None -> map_get k (m ++ [(k, v)]) = Some v.
Proof.
  intros E. rewrite <- (map_set_fresh k v m E). apply map_get_map_set.
Qed.

(** The identifier the next [uuid.v4()] of the engine returns. *)
Definition next_uuid `{Host} (p : MemoryPermissionsEngine) : string :=
  uuid_v4 (uuid_calls (engine (teamMemoryEngine p))).

Definition rule_of_new (nr : NewPermissionRule) (id : string) (now : nat)
  : PermissionRule :=
  {| rule_id := id;
     resourceType := nr_resourceType nr;
     resourceId := nr_resourceId nr;
     subjectType := nr_subjectType nr;
     subjectId := nr_subjectId nr;
     permissions := nr_permissions nr;
     rule_createdBy := nr_createdBy nr;
     rule_createdAt := now;
     expiresAt := nr_expiresAt nr;
     conditions := nr_conditions nr;
     isActive := nr_isActive nr |}.

(** [logAudit] with its counters made explicit. *)
Lemma logAudit_next `{Host} user act rt rid ok err md p ms :
  members_of (teamMemoryEngine p) = Ok ms ->
  exists e p',
    logAudit user act rt rid ok err md p = (Ok tt, p') /\
    permissionRules p' = permissionRules p /\
    accessRequests p' = accessRequests p /\
    same_store (teamMemoryEngine p) (teamMemoryEngine p') /\
    uuid_calls (engine (teamMemoryEngine p')) =
      1 + uuid_calls (engine (teamMemoryEngine p)) /\
    auditLogs p' = lastn MAX_AUDIT_LOGS (auditLogs p ++ [e]) /\
    userId e = user /\ audit_action e = act /\ success e = ok /\
    audit_metadata e = md.
Proof.
  intros Hms. unfold logAudit.
  rewrite (bind_getTeamMembers _ _ Hms).
  set (p1 := snd (new_uuid p)).
  assert (E1 : new_uuid p = (Ok (next_uuid p), p1)) by reflexivity.
  rewrite (bind_Ok _ _ _ E1).
  set (p2 := snd (new_Date p1)).
  assert (E2 : new_Date p1 = (Ok (date_now (dates_read p1)), p2))
    by reflexivity.
  rewrite (bind_Ok _ _ _ E2).
  unfold push_audit. rewrite cap_is_lastn.
  do 2 eexists. split; [reflexivity|]. simpl.
  repeat split; reflexivity.
Qed.

(** [createPermissionRule] with the drawn identifier and the counters made
    explicit: one identifier for the rule, one for its audit entry. *)
Lemma createPermissionRule_next `{Host} (nr : NewPermissionRule) p ms :
  members_of (teamMemoryEngine p) = Ok ms ->
  exists now e p',
    createPermissionRule nr p = (Ok (next_uuid p), p') /\
    permissionRules p' =
      map_set (next_uuid p) (rule_of_new nr (next_uuid p) now)
              (permissionRules p) /\
    accessRequests p' = accessRequests p /\
    same_store (teamMemoryEngine p) (teamMemoryEngine p') /\
    uuid_calls (engine (teamMemoryEngine p')) =
      2 + uuid_calls (engine (teamMemoryEngine p)) /\
    auditLogs p' = lastn MAX_AUDIT_LOGS (auditLogs p ++ [e]) /\
    audit_action e = "create_permission_rule" /\ success e = true.
Proof.
  intros Hms. unfold createPermissionRule.
  set (p1 := snd (new_uuid p)).
  assert (E1 : new_uuid p = (Ok (next_uuid p), p1)) by reflexivity.
  rewrite (bind_Ok _ _ _ E1).
  set (p2 := snd (new_Date p1)).
  assert (E2 : new_Date p1 = (Ok (date_now (dates_read p1)), p2))
    by reflexivity.
  rewrite (bind_Ok _ _ _ E2).
  match goal with
  | |- context [set_permissionRules ?f] =>
      set (p3 := snd (set_permissionRules f p2));
      assert (E3 : set_permissionRules f p2 = (Ok tt, p3)) by reflexivity
  end.
  rewrite (bind_Ok _ _ _ E3).
  assert (Hms3 : members_of (teamMemoryEngine p3) = Ok ms).
  { rewrite <- Hms. apply members_of_same_store. split; reflexivity. }
  destruct (logAudit_next (nr_createdBy nr) "create_permission_rule"
              "permission_rule" (next_uuid p) true None None p3 Hms3)
    as (e & p4 & E4 & R4 & A4 & S4 & U4 & L4 & _ & Ha & Hs & _).
  rewrite (bind_Ok _ _ _ E4).
  exists (date_now (dates_read p1)), e, p4.
  split; [reflexivity|].
  split; [rewrite R4; reflexivity|].
  split; [rewrite A4; reflexivity|].
  split; [destruct S4 as [S4a S4b]; split; [rewrite S4a|rewrite S4b];
          reflexivity|].
  split; [rewrite U4; reflexivity|].
  split; [rewrite L4; reflexivity|].
  split; assumption.
Qed.

Lemma deletePermissionRule_known `{Host} id by_ p ms rule :
  members_of (teamMemoryEngine p) = Ok ms ->
  map_get id (permissionRules p) = Some rule ->
  exists e p',
    deletePermissionRule id by_ p = (Ok true, p') /\
    permissionRules p' = map_set id (deactivate rule) (permissionRules p) /\
    accessRequests p' = accessRequests p /\
    same_store (teamMemoryEngine p) (teamMemoryEngine p') /\
    uuid_calls (engine (teamMemoryEngine p')) =
      1 + uuid_calls (engine (teamMemoryEngine p)) /\
    auditLogs p' = lastn MAX_AUDIT_LOGS (auditLogs p ++ [e]) /\
    audit_action e = "delete_permission_rule" /\ success e = true.
Proof.
  intros Hms Hg. unfold deletePermissionRule.
  rewrite (bind_Ok _ _ _ (get_state_eq p)), Hg.
  match goal with
  | |- context [set_permissionRules ?f] =>
      set (p1 := snd (set_permissionRules f p));
      assert (E1 : set_permissionRules f p = (Ok tt, p1)) by reflexivity
  end.
  rewrite (bind_Ok _ _ _ E1).
  assert (Hms1 : members_of (teamMemoryEngine p1) = Ok ms) by exact Hms.
  destruct (logAudit_next by_ "delete_permission_rule" "permission_rule" id
              true None None p1 Hms1)
    as (e & p2 & E2 & R2 & A2 & S2 & U2 & L2 & _ & Ha & Hs & _).
  rewrite (bind_Ok _ _ _ E2).
  exists e, p2.
  split; [reflexivity|].
  split; [rewrite R2; reflexivity|].
  split; [rewrite A2; reflexivity|].
  split; [exact S2|].
  split; [rewrite U2; reflexivity|].
  split; [rewrite L2; reflexivity|].
  split; assumption.
Qed.

Lemma deactivate_never_applies user rt rid rule :
  rule_applies user rt rid (deactivate rule) = false.
Proof. reflexivity. Qed.

(** X7.  Deleting a rule is a soft delete.  An unknown rule id is answered
    with [false] and changes nothing.  A rule that was just created under a
    fresh id and is then deleted stays stored (one more rule than before),
    but inactive: for every check, the rules that apply are exactly those
    that applied before the rule was created. *)
Theorem create_then_delete_rule `{Host} p ms nr deletedBy :
  members_of (teamMemoryEngine p) = Ok ms ->
  map_get (next_uuid p) (permissionRules p) = None ->
  deletePermissionRule (next_uuid p) deletedBy p = (Ok false, p) /\
  exists p1 p2,
    createPermissionRule nr p = (Ok (next_uuid p), p1) /\
    deletePermissionRule (next_uuid p) deletedBy p1 = (Ok true, p2) /\
    List.length (permissionRules p2) = S (List.length (permissionRules p)) /\
    (exists rule, map_get (next_uuid p) (permissionRules p2) = Some rule /\
                  isActive rule = false /\
                  permissions rule = nr_permissions nr) /\
    forall user rt rid,
      filter (rule_applies user rt rid) (map_values (permissionRules p2)) =
      filter (rule_applies user rt rid) (map_values (permissionRules p)).
Proof.
  intros Hms Hfresh. split.
  { unfold deletePermissionRule.
    now rewrite (bind_Ok _ _ _ (get_state_eq p)), Hfresh. }
  destruct (createPermissionRule_next nr p Hms)
    as (now & e & p1 & E1 & R1 & _ & S1 & _).
  rewrite (map_set_fresh _ _ _ Hfresh) in R1.
  assert (Hms1 : members_of (teamMemoryEngine p1) = Ok ms)
    by (now rewrite (members_of_same_store S1)).
  assert (G1 : map_get (next_uuid p) (permissionRules p1) =
               Some (rule_of_new nr (next_uuid p) now))
    by (rewrite R1; now apply map_get_last).
  destruct (deletePermissionRule_known (next_uuid p) deletedBy p1 Hms1 G1)
    as (e2 & p2 & E2 & R2 & _).
  rewrite R1, (map_set_last _ _ _ _ Hfresh) in R2.
  exists p1, p2. split; [exact E1|]. split; [exact E2|].
  rewrite R2. split; [rewrite length_app; simpl; lia|]. split.
  - eexists. split; [now apply map_get_last|]. split; reflexivity.
  - intros user rt rid. unfold map_values.
    rewrite map_app, filter_app. simpl. apply app_nil_r.
Qed.

Lemma create_then_delete_rule_witness :
  exists p1 p2,
    createPermissionRule
      {| nr_resourceType := "memory"; nr_resourceId := Some "id-3";
         nr_subjectType := "user"; nr_subjectId := "id-2";
         nr_permissions := [ {| action := act_write; granted := true |} ];
         nr_createdBy := "id-0"; nr_expiresAt := None;
         nr_conditions := None; nr_isActive := true |} example_engine =
      (Ok "id-6", p1) /\
    deletePermissionRule "id-6" "id-0" p1 = (Ok true, p2) /\
    List.length (permissionRules p2) = 1 /\
    filter (rule_applies "id-2" "memory" (Some "id-3"))
           (map_values (permissionRules p2)) = [].
Proof.
  assert (Hms : exists ms, members_of (teamMemoryEngine example_engine) = Ok ms)
    by (eexists; vm_compute; reflexivity).
  destruct Hms as [ms Hms].
  assert (Hnext : next_uuid example_engine = "id-6")
    by (vm_compute; reflexivity).
  destruct (@create_then_delete_rule example_host example_engine ms
              {| nr_resourceType := "memory"; nr_resourceId := Some "id-3";
                 nr_subjectType := "user"; nr_subjectId := "id-2";
                 nr_permissions :=
                   [ {| action := act_write; granted := true |} ];
                 nr_createdBy := "id-0"; nr_expiresAt := None;
                 nr_conditions := None; nr_isActive := true |} "id-0" Hms)
    as (_ & p1 & p2 & E1 & E2 & L & _ & F).
  - reflexivity.
  - rewrite Hnext in *. exists p1, p2.
    split; [exact E1|]. split; [exact E2|]. split; [exact L|].
    rewrite F. reflexivity.
Defined.

(** ** Sharing a memory *)

Lemma checkPermission_step `{Host} user a rt rid p ms b p' :
  members_of (teamMemoryEngine p) = Ok ms ->
  checkPermission user a rt rid p = (Ok b, p') ->
  exists e, audit_step e p p' /\ userId e = user /\ success e = b.
Proof.
  intros Hms E.
  destruct (checkPermission_resolves user a rt rid p Hms)
    as (b' & e & p2 & E' & St & Hu & Hs).
  rewrite E in E'. injection E' as -> ->. eauto.
Qed.

(** X8.  [shareMemory] and [revokeMemoryAccess] act only for a caller whose
    own check succeeds ([share], respectively [admin], on the memory): when
    that check returns [false] they return [false], no rule is created or
    deactivated, and the only trace is the audit entry of the refused
    check. *)
Theorem share_and_revoke_need_permission `{Host}
  p ms memoryId caller sharedWith perms message revokedFrom :
  members_of (teamMemoryEngine p) = Ok ms ->
  (fst (checkPermission caller act_share "memory" (Some memoryId) p) =
     Ok false ->
   exists e p',
     shareMemory memoryId caller sharedWith perms message p = (Ok false, p') /\
     permissionRules p' = permissionRules p /\
     auditLogs p' = lastn MAX_AUDIT_LOGS (auditLogs p ++ [e]) /\
     userId e = caller /\ success e = false) /\
  (fst (checkPermission caller act_admin "memory" (Some memoryId) p) =
     Ok false ->
   exists e p',
     revokeMemoryAccess memoryId caller revokedFrom p = (Ok false, p') /\
     permissionRules p' = permissionRules p /\
     auditLogs p' = lastn MAX_AUDIT_LOGS (auditLogs p ++ [e]) /\
     userId e = caller /\ success e = false).
Proof.
  intros Hms. split; intros Hcheck.
  - destruct (checkPermission caller act_share "memory" (Some memoryId) p)
      as [r p'] eqn:E.
    simpl in Hcheck. subst r.
    destruct (checkPermission_step _ _ _ _ p Hms E) as (e & St & Hu & Hs).
    exists e, p'. unfold shareMemory. rewrite (bind_Ok _ _ _ E). simpl.
    split; [reflexivity|]. split; [apply (step_rules St)|].
    split; [apply (step_logs St)|]. split; assumption.
  - destruct (checkPermission caller act_admin "memory" (Some memoryId) p)
      as [r p'] eqn:E.
    simpl in Hcheck. subst r.
    destruct (checkPermission_step _ _ _ _ p Hms E) as (e & St & Hu & Hs).
    exists e, p'. unfold revokeMemoryAccess. rewrite (bind_Ok _ _ _ E). simpl.
    split; [reflexivity|]. split; [apply (step_rules St)|].
    split; [apply (step_logs St)|]. split; assumption.
Qed.

Lemma share_and_revoke_need_permission_witness :
  (exists e p',
     shareMemory "id-3" "id-2" ["id-1"]
       [ {| action := act_write; granted := true |} ] None example_engine =
       (Ok false, p') /\
     permissionRules p' = permissionRules example_engine /\
     auditLogs p' = lastn MAX_AUDIT_LOGS (auditLogs example_engine ++ [e]) /\
     userId e = "id-2" /\ success e = false) /\
  (exists e p',
     revokeMemoryAccess "id-3" "id-2" "id-1" example_engine = (Ok false, p') /\
     permissionRules p' = permissionRules example_engine /\
     auditLogs p' = lastn MAX_AUDIT_LOGS (auditLogs example_engine ++ [e]) /\
     userId e = "id-2" /\ success e = false).
Proof.
  assert (Hms : exists ms, members_of (teamMemoryEngine example_engine) = Ok ms)
    by (eexists; vm_compute; reflexivity).
  destruct Hms as [ms Hms].
  destruct (@share_and_revoke_need_permission example_host example_engine ms
              "id-3" "id-2" ["id-1"]
              [ {| action := act_write; granted := true |} ] None "id-1" Hms)
    as [Hshare Hrevoke].
  split.
  - apply Hshare. vm_compute. reflexivity.
  - apply Hrevoke. vm_compute. reflexivity.
Defined.

Lemma In_map_set_pair {V} (k : string) (v : V) (m : list (string * V)) :
  In (k, v) (map_set k v m).
Proof.
  induction m as [|[k' v'] t IH]; simpl; [now left|].
  destruct (String.eqb k' k); simpl; auto.
Qed.

Lemma In_map_set_other {V} (k k' : string) (v v' : V) (m : list (string * V)) :
  k' <> k -> In (k', v') m -> In (k', v') (map_set k v m).
Proof.
  intros Hne. induction m as [|[k0 v0] t IH]; simpl; [tauto|].
  intros [E|Hin].
  - injection E as -> ->.
    apply String.eqb_neq in Hne. rewrite Hne. now left.
  - destruct (String.eqb k0 k); simpl; auto.
Qed.

(** The rule [shareMemory] creates for one recipient. *)
Definition share_rule (memoryId sharedBy : string) (perms : list Permission)
  (user id : string) (now : nat) : PermissionRule :=
  rule_of_new
    {| nr_resourceType := "memory"; nr_resourceId := Some memoryId;
       nr_subjectType := "user"; nr_subjectId := user;
       nr_permissions := perms; nr_createdBy := sharedBy;
       nr_expiresAt := None; nr_conditions := None; nr_isActive := true |}
    id now.

Definition uuid_count (p : MemoryPermissionsEngine) : nat :=
  uuid_calls (engine (teamMemoryEngine p)).

Lemma share_loop `{Host} ms memoryId sharedBy perms sharedWith :
  (forall i j, uuid_v4 i = uuid_v4 j -> i = j) ->
  forall q,
    members_of (teamMemoryEngine q) = Ok ms ->
    exists q',
      for_each sharedWith (fun user =>
        createPermissionRule
          {| nr_resourceType := "memory"; nr_resourceId := Some memoryId;
             nr_subjectType := "user"; nr_subjectId := user;
             nr_permissions := perms; nr_createdBy := sharedBy;
             nr_expiresAt := None; nr_conditions := None;
             nr_isActive := true |} ;;;
        ret tt) q = (Ok tt, q') /\
      same_store (teamMemoryEngine q) (teamMemoryEngine q') /\
      uuid_count q <= uuid_count q' /\
      (forall r, In r (map_values (permissionRules q')) ->
         In r (map_values (permissionRules q)) \/
         exists user id now,
           In user sharedWith /\
           r = share_rule memoryId sharedBy perms user id now) /\
      (forall user, In user sharedWith ->
         exists i now,
           uuid_count q <= i /\ i < uuid_count q' /\
           In (uuid_v4 i,
               share_rule memoryId sharedBy perms user (uuid_v4 i) now)
              (permissionRules q')) /\
      (forall i v, i < uuid_count q ->
         In (uuid_v4 i, v) (permissionRules q) ->
         In (uuid_v4 i, v) (permissionRules q')).
Proof.
  intros Hinj. induction sharedWith as [|x t IH]; intros q Hms.
  - exists q. simpl. split; [reflexivity|]. split; [apply same_store_refl|].
    split; [lia|]. split; [auto|]. split; [intros user []|auto].
  - simpl for_each.
    match goal with
    | |- context [createPermissionRule ?nr] =>
        destruct (createPermissionRule_next nr q Hms)
          as (now & e & q1 & E1 & R1 & _ & S1 & U1 & _)
    end.
    fold (uuid_count q1) in U1. fold (uuid_count q) in U1.
    assert (Hms1 : members_of (teamMemoryEngine q1) = Ok ms)
      by (now rewrite (members_of_same_store S1)).
    destruct (IH q1 Hms1) as (q' & E' & S' & U' & I1 & I2 & Pres).
    exists q'. split.
    { rewrite (bind_Ok _ _ _ (bind_Ok _ _ _ E1)). exact E'. }
    split; [eapply same_store_trans; eauto|]. split; [lia|].
    assert (Hkeep : forall i v, i < uuid_count q ->
              In (uuid_v4 i, v) (permissionRules q) ->
              In (uuid_v4 i, v) (permissionRules q1)).
    { intros i v Hi Hin. rewrite R1. apply In_map_set_other; [|exact Hin].
      intros Heq. apply Hinj in Heq. unfold uuid_count in Hi. lia. }
    split; [|split].
    + intros r Hr. destruct (I1 r Hr) as [Hold|(user & id & now' & Hu & ->)].
      * rewrite R1 in Hold. apply In_map_set_inv in Hold.
        destruct Hold as [->|Hold]; [|now left].
        right. exists x, (next_uuid q), now. split; [now left|reflexivity].
      * right. exists user, id, now'. split; [now right|reflexivity].
    + intros user [<-|Hu].
      * exists (uuid_count q), now. split; [lia|]. split; [lia|].
        apply Pres; [lia|]. rewrite R1. apply In_map_set_pair.
      * destruct (I2 user Hu) as (i & now' & Hi1 & Hi2 & Hin).
        exists i, now'. split; [lia|]. split; [exact Hi2|exact Hin].
    + intros i v Hi Hin. apply Pres; [lia|]. now apply Hkeep.
Qed.

Lemma first_decisive_rule_uniform `{Host} rules perm user a rt rid p :
  (forall r, In r rules ->
     find (fun q => Action_eqb (action q) a) (permissions r) = None \/
     (find (fun q => Action_eqb (action q) a) (permissions r) = Some perm /\
      conditions r = None)) ->
  (exists r, In r rules /\
     find (fun q => Action_eqb (action q) a) (permissions r) = Some perm) ->
  first_decisive_rule rules user a rt rid p = (Ok (Some (granted perm)), p).
Proof.
  intros Hall Hex. induction rules as [|r t IH].
  - destruct Hex as (r & [] & _).
  - simpl. destruct (Hall r (or_introl eq_refl)) as [Hn|[Hs Hc]].
    + rewrite Hn. apply IH.
      * intros r' Hr'. apply Hall. now right.
      * destruct Hex as (r' & [<-|Hin] & Hf); [congruence|eauto].
    + rewrite Hs, Hc. reflexivity.
Qed.

Lemma share_rule_applies memoryId sharedBy perms user id now :
  rule_applies user "memory" (Some memoryId)
    (share_rule memoryId sharedBy perms user id now) = true.
Proof.
  unfold rule_applies, share_rule, rule_of_new, opt_eqb. simpl.
  rewrite !String.eqb_refl. simpl. apply Bool.orb_true_r.
Qed.

(** X9.  When the sharer's own [share] check succeeds (and [uuid.v4] never
    repeats), [shareMemory] returns [true]; every rule it adds is an
    active rule of one of the recipients on that memory carrying the shared
    permissions; and every recipient who is a team member is then answered,
    for an action listed in the shared permissions, with the [granted] flag
    listed for it, provided no rule that applied to that recipient before
    has an entry for the action. *)
Theorem shareMemory_grants_recipients `{Host}
  p ms memoryId sharedBy sharedWith perms message :
  members_of (teamMemoryEngine p) = Ok ms ->
  (forall i j, uuid_v4 i = uuid_v4 j -> i = j) ->
  fst (checkPermission sharedBy act_share "memory" (Some memoryId) p) =
    Ok true ->
  exists p',
    shareMemory memoryId sharedBy sharedWith perms message p = (Ok true, p') /\
    (forall r, In r (map_values (permissionRules p')) ->
       In r (map_values (permissionRules p)) \/
       (In (subjectId r) sharedWith /\ resourceType r = "memory" /\
        resourceId r = Some memoryId /\ permissions r = perms /\
        isActive r = true /\ conditions r = None /\
        rule_createdBy r = sharedBy)) /\
    (forall user a perm u,
       In user sharedWith ->
       find_member user ms = Some u ->
       find (fun q => Action_eqb (action q) a) perms = Some perm ->
       (forall rule,
          In rule (map_values (permissionRules p)) ->
          rule_applies user "memory" (Some memoryId) rule = true ->
          find (fun q => Action_eqb (action q) a) (permissions rule) = None) ->
       fst (checkPermission user a "memory" (Some memoryId) p') =
         Ok (granted perm)).
Proof.
  intros Hms Hinj Hcheck.
  destruct (checkPermission sharedBy act_share "memory" (Some memoryId) p)
    as [r0 p0] eqn:E0.
  simpl in Hcheck. subst r0.
  destruct (checkPermission_step _ _ _ _ p Hms E0) as (e0 & St0 & _).
  assert (Hms0 : members_of (teamMemoryEngine p0) = Ok ms)
    by (now rewrite (members_of_same_store (step_store St0))).
  destruct (share_loop memoryId sharedBy perms sharedWith Hinj p0 Hms0)
    as (q & Eq & Sq & _ & I1 & I2 & _).
  assert (Hmsq : members_of (teamMemoryEngine q) = Ok ms)
    by (now rewrite (members_of_same_store Sq)).
  destruct (logAudit_next sharedBy "share_memory" "memory" memoryId true
              None
              (Some (json_object
                       [("sharedWith",
                         Some (json_array (map json_string sharedWith)));
                        ("message", option_map json_string message)]))
              q Hmsq)
    as (e & p' & El & Rl & _ & Sl & _).
  assert (Hmsp : members_of (teamMemoryEngine p') = Ok ms)
    by (now rewrite (members_of_same_store Sl)).
  exists p'. split.
  { unfold shareMemory. rewrite (bind_Ok _ _ _ E0).
    change (negb true) with false. cbv iota.
    rewrite (bind_Ok _ _ _ Eq), (bind_Ok _ _ _ El). reflexivity. }
  rewrite Rl. split.
  - intros r Hr. destruct (I1 r Hr) as [Hold|(user & id & now & Hu & ->)].
    + left. now rewrite <- (step_rules St0).
    + right. simpl. repeat split; auto.
  - intros user a perm u Hu Hmember Hperm Hsilent.
    destruct (members_of_Ok_open _ Hmsp) as [d Hd].
    destruct (memories_of_open _ Hd) as [mems Hmem].
    assert (Hex : checkExplicitPermissions user a "memory" (Some memoryId) p' =
                  (Ok (Some (granted perm)), p')).
    { unfold checkExplicitPermissions.
      rewrite (bind_Ok _ _ _ (get_state_eq p')), Rl.
      apply first_decisive_rule_uniform.
      - intros r Hr. apply filter_In in Hr. destruct Hr as [Hr Happ].
        destruct (I1 r Hr) as [Hold|(user' & id & now & _ & ->)].
        + left. apply Hsilent; [|exact Happ].
          now rewrite <- (step_rules St0).
        + right. split; [exact Hperm|reflexivity].
      - destruct (I2 user Hu) as (i & now & _ & _ & Hin).
        exists (share_rule memoryId sharedBy perms user (uuid_v4 i) now).
        split; [|exact Hperm].
        apply filter_In. split; [|apply share_rule_applies].
        unfold map_values. apply in_map_iff.
        eexists. split; [|exact Hin]. reflexivity. }
    destruct (checkPermission_member _ a _ _ p' Hmsp Hmember Hmem Hex)
      as (e' & p'' & -> & _).
    reflexivity.
Qed.

Lemma decimal_injective (i j : nat) : decimal i = decimal j -> i = j.
Proof.
  unfold decimal. intros E.
  apply (f_equal DecimalString.NilEmpty.uint_of_string) in E.
  rewrite !DecimalString.NilEmpty.usu in E. injection E as E.
  rewrite <- (DecimalNat.Unsigned.of_to i), <- (DecimalNat.Unsigned.of_to j).
  now rewrite E.
Qed.

Lemma example_uuid_injective (i j : nat) :
  @uuid_v4 example_host i = @uuid_v4 example_host j -> i = j.
Proof.
  simpl. intros E. injection E as E. now apply decimal_injective.
Qed.

Lemma shareMemory_grants_recipients_witness :
  exists p',
    shareMemory "id-3" "id-0" ["id-2"]
      [ {| action := act_write; granted := true |} ] (Some "please review")
      example_engine = (Ok true, p') /\
    fst (checkPermission "id-2" act_write "memory" (Some "id-3") p') =
      Ok true.
Proof.
  assert (Hms : exists ms,
             members_of (teamMemoryEngine example_engine) = Ok ms /\
             exists u, find_member "id-2" ms = Some u).
  { eexists. split; [vm_compute; reflexivity|].
    eexists. vm_compute. reflexivity. }
  destruct Hms as (ms & Hms & u & Hu).
  destruct (@shareMemory_grants_recipients example_host example_engine ms
              "id-3" "id-0" ["id-2"]
              [ {| action := act_write; granted := true |} ]
              (Some "please review") Hms example_uuid_injective)
    as (p' & E & _ & Hgrant).
  - vm_compute. reflexivity.
  - exists p'. split; [exact E|].
    apply (Hgrant "id-2" act_write {| action := act_write; granted := true |}
             u (or_introl eq_refl) Hu eq_refl).
    assert (Hrules : permissionRules example_engine = []) by reflexivity.
    rewrite Hrules. intros rule [].
Defined.

(** ** Revoking access *)

(** The rules stored under the keys [ks] switched off, the others kept. *)
Definition deactivate_keys (ks : list string)
  (m : list (string * PermissionRule)) : list (string * PermissionRule) :=
  map (fun kv => if includes ks (fst kv)
                 then (fst kv, deactivate (snd kv)) else kv) m.

Lemma deactivate_keys_fst ks m : map fst (deactivate_keys ks m) = map fst m.
Proof.
  unfold deactivate_keys. rewrite map_map. apply map_ext.
  intros [k v]. simpl. now destruct (includes ks k).
Qed.

Lemma map_get_In_key {V} (k : string) (m : list (string * V)) :
  In k (map fst m) -> exists v, map_get k m = Some v.
Proof.
  intros Hin. destruct (map_get k m) as [v|] eqn:E; [eauto|].
  apply in_map_iff in Hin. destruct Hin as (kv & <- & Hin).
  rewrite map_get_None in E. specialize (E kv Hin).
  now rewrite String.eqb_refl in E.
Qed.

Lemma deactivate_keys_absent k m :
  ~ In k (map fst m) -> deactivate_keys [k] m = m.
Proof.
  induction m as [|[k0 v0] t IH]; intros Hn; simpl; [reflexivity|].
  destruct (String.eqb k0 k) eqn:E.
  - apply String.eqb_eq in E. exfalso. apply Hn. now left.
  - simpl. f_equal. apply IH. intros Hin. apply Hn. now right.
Qed.

Lemma map_set_deactivate k v m :
  NoDup (map fst m) -> map_get k m = Some v ->
  map_set k (deactivate v) m = deactivate_keys [k] m.
Proof.
  induction m as [|[k0 v0] t IH]; intros Hnd Hg; [discriminate|].
  inversion Hnd as [|x l Hnotin Hnd' Heq]; subst.
  unfold map_get in Hg. simpl in *.
  destruct (String.eqb k0 k) eqn:E; simpl in *.
  - injection Hg as <-. apply String.eqb_eq in E. subst k0.
    f_equal. symmetry. now apply deactivate_keys_absent.
  - f_equal. now apply IH.
Qed.

Lemma deactivate_keys_cons k ks m :
  deactivate_keys ks (deactivate_keys [k] m) = deactivate_keys (k :: ks) m.
Proof.
  unfold deactivate_keys. rewrite map_map. apply map_ext.
  intros [k0 v0]. simpl.
  destruct (String.eqb k0 k); simpl; destruct (includes ks k0); reflexivity.
Qed.

Lemma revoke_loop `{Host} ms revokedBy rules :
  forall q,
    members_of (teamMemoryEngine q) = Ok ms ->
    NoDup (map fst (permissionRules q)) ->
    (forall r, In r rules -> In (rule_id r) (map fst (permissionRules q))) ->
    exists q',
      for_each rules (fun rule =>
        deletePermissionRule (rule_id rule) revokedBy ;;; ret tt) q =
        (Ok tt, q') /\
      same_store (teamMemoryEngine q) (teamMemoryEngine q') /\
      permissionRules q' =
        deactivate_keys (map rule_id rules) (permissionRules q).
Proof.
  induction rules as [|r t IH]; intros q Hms Hnd Hkeys.
  - exists q. split; [reflexivity|]. split; [apply same_store_refl|].
    unfold deactivate_keys. simpl. symmetry. apply map_id.
  - simpl for_each.
    destruct (map_get_In_key _ _ (Hkeys r (or_introl eq_refl))) as [v Hg].
    destruct (deletePermissionRule_known (rule_id r) revokedBy q Hms Hg)
      as (e & q1 & E1 & R1 & _ & S1 & _).
    rewrite (@map_set_deactivate _ _ _ Hnd Hg) in R1.
    assert (Hms1 : members_of (teamMemoryEngine q1) = Ok ms)
      by (now rewrite (members_of_same_store S1)).
    destruct (IH q1 Hms1) as (q' & E' & S' & R').
    + rewrite R1, deactivate_keys_fst. exact Hnd.
    + intros r' Hr'. rewrite R1, deactivate_keys_fst. apply Hkeys. now right.
    + exists q'. split.
      { rewrite (bind_Ok _ _ _ (bind_Ok _ _ _ E1)). exact E'. }
      split; [eapply same_store_trans; eauto|].
      rewrite R', R1. apply deactivate_keys_cons.
Qed.

(** X10.  When the caller's [admin] check on the memory succeeds,
    [revokeMemoryAccess] returns [true] and afterwards no explicit rule
    applies to the revoked user on that memory; no rule is removed (the
    rules are switched off, not deleted), and every rule of another user,
    of another resource type or on another resource is still stored as it
    was.  The statement is for a rule map in which every rule is stored
    under its own id, and for non-empty memory and user ids. *)
Theorem revokeMemoryAccess_switches_rules_off `{Host}
  p ms memoryId revokedBy revokedFrom :
  members_of (teamMemoryEngine p) = Ok ms ->
  NoDup (map fst (permissionRules p)) ->
  (forall kv, In kv (permissionRules p) -> rule_id (snd kv) = fst kv) ->
  truthy memoryId = true -> truthy revokedFrom = true ->
  fst (checkPermission revokedBy act_admin "memory" (Some memoryId) p) =
    Ok true ->
  exists p',
    revokeMemoryAccess memoryId revokedBy revokedFrom p = (Ok true, p') /\
    filter (rule_applies revokedFrom "memory" (Some memoryId))
           (map_values (permissionRules p')) = [] /\
    map fst (permissionRules p') = map fst (permissionRules p) /\
    (forall kv, In kv (permissionRules p) ->
       subjectId (snd kv) <> revokedFrom \/
       resourceType (snd kv) <> "memory" \/
       resourceId (snd kv) <> Some memoryId ->
       In kv (permissionRules p')).
Proof.
  intros Hms Hnd Hids Htm Htu Hcheck.
  destruct (checkPermission revokedBy act_admin "memory" (Some memoryId) p)
    as [r0 p0] eqn:E0.
  simpl in Hcheck. subst r0.
  destruct (checkPermission_step _ _ _ _ p Hms E0) as (e0 & St0 & _).
  assert (Hms0 : members_of (teamMemoryEngine p0) = Ok ms)
    by (now rewrite (members_of_same_store (step_store St0))).
  pose proof (step_rules St0) as R0.
  set (selected :=
         filter (fun r => Bool.eqb (isActive r) true)
           (filter (fun r => opt_eqb (Some (subjectId r)) (Some revokedFrom))
              (filter (fun r => opt_eqb (resourceId r) (Some memoryId))
                 (filter (fun r => opt_eqb (Some (resourceType r))
                                           (Some "memory"))
                         (map_values (permissionRules p)))))).
  assert (Eg : getPermissionRules
                 (Some {| rf_resourceType := Some "memory";
                          rf_resourceId := Some memoryId;
                          rf_subjectId := Some revokedFrom;
                          rf_isActive := Some true |}) p0 =
               (Ok selected, p0)).
  { unfold getPermissionRules. rewrite (bind_Ok _ _ _ (get_state_eq p0)).
    unfold keep_if_truthy. simpl. rewrite Htm, Htu, R0. reflexivity. }
  assert (Hsel : forall r, In r selected ->
            In r (map_values (permissionRules p)) /\
            resourceType r = "memory" /\ resourceId r = Some memoryId /\
            subjectId r = revokedFrom /\ isActive r = true).
  { intros r Hr. subst selected.
    repeat (apply filter_In in Hr; destruct Hr as [Hr ?]).
    split; [exact Hr|].
    repeat match goal with
           | Hx : opt_eqb (Some _) (Some _) = true |- _ =>
               simpl in Hx; apply String.eqb_eq in Hx
           | Hx : Bool.eqb _ true = true |- _ => apply Bool.eqb_prop in Hx
           end.
    repeat split; try assumption.
    destruct (resourceId r) as [x|]; simpl in *; [|discriminate].
    f_equal. now apply String.eqb_eq. }
  destruct (revoke_loop revokedBy selected p0 Hms0) as (q & Eq & Sq & Rq).
  { now rewrite R0. }
  { intros r Hr. rewrite R0. destruct (Hsel r Hr) as [Hin _].
    unfold map_values in Hin. apply in_map_iff in Hin.
    destruct Hin as (kv & <- & Hin). rewrite (Hids kv Hin).
    now apply in_map. }
  assert (Hmsq : members_of (teamMemoryEngine q) = Ok ms)
    by (now rewrite (members_of_same_store Sq)).
  destruct (logAudit_next revokedBy "revoke_memory_access" "memory" memoryId
              true None
              (Some (json_object
                       [("revokedFrom", Some (json_string revokedFrom))]))
              q Hmsq)
    as (e & p' & El & Rl & _).
  exists p'. split.
  { unfold revokeMemoryAccess. rewrite (bind_Ok _ _ _ E0).
    change (negb true) with false. cbv iota.
    rewrite (bind_Ok _ _ _ Eg), (bind_Ok _ _ _ Eq), (bind_Ok _ _ _ El).
    reflexivity. }
  rewrite Rl, Rq, R0. split; [|split].
  - apply filter_none. intros r Hr. unfold map_values in Hr.
    apply in_map_iff in Hr. destruct Hr as (kv' & <- & Hin').
    unfold deactivate_keys in Hin'. apply in_map_iff in Hin'.
    destruct Hin' as (kv & <- & Hin).
    destruct (includes (map rule_id selected) (fst kv)) eqn:Einc;
      [reflexivity|]. simpl.
    destruct (rule_applies revokedFrom "memory" (Some memoryId) (snd kv))
      eqn:Happ; [|reflexivity].
    exfalso. unfold rule_applies in Happ.
    apply Bool.andb_true_iff in Happ. destruct Happ as [Happ Hres].
    apply Bool.andb_true_iff in Happ. destruct Happ as [Happ Hsub].
    apply Bool.andb_true_iff in Happ. destruct Happ as [Hact Hty].
    apply Bool.andb_true_iff in Hsub. destruct Hsub as [_ Hsub].
    simpl in Hres. rewrite Htm in Hres. simpl in Hres.
    assert (Hin_sel : In (snd kv) selected).
    { subst selected. repeat (apply filter_In; split).
      - unfold map_values. now apply in_map.
      - simpl. exact Hty.
      - exact Hres.
      - simpl. exact Hsub.
      - rewrite Hact. reflexivity. }
    assert (Hk : includes (map rule_id selected) (fst kv) = true).
    { apply includes_In. rewrite <- (Hids kv Hin). now apply in_map. }
    congruence.
  - apply deactivate_keys_fst.
  - intros kv Hin Hother. unfold deactivate_keys. apply in_map_iff.
    exists kv. split; [|exact Hin].
    destruct (includes (map rule_id selected) (fst kv)) eqn:Einc;
      [|reflexivity].
    exfalso. apply includes_In in Einc. apply in_map_iff in Einc.
    destruct Einc as (r & Hr & Hrin).
    destruct (Hsel r Hrin) as (Hrv & Hty & Hres & Hsub & _).
    unfold map_values in Hrv. apply in_map_iff in Hrv.
    destruct Hrv as (kv2 & <- & Hin2).
    assert (Hsame : kv2 = kv).
    { rewrite (Hids kv2 Hin2) in Hr.
      clear - Hnd Hin Hin2 Hr. induction (permissionRules p) as [|x t IH];
        [destruct Hin|].
      inversion Hnd as [|y l Hnotin Hnd' Heq]; subst.
      destruct Hin as [->|Hin], Hin2 as [->|Hin2]; auto.
      - exfalso. apply Hnotin. rewrite <- Hr. now apply in_map.
      - exfalso. apply Hnotin. rewrite Hr. now apply in_map. }
    subst kv2. destruct Hother as [Ho|[Ho|Ho]]; congruence.
Qed.

(** Alice has shared her memory [id-3] with Olga, with the right to write. *)
Definition olga_was_shared : MemoryPermissionsEngine :=
  snd (shareMemory "id-3" "id-0" ["id-2"]
         [ {| action := act_write; granted := true |} ] (Some "please review")
         example_engine).

Lemma revokeMemoryAccess_switches_rules_off_witness :
  exists p',
    revokeMemoryAccess "id-3" "id-0" "id-2" olga_was_shared = (Ok true, p') /\
    filter (rule_applies "id-2" "memory" (Some "id-3"))
           (map_values (permissionRules p')) = [] /\
    map fst (permissionRules p') = ["id-7"].
Proof.
  assert (Hms : exists ms, members_of (teamMemoryEngine olga_was_shared) = Ok ms)
    by (eexists; vm_compute; reflexivity).
  destruct Hms as [ms Hms].
  assert (Hrules : exists r, permissionRules olga_was_shared = [("id-7", r)] /\
                             rule_id r = "id-7").
  { eexists. split; vm_compute; reflexivity. }
  destruct Hrules as (r & Hrules & Hid).
  destruct (@revokeMemoryAccess_switches_rules_off example_host
              olga_was_shared ms "id-3" "id-0" "id-2" Hms)
    as (p' & E & F & K & _).
  - rewrite Hrules. simpl. constructor; [intros []|constructor].
  - rewrite Hrules. intros kv [<-|[]]. exact Hid.
  - reflexivity.
  - reflexivity.
  - vm_compute. reflexivity.
  - exists p'. split; [exact E|]. split; [exact F|].
    rewrite K, Hrules. reflexivity.
Defined.

(** * Properties of [bulkUpdatePermissions] *)

(** The rule [bulkUpdatePermissions] creates for one update. *)
Definition bulk_rule (updatedBy : string) (update : BulkUpdate)
  (id : string) (now : nat) : PermissionRule :=
  rule_of_new
    {| nr_resourceType := bu_resourceType update;
       nr_resourceId := bu_resourceId update;
       nr_subjectType := "user"; nr_subjectId := bu_userId update;
       nr_permissions := bu_permissions update; nr_createdBy := updatedBy;
       nr_expiresAt := None; nr_conditions := None; nr_isActive := true |}
    id now.

Lemma bulk_loop `{Host} ms updatedBy updates :
  (forall i j, uuid_v4 i = uuid_v4 j -> i = j) ->
  forall q,
    members_of (teamMemoryEngine q) = Ok ms ->
    exists q',
      for_each updates (fun update =>
        createPermissionRule
          {| nr_resourceType := bu_resourceType update;
             nr_resourceId := bu_resourceId update;
             nr_subjectType := "user"; nr_subjectId := bu_userId update;
             nr_permissions := bu_permissions update;
             nr_createdBy := updatedBy;
             nr_expiresAt := None; nr_conditions := None;
             nr_isActive := true |} ;;;
        ret tt) q = (Ok tt, q') /\
      same_store (teamMemoryEngine q) (teamMemoryEngine q') /\
      uuid_count q <= uuid_count q' /\
      (forall r, In r (map_values (permissionRules q')) ->
         In r (map_values (permissionRules q)) \/
         exists update id now,
           In update updates /\ r = bulk_rule updatedBy update id now) /\
      (forall update, In update updates ->
         exists i now,
           uuid_count q <= i /\ i < uuid_count q' /\
           In (uuid_v4 i, bulk_rule updatedBy update (uuid_v4 i) now)
              (permissionRules q')) /\
      (forall i v, i < uuid_count q ->
         In (uuid_v4 i, v) (permissionRules q) ->
         In (uuid_v4 i, v) (permissionRules q')).
Proof.
  intros Hinj. induction updates as [|x t IH]; intros q Hms.
  - exists q. simpl. split; [reflexivity|]. split; [apply same_store_refl|].
    split; [lia|]. split; [auto|]. split; [intros update []|auto].
  - simpl for_each.
    match goal with
    | |- context [createPermissionRule ?nr] =>
        destruct (createPermissionRule_next nr q Hms)
          as (now & e & q1 & E1 & R1 & _ & S1 & U1 & _)
    end.
    fold (uuid_count q1) in U1. fold (uuid_count q) in U1.
    assert (Hms1 : members_of (teamMemoryEngine q1) = Ok ms)
      by (now rewrite (members_of_same_store S1)).
    destruct (IH q1 Hms1) as (q' & E' & S' & U' & I1 & I2 & Pres).
    exists q'. split.
    { rewrite (bind_Ok _ _ _ (bind_Ok _ _ _ E1)). exact E'. }
    split; [eapply same_store_trans; eauto|]. split; [lia|].
    assert (Hkeep : forall i v, i < uuid_count q ->
              In (uuid_v4 i, v) (permissionRules q) ->
              In (uuid_v4 i, v) (permissionRules q1)).
    { intros i v Hi Hin. rewrite R1. apply In_map_set_other; [|exact Hin].
      intros Heq. apply Hinj in Heq. unfold uuid_count in Hi. lia. }
    split; [|split].
    + intros r Hr.
      destruct (I1 r Hr) as [Hold|(update & id & now' & Hu & ->)].
      * rewrite R1 in Hold. apply In_map_set_inv in Hold.
        destruct Hold as [->|Hold]; [|now left].
        right. exists x, (next_uuid q), now. split; [now left|reflexivity].
      * right. exists update, id, now'. split; [now right|reflexivity].
    + intros update [<-|Hu].
      * exists (uuid_count q), now. split; [lia|]. split; [lia|].
        apply Pres; [lia|]. rewrite R1. apply In_map_set_pair.
      * destruct (I2 update Hu) as (i & now' & Hi1 & Hi2 & Hin).
        exists i, now'. split; [lia|]. split; [exact Hi2|exact Hin].
    + intros i v Hi Hin. apply Pres; [lia|]. now apply Hkeep.
Qed.

(** X23.  [bulkUpdatePermissions] asks for no permission.  Whoever
    [updatedBy] is, a member or not, it returns [true] (provided the team
    members can be read, for the audit entry, and [uuid.v4] never repeats)
    and stores one active, condition-free rule per update.  A team member
    named in an update is then answered, for an action the update lists,
    with the [granted] flag listed, provided no rule that applied before has
    an entry for the action and the other updates of the call agree on
    it. *)
Theorem bulkUpdatePermissions_asks_no_permission `{Host}
  p ms updates updatedBy :
  members_of (teamMemoryEngine p) = Ok ms ->
  (forall i j, uuid_v4 i = uuid_v4 j -> i = j) ->
  exists p',
    bulkUpdatePermissions updates updatedBy p = (Ok true, p') /\
    (forall update, In update updates ->
       exists id now,
         In (id, bulk_rule updatedBy update id now) (permissionRules p')) /\
    (forall update a perm u,
       In update updates ->
       find_member (bu_userId update) ms = Some u ->
       find (fun q => Action_eqb (action q) a) (bu_permissions update) =
         Some perm ->
       (forall rule,
          In rule (map_values (permissionRules p)) ->
          rule_applies (bu_userId update) (bu_resourceType update)
                       (bu_resourceId update) rule = true ->
          find (fun q => Action_eqb (action q) a) (permissions rule) = None) ->
       (forall other, In other updates ->
          find (fun q => Action_eqb (action q) a) (bu_permissions other) =
            None \/
          find (fun q => Action_eqb (action q) a) (bu_permissions other) =
            Some perm) ->
       fst (checkPermission (bu_userId update) a (bu_resourceType update)
                            (bu_resourceId update) p') =
         Ok (granted perm)).
Proof.
  intros Hms Hinj.
  destruct (bulk_loop updatedBy updates Hinj p Hms)
    as (q & Eq & Sq & _ & I1 & I2 & _).
  assert (Hmsq : members_of (teamMemoryEngine q) = Ok ms)
    by (now rewrite (members_of_same_store Sq)).
  destruct (logAudit_next updatedBy "bulk_update_permissions"
              "permission_rule" "bulk" true None
              (Some (json_object
                       [("count", Some (decimal (List.length updates)))]))
              q Hmsq)
    as (e & p' & El & Rl & _ & Sl & _).
  assert (Hmsp : members_of (teamMemoryEngine p') = Ok ms)
    by (now rewrite (members_of_same_store Sl)).
  exists p'. split.
  { unfold bulkUpdatePermissions.
    rewrite (bind_Ok _ _ _ Eq), (bind_Ok _ _ _ El). reflexivity. }
  rewrite Rl. split.
  - intros update Hu. destruct (I2 update Hu) as (i & now & _ & _ & Hin).
    eauto.
  - intros update a perm u Hu Hmember Hperm Hsilent Hagree.
    destruct (members_of_Ok_open _ Hmsp) as [d Hd].
    destruct (memories_of_open _ Hd) as [mems Hmem].
    assert (Hex : checkExplicitPermissions (bu_userId update) a
                    (bu_resourceType update) (bu_resourceId update) p' =
                  (Ok (Some (granted perm)), p')).
    { unfold checkExplicitPermissions.
      rewrite (bind_Ok _ _ _ (get_state_eq p')), Rl.
      apply first_decisive_rule_uniform.
      - intros r Hr. apply filter_In in Hr. destruct Hr as [Hr Happ].
        destruct (I1 r Hr) as [Hold|(other & id & now & Ho & ->)].
        + left. now apply Hsilent.
        + destruct (Hagree other Ho) as [Hn|Hs]; [left; exact Hn|].
          right. split; [exact Hs|reflexivity].
      - destruct (I2 update Hu) as (i & now & _ & _ & Hin).
        exists (bulk_rule updatedBy update (uuid_v4 i) now).
        split; [|exact Hperm].
        apply filter_In. split.
        + unfold map_values. apply in_map_iff.
          eexists. split; [|exact Hin]. reflexivity.
        + unfold rule_applies, bulk_rule, rule_of_new. simpl.
          rewrite !String.eqb_refl. simpl.
          destruct (bu_resourceId update) as [rid|]; simpl;
            [|reflexivity].
          rewrite String.eqb_refl. apply Bool.orb_true_r. }
    destruct (checkPermission_member _ a _ _ p' Hmsp Hmember Hmem Hex)
      as (e' & p'' & -> & _).
    reflexivity.
Qed.

Lemma bulkUpdatePermissions_asks_no_permission_witness :
  fst (checkPermission "id-2" act_delete "memory" (Some "id-5")
         example_engine) = Ok false /\
  exists p',
    bulkUpdatePermissions
      [ {| bu_resourceType := "memory"; bu_resourceId := Some "id-5";
           bu_userId := "id-2";
           bu_permissions := [ {| action := act_delete; granted := true |} ]
        |} ] "id-2" example_engine = (Ok true, p') /\
    fst (checkPermission "id-2" act_delete "memory" (Some "id-5") p') =
      Ok true.
Proof.
  split; [vm_compute; reflexivity|].
  assert (Hms : exists ms,
             members_of (teamMemoryEngine example_engine) = Ok ms /\
             exists u, find_member "id-2" ms = Some u).
  { eexists. split; [vm_compute; reflexivity|].
    eexists. vm_compute. reflexivity. }
  destruct Hms as (ms & Hms & u & Hu).
  destruct (@bulkUpdatePermissions_asks_no_permission example_host
              example_engine ms
              [ {| bu_resourceType := "memory"; bu_resourceId := Some "id-5";
                   bu_userId := "id-2";
                   bu_permissions :=
                     [ {| action := act_delete; granted := true |} ] |} ]
              "id-2" Hms example_uuid_injective)
    as (p' & E & _ & Hgrant).
  exists p'. split; [exact E|].
  apply (Hgrant _ act_delete {| action := act_delete; granted := true |} u
           (or_introl eq_refl) Hu eq_refl).
  - assert (Hrules : permissionRules example_engine = []) by reflexivity.
    rewrite Hrules. intros rule [].
  - intros other [<-|[]]. right. reflexivity.
Defined.

(** * Search terms and deduplication *)

(** ** Search terms *)

(** The characters a search term is made of: word characters that
    lower-casing leaves alone. *)
Definition term_char (c : ascii) : bool :=
  is_word_char c && Ascii.eqb (lower c) c.

Lemma strip_lower_char (c : ascii) :
  let r := if is_word_char (lower c) || is_space_char (lower c)
           then lower c else " "%char in
  is_space_char r || term_char r = true.
Proof.
  destruct c as [[] [] [] [] [] [] [] []]; reflexivity.
Qed.

Lemma list_ascii_of_string_app (a b : string) :
  list_ascii_of_string (a ++ b) =
  list_ascii_of_string a ++ list_ascii_of_string b.
Proof.
  induction a as [|c a IH]; simpl; [reflexivity|]. now rewrite IH.
Qed.

Lemma strip_lower_chars (s : string) :
  forall c, In c (list_ascii_of_string (strip_punctuation (toLowerCase s))) ->
            is_space_char c || term_char c = true.
Proof.
  induction s as [|c0 s IH]; simpl; [intros c []|].
  intros c [<-|Hin]; [apply strip_lower_char|now apply IH].
Qed.

Lemma split_spaces_from_chars (s : string) :
  forall cur in_run,
    (forall c, In c (list_ascii_of_string cur) -> term_char c = true) ->
    (forall c, In c (list_ascii_of_string s) ->
               is_space_char c || term_char c = true) ->
    forall piece, In piece (split_spaces_from cur in_run s) ->
    forall c, In c (list_ascii_of_string piece) -> term_char c = true.
Proof.
  induction s as [|c0 s IH]; intros cur in_run Hcur Hs piece Hp c Hc.
  - destruct Hp as [<-|[]]. now apply Hcur.
  - simpl in Hp.
    assert (Hs' : forall c, In c (list_ascii_of_string s) ->
                            is_space_char c || term_char c = true)
      by (intros c' Hc'; apply Hs; now right).
    assert (Hempty : forall c, In c (list_ascii_of_string "") ->
                               term_char c = true) by (intros c' []).
    destruct (is_space_char c0) eqn:Esp.
    + destruct in_run.
      * exact (IH cur true Hcur Hs' piece Hp c Hc).
      * destruct Hp as [<-|Hp]; [now apply Hcur|].
        exact (IH ""%string true Hempty Hs' piece Hp c Hc).
    + refine (IH _ false _ Hs' piece Hp c Hc).
      intros c' Hc'. rewrite list_ascii_of_string_app in Hc'.
      apply in_app_or in Hc'. destruct Hc' as [Hc'|[<-|[]]];
        [now apply Hcur|].
      specialize (Hs c0 (or_introl eq_refl)). now rewrite Esp in Hs.
Qed.

Lemma unique_from_spec (l : list string) :
  forall seen,
    NoDup (unique_from seen l) /\
    forall x, In x (unique_from seen l) -> In x l /\ ~ In x seen.
Proof.
  induction l as [|x t IH]; intros seen; simpl.
  - split; [constructor|intros x []].
  - destruct (includes seen x) eqn:E.
    + destruct (IH seen) as [Hnd Hin]. split; [exact Hnd|].
      intros y Hy. destruct (Hin y Hy). split; [now right|assumption].
    + destruct (IH (x :: seen)) as [Hnd Hin]. split.
      * constructor; [|exact Hnd]. intros Hx.
        destruct (Hin x Hx) as [_ Hn]. apply Hn. now left.
      * intros y [<-|Hy].
        -- split; [now left|]. intros Hs. apply includes_In in Hs.
           congruence.
        -- destruct (Hin y Hy) as [Ht Hn]. split; [now right|].
           intros Hs. apply Hn. now right.
Qed.

Lemma unique_from_complete (l : list string) :
  forall seen x, In x l -> In x seen \/ In x (unique_from seen l).
Proof.
  induction l as [|y t IH]; intros seen x Hin; [destruct Hin|].
  simpl. destruct (includes seen y) eqn:E.
  - destruct Hin as [<-|Hin]; [left; now apply includes_In|now apply IH].
  - destruct Hin as [<-|Hin]; [right; now left|].
    destruct (IH (y :: seen) x Hin) as [[<-|Hs]|Hu].
    + right. now left.
    + now left.
    + right. now right.
Qed.

(** X11.  The search terms [extractSearchTerms] returns are pairwise
    different; each is longer than two characters, is none of the eleven
    stop words, and consists of digits, lower-case letters and underscores
    only, whatever the message holds.  No other piece is dropped: every
    white-space separated piece of the lower-cased message (punctuation
    read as white space) that is longer than two characters and no stop
    word is one of the terms. *)
Theorem extractSearchTerms_shape (message : string) :
  NoDup (extractSearchTerms message) /\
  (forall term, In term (extractSearchTerms message) ->
     2 < String.length term /\
     ~ In term stop_words /\
     forall c, In c (list_ascii_of_string term) ->
               is_word_char c = true /\ lower c = c) /\
  (forall piece,
     In piece (split_spaces (strip_punctuation (toLowerCase message))) ->
     2 < String.length piece -> ~ In piece stop_words ->
     In piece (extractSearchTerms message)).
Proof.
  unfold extractSearchTerms.
  match goal with
  | |- context [unique_from [] ?l] =>
      destruct (unique_from_spec l []) as [Hnd Hin];
      pose proof (unique_from_complete l []) as Hall
  end.
  split; [exact Hnd|]. split.
  2:{ intros piece Hp Hlen Hstop.
      destruct (Hall piece) as [[]|Hu]; [|exact Hu].
      apply filter_In. split.
      - apply filter_In. split; [exact Hp|now apply Nat.ltb_lt].
      - destruct (includes stop_words piece) eqn:E; [|reflexivity].
        apply includes_In in E. contradiction. }
  intros term Hterm.
  destruct (Hin term Hterm) as [Hl _].
  apply filter_In in Hl. destruct Hl as [Hl Hstop].
  apply filter_In in Hl. destruct Hl as [Hpiece Hlen].
  split; [now apply Nat.ltb_lt|]. split.
  - intros Hs. apply includes_In in Hs. rewrite Hs in Hstop. discriminate.
  - intros c Hc.
    assert (Ht : term_char c = true).
    { refine (split_spaces_from_chars _ ""%string false _ _ term Hpiece c Hc).
      - intros c' [].
      - apply strip_lower_chars. }
    unfold term_char in Ht. apply Bool.andb_true_iff in Ht.
    destruct Ht as [Hw Hlow]. split; [exact Hw|].
    now apply Ascii.eqb_eq.
Qed.

(** ** Deduplication *)

Lemma dedup_from_fixed {A} (key : A -> string) (r : list A) :
  forall seen,
    NoDup (map key r) ->
    (forall x, In x r -> ~ In (key x) seen) ->
    dedup_from key seen r = r.
Proof.
  induction r as [|x t IH]; intros seen Hnd Hseen; [reflexivity|].
  simpl. inversion Hnd as [|k l Hnotin Hnd' Heq]; subst.
  destruct (includes seen (key x)) eqn:E.
  - apply includes_In in E. exfalso. apply (Hseen x); [now left|exact E].
  - f_equal. apply IH; [exact Hnd'|].
    intros y Hy [Hk|Hs].
    + apply Hnotin. rewrite Hk. now apply in_map.
    + apply (Hseen y); [now right|exact Hs].
Qed.

Lemma dedup_from_covers {A} (key : A -> string) (l : list A) :
  forall seen x,
    In x l ->
    In (key x) seen \/ In (key x) (map key (dedup_from key seen l)).
Proof.
  induction l as [|y t IH]; intros seen x Hin; [destruct Hin|].
  simpl. destruct (includes seen (key y)) eqn:E.
  - destruct Hin as [<-|Hin]; [left; now apply includes_In|now apply IH].
  - destruct Hin as [<-|Hin]; [right; now left|].
    destruct (IH (key y :: seen) x Hin) as [[Hk|Hs]|Hu].
    + right. left. exact Hk.
    + now left.
    + right. now right.
Qed.

(** X12.  [deduplicateMemories] keeps one memory per key
    ([type:first 50 characters of content]): the keys of the result are
    pairwise different, every memory of the result is one of the input,
    every key of the input is still represented, the first memory stays
    first, and deduplicating a second time changes nothing. *)
Theorem deduplicateMemories_keeps_one_per_key {A} (key : A -> string)
  (l : list A) :
  NoDup (map key (deduplicateMemories key l)) /\
  (forall x, In x (deduplicateMemories key l) -> In x l) /\
  (forall x, In x l -> In (key x) (map key (deduplicateMemories key l))) /\
  hd_error (deduplicateMemories key l) = hd_error l /\
  deduplicateMemories key (deduplicateMemories key l) =
    deduplicateMemories key l.
Proof.
  unfold deduplicateMemories.
  destruct (dedup_from_keys key l []) as [Hnd Hseen].
  split; [exact Hnd|]. split; [apply dedup_from_In|]. split.
  - intros x Hin. destruct (dedup_from_covers key l [] x Hin) as [[]|Hc].
    exact Hc.
  - split; [destruct l; reflexivity|].
    apply dedup_from_fixed; [exact Hnd|exact Hseen].
Qed.

(** * Further properties of the stores *)

(** ** [LIKE] *)

Lemma like_percent (s : string) : like "%" s = true.
Proof.
  induction s as [|c s IH]; [reflexivity|].
  simpl in *. exact IH.
Qed.

Lemma like_percent_skip (pat u s : string) :
  like pat s = true -> like (String "%" pat) (u ++ s) = true.
Proof.
  intros Hs. induction u as [|c u IH].
  - destruct s; simpl in *; rewrite Hs; reflexivity.
  - change (like pat (String c (u ++ s)) ||
            like (String "%" pat) (u ++ s) = true).
    rewrite IH. apply Bool.orb_true_r.
Qed.

Lemma like_prefix (q post : string) : like (q ++ "%") (q ++ post) = true.
Proof.
  induction q as [|p q IH]; [apply like_percent|].
  destruct (Ascii.eqb p "%") eqn:E.
  - apply Ascii.eqb_eq in E. subst p.
    apply (like_percent_skip (q ++ "%") "%" (q ++ post) IH).
  - change (like (String p (q ++ "%")) (String p (q ++ post)) = true).
    cbn [like]. rewrite E, IH, Ascii.eqb_refl.
    now rewrite Bool.orb_true_r.
Qed.

(** Every text matches [%q%] for each of its pieces [q], whether or not
    the piece holds wildcards of its own. *)
Lemma like_contains_substring (pre q post : string) :
  like_contains q (pre ++ q ++ post) = true.
Proof.
  unfold like_contains.
  apply (like_percent_skip (q ++ "%") pre (q ++ post)), like_prefix.
Qed.

(** ** [searchConversations] *)

Lemma searchConversations_Ok `{Host} query e d :
  db e = Some d ->
  searchConversations query e =
  (Ok (map (conversation_view d)
           (SELECT_conversations_like (project_id_of e) query d)), e).
Proof.
  intros Hd. unfold searchConversations.
  rewrite (bind_Ok _ _ _ (generateProjectId_eq e)).
  rewrite (bind_Ok _ _ _ (allQuery_Ok _ e Hd)).
  apply (@map_M_pure _ _ _ conversation_with_messages
           (conversation_view d) _ e).
  intros conv. unfold conversation_with_messages.
  rewrite (bind_Ok _ _ _ (allQuery_Ok _ e Hd)). reflexivity.
Qed.

Lemma message_rows_In `{Host} cid msgs m :
  In m msgs ->
  forall tick, exists r,
    In r (message_rows cid tick msgs) /\
    m_conversation_id r = cid /\ m_content r = msg_content m.
Proof.
  induction msgs as [|m0 t IH]; intros Hin tick; [destruct Hin|].
  destruct Hin as [->|Hin].
  - eexists. split; [left; reflexivity|]. split; reflexivity.
  - destruct (IH Hin (S tick)) as (r & Hr & Hc & Hm).
    exists r. split; [right; exact Hr|]. split; assumption.
Qed.

(** X13.  A recorded conversation is found by [searchConversations] under
    every piece of the content of each of its messages (wildcard
    characters of the piece included), with that message among the ones
    returned; the search itself changes nothing.  A conversation recorded
    without messages is found by no query, the empty one included. *)
Theorem searchConversations_finds_recorded `{Host}
  e d assistant msgs context :
  db e = Some d ->
  has_key c_id (uuid_v4 (uuid_calls e)) (conversations d) = false ->
  (forall m, In m msgs -> truthy (msg_id m) = true) ->
  NoDup (map msg_id msgs) ->
  (forall m, In m msgs -> has_key m_id (msg_id m) (messages d) = false) ->
  exists e1,
    recordConversation assistant msgs context e =
      (Ok (uuid_v4 (uuid_calls e)), e1) /\
    (forall m pre q post,
       In m msgs -> msg_content m = (pre ++ q ++ post)%string ->
       exists found conv,
         searchConversations q e1 = (Ok found, e1) /\
         In conv found /\ conv_id conv = uuid_v4 (uuid_calls e) /\
         aiAssistant conv = assistant /\
         In (msg_content m) (map msg_content (conv_messages conv))) /\
    (msgs = [] ->
     (forall r, In r (messages d) ->
                m_conversation_id r <> uuid_v4 (uuid_calls e)) ->
     forall q found conv,
       searchConversations q e1 = (Ok found, e1) ->
       In conv found -> conv_id conv <> uuid_v4 (uuid_calls e)).
Proof.
  intros Hd Hfresh Hids Hnd Hnew.
  destruct (recordConversation_Ok assistant msgs context e Hd Hfresh Hids
              Hnd Hnew) as (e1 & d1 & E1 & Hd1 & Hpath & Hconvs & Hmsgs & _).
  assert (Hpid : project_id_of e1 = project_id_of e)
    by (unfold project_id_of; now rewrite Hpath).
  exists e1. split; [exact E1|]. split.
  - intros m pre q post Hin Hcontent.
    destruct (message_rows_In (uuid_v4 (uuid_calls e)) msgs m Hin
                (S (sql_calls e))) as (r & Hr & Hcid & Hc).
    assert (Hrin : In r (messages d1))
      by (rewrite Hmsgs; apply in_or_app; now right).
    set (row := {| c_id := uuid_v4 (uuid_calls e);
                   c_project_id := project_id_of e;
                   c_ai_assistant := assistant;
                   c_timestamp := wall_clock (sql_calls e);
                   c_context := stringify_or_empty_object context |}).
    exists (map (conversation_view d1)
              (SELECT_conversations_like (project_id_of e1) q d1)),
           (conversation_view d1 row).
    split; [now apply searchConversations_Ok|]. split.
    + apply in_map. unfold SELECT_conversations_like, order_by_desc.
      apply In_sort_by. apply filter_In. split.
      * rewrite Hconvs. apply in_or_app. right. now left.
      * rewrite Hpid. simpl. rewrite String.eqb_refl. simpl.
        apply existsb_exists. exists r. split; [exact Hrin|].
        rewrite Hcid, String.eqb_refl, Hc, Hcontent. simpl.
        apply like_contains_substring.
    + split; [reflexivity|]. split; [reflexivity|].
      simpl. rewrite map_map. rewrite <- Hc.
      apply (in_map (fun x => msg_content (message_of_row x))).
      unfold SELECT_messages_of, order_by_asc. apply In_sort_by.
      apply filter_In. split; [exact Hrin|].
      rewrite Hcid. apply String.eqb_refl.
  - intros -> Hold q found conv Es Hin Hcid.
    rewrite (searchConversations_Ok q e1 Hd1) in Es.
    injection Es as <-. apply in_map_iff in Hin.
    destruct Hin as (row & <- & Hrow). simpl in Hcid.
    unfold SELECT_conversations_like, order_by_desc in Hrow.
    apply In_sort_by in Hrow. apply filter_In in Hrow.
    destruct Hrow as [_ Hrow].
    apply Bool.andb_true_iff in Hrow. destruct Hrow as [_ Hex].
    apply existsb_exists in Hex. destruct Hex as (r & Hr & Hm).
    apply Bool.andb_true_iff in Hm. destruct Hm as [Hm _].
    apply String.eqb_eq in Hm. rewrite Hmsgs in Hr. simpl in Hr.
    rewrite app_nil_r in Hr. apply (Hold r Hr). congruence.
Qed.

Lemma searchConversations_finds_recorded_witness :
  exists e1 found conv,
    recordConversation "claude" [question; answer] None initialized_engine =
      (Ok "id-0", e1) /\
    searchConversations "store" e1 = (Ok found, e1) /\
    In conv found /\ conv_id conv = "id-0".
Proof.
  assert (Hid : uuid_v4 (uuid_calls initialized_engine) = "id-0")
    by (vm_compute; reflexivity).
  destruct (@searchConversations_finds_recorded example_host
              initialized_engine initialized_database "claude"
              [question; answer] None initialized_engine_db)
    as (e1 & E1 & Hfind & _).
  - rewrite Hid. reflexivity.
  - intros m [<-|[<-|[]]]; reflexivity.
  - repeat constructor; simpl; intuition discriminate.
  - intros m [<-|[<-|[]]]; reflexivity.
  - destruct (Hfind question "How do we " "store" " memory?"
                (or_introl eq_refl) eq_refl)
      as (found & conv & Es & Hin & Hconv & _).
    rewrite Hid in *. exists e1, found, conv.
    split; [exact E1|]. split; [exact Es|]. split; [exact Hin|exact Hconv].
Defined.

(** ** [storeConversation] *)

(** X14.  [storeConversation] draws the two message ids first and the
    conversation id third, and stores the exchange as one conversation of
    the engine's own project, whatever [projectId] its argument carries:
    the row holds the provider (or [unknown]) and the context [{}], and is
    followed by a [user] message with the prompt and an [assistant] message
    with the response, dated by the statements that insert them and not by
    the [timestamp] of the argument. *)
Theorem storeConversation_uses_own_project `{Host} e d conversation :
  db e = Some d ->
  truthy (uuid_v4 (uuid_calls e)) = true ->
  truthy (uuid_v4 (S (uuid_calls e))) = true ->
  uuid_v4 (uuid_calls e) <> uuid_v4 (S (uuid_calls e)) ->
  has_key m_id (uuid_v4 (uuid_calls e)) (messages d) = false ->
  has_key m_id (uuid_v4 (S (uuid_calls e))) (messages d) = false ->
  has_key c_id (uuid_v4 (S (S (uuid_calls e)))) (conversations d) = false ->
  exists e1 d1,
    storeConversation conversation e = (Ok tt, e1) /\ db e1 = Some d1 /\
    conversations d1 =
      conversations d ++
      [ {| c_id := uuid_v4 (S (S (uuid_calls e)));
           c_project_id := project_id_of e;
           c_ai_assistant := or_else (ci_aiProvider conversation) "unknown";
           c_timestamp := wall_clock (sql_calls e);
           c_context := "{}" |} ] /\
    messages d1 =
      messages d ++
      [ {| m_id := uuid_v4 (uuid_calls e);
           m_conversation_id := uuid_v4 (S (S (uuid_calls e)));
           m_role := role_user; m_content := ci_message conversation;
           m_timestamp := wall_clock (S (sql_calls e));
           m_metadata := "{}" |};
        {| m_id := uuid_v4 (S (uuid_calls e));
           m_conversation_id := uuid_v4 (S (S (uuid_calls e)));
           m_role := role_assistant; m_content := ci_response conversation;
           m_timestamp := wall_clock (S (S (sql_calls e)));
           m_metadata := "{}" |} ].
Proof.
  intros Hd Ht1 Ht2 Hne Hk1 Hk2 Hkc.
  set (e2 := after_uuid (after_uuid e)).
  set (msgs :=
         [ {| msg_id := uuid_v4 (uuid_calls e); msg_role := role_user;
              msg_content := ci_message conversation;
              msg_timestamp := ci_timestamp conversation;
              msg_metadata := None |};
           {| msg_id := uuid_v4 (S (uuid_calls e));
              msg_role := role_assistant;
              msg_content := ci_response conversation;
              msg_timestamp := ci_timestamp conversation;
              msg_metadata := None |} ]).
  assert (Hd2 : db e2 = Some d) by exact Hd.
  destruct (@recordConversation_Ok _
              (or_else (ci_aiProvider conversation) "unknown") msgs None
              e2 d Hd2) as (e1 & d1 & E1 & Hd1 & _ & Hc & Hm & _).
  - exact Hkc.
  - intros m [<-|[<-|[]]]; assumption.
  - simpl. constructor; [intros [Heq|[]]; now apply Hne|].
    constructor; [intros []|constructor].
  - intros m [<-|[<-|[]]]; assumption.
  - exists e1, d1. split.
    + unfold storeConversation.
      rewrite (bind_Ok _ _ _ (generateProjectId_eq e)).
      rewrite (bind_Ok _ _ _ (uuidv4_eq e)).
      rewrite (bind_Ok _ _ _ (uuidv4_eq (after_uuid e))).
      fold e2. fold msgs. now rewrite (bind_Ok _ _ _ E1).
    + split; [exact Hd1|]. split; [exact Hc|exact Hm].
Qed.

Lemma storeConversation_uses_own_project_witness :
  exists e1 d1,
    storeConversation
      {| ci_message := "How do we store memory?";
         ci_response := "In one SQLite file per project.";
         ci_projectId := Some "another-project";
         ci_aiProvider := None; ci_timestamp := 42 |} initialized_engine =
      (Ok tt, e1) /\
    db e1 = Some d1 /\
    map c_project_id (conversations d1) = ["/work/app"] /\
    map c_ai_assistant (conversations d1) = ["unknown"] /\
    map m_timestamp (messages d1) = [1002; 1003].
Proof.
  destruct (@storeConversation_uses_own_project example_host
              initialized_engine initialized_database
              {| ci_message := "How do we store memory?";
                 ci_response := "In one SQLite file per project.";
                 ci_projectId := Some "another-project";
                 ci_aiProvider := None; ci_timestamp := 42 |}
              initialized_engine_db)
    as (e1 & d1 & E & Hd & Hc & Hm).
  - vm_compute. reflexivity.
  - vm_compute. reflexivity.
  - vm_compute. discriminate.
  - vm_compute. reflexivity.
  - vm_compute. reflexivity.
  - vm_compute. reflexivity.
  - exists e1, d1. split; [exact E|]. split; [exact Hd|].
    rewrite Hc, Hm. vm_compute. repeat split; reflexivity.
Defined.

(** ** [recordConversation] when a message is refused *)

Lemma for_each_app {S A} (l1 l2 : list A) (body : A -> Promise S unit) :
  forall s,
    for_each (l1 ++ l2) body s = (for_each l1 body ;;; for_each l2 body) s.
Proof.
  induction l1 as [|x t IH]; intros s; [reflexivity|].
  simpl. unfold bind.
  destruct (body x s) as [[[]|msg] s']; [|reflexivity].
  rewrite IH. reflexivity.
Qed.

Lemma has_key_In {R} (key : R -> string) k (l : list R) :
  has_key key k l = true <-> In k (map key l).
Proof.
  unfold has_key. rewrite existsb_exists, in_map_iff. split.
  - intros (r & Hr & E). apply String.eqb_eq in E. eauto.
  - intros (r & E & Hr). exists r. split; [exact Hr|].
    now apply String.eqb_eq.
Qed.

Lemma message_rows_ids `{Host} cid msgs :
  forall tick, map m_id (message_rows cid tick msgs) = map msg_id msgs.
Proof.
  induction msgs as [|m t IH]; intros tick; [reflexivity|].
  simpl. now rewrite IH.
Qed.

(** X15.  [recordConversation] is not atomic.  When a message carries an
    id that is already stored, or that an earlier message of the same call
    carries, the call rejects with the [UNIQUE] error of SQLite, and what
    was written before stays: the conversation row and the messages that
    precede the refused one.  The later messages are not stored, and the
    project's [last_active] is not updated. *)
Theorem recordConversation_is_not_atomic `{Host}
  e d assistant good m rest context :
  db e = Some d ->
  has_key c_id (uuid_v4 (uuid_calls e)) (conversations d) = false ->
  (forall x, In x good -> truthy (msg_id x) = true) ->
  NoDup (map msg_id good) ->
  (forall x, In x good -> has_key m_id (msg_id x) (messages d) = false) ->
  truthy (msg_id m) = true ->
  has_key m_id (msg_id m) (messages d) = true \/
    In (msg_id m) (map msg_id good) ->
  exists e1 d1,
    recordConversation assistant (good ++ m :: rest) context e =
      (Throw "SQLITE_CONSTRAINT: UNIQUE constraint failed: messages.id", e1) /\
    db e1 = Some d1 /\
    conversations d1 =
      conversations d ++
      [ {| c_id := uuid_v4 (uuid_calls e); c_project_id := project_id_of e;
           c_ai_assistant := assistant;
           c_timestamp := wall_clock (sql_calls e);
           c_context := stringify_or_empty_object context |} ] /\
    messages d1 =
      messages d ++
      message_rows (uuid_v4 (uuid_calls e)) (S (sql_calls e)) good /\
    projects d1 = projects d.
Proof.
  intros Hd Hc Hids Hnd Hfresh Hm Hclash.
  set (cid := uuid_v4 (uuid_calls e)).
  unfold recordConversation.
  rewrite (bind_Ok _ _ _ (uuidv4_eq e)). fold cid.
  rewrite (bind_Ok _ _ _ (generateProjectId_eq _)).
  set (crow := {| c_id := cid; c_project_id := project_id_of e;
                  c_ai_assistant := assistant;
                  c_timestamp := wall_clock (sql_calls e);
                  c_context := stringify_or_empty_object context |}).
  assert (Hd1 : db (after_uuid e) = Some d) by exact Hd.
  assert (Hins : INSERT_conversation cid (project_id_of (after_uuid e))
                   assistant (stringify_or_empty_object context)
                   (wall_clock (sql_calls (after_uuid e))) d =
                 Ok (with_conversations d (conversations d ++ [crow]))).
  { unfold INSERT_conversation. fold cid in Hc. now rewrite Hc. }
  rewrite (bind_Ok _ _ _ (runQuery_Ok _ _ Hd1 Hins)).
  set (dc := with_conversations d (conversations d ++ [crow])).
  set (ec := after_statement (after_uuid e) dc).
  set (dg := with_messages dc
               (messages dc ++ message_rows cid (sql_calls ec) good)).
  set (eg := {| projectPath := projectPath ec; db := Some dg;
                uuid_calls := uuid_calls ec;
                sql_calls := sql_calls ec + List.length good |}).
  assert (Hgood : for_each good (fun message =>
            id <- (if truthy (msg_id message) then ret (msg_id message)
                   else uuidv4) ;;
            runQuery (INSERT_message id cid (msg_role message)
                        (msg_content message)
                        (stringify_or_empty_object (msg_metadata message))))
            ec = (Ok tt, eg)).
  { apply (insert_messages_Ok cid good ec eq_refl Hids Hnd Hfresh). }
  assert (Hkey : has_key m_id (msg_id m) (messages dg) = true).
  { unfold dg. simpl. rewrite has_key_app.
    destruct Hclash as [Hold|Hin]; [now rewrite Hold|].
    apply Bool.orb_true_iff. right. apply has_key_In.
    now rewrite message_rows_ids. }
  assert (Hbad : INSERT_message (msg_id m) cid (msg_role m) (msg_content m)
                   (stringify_or_empty_object (msg_metadata m))
                   (wall_clock (sql_calls eg)) dg =
                 constraint_failed "messages.id").
  { unfold INSERT_message. now rewrite Hkey. }
  exists (after_statement eg dg), dg. split.
  - apply bind_Throw. rewrite for_each_app.
    rewrite (bind_Ok _ _ _ Hgood). simpl for_each. rewrite Hm.
    apply bind_Throw. unfold bind at 1. unfold ret at 1.
    assert (Hdg : db eg = Some dg) by reflexivity.
    apply (runQuery_Throw _ _ Hdg Hbad).
  - split; [reflexivity|]. split; [reflexivity|]. split; reflexivity.
Qed.

Lemma recordConversation_is_not_atomic_witness :
  exists e1 d1,
    recordConversation "claude"
      [question; answer; question; turn_message 7] None initialized_engine =
      (Throw "SQLITE_CONSTRAINT: UNIQUE constraint failed: messages.id", e1) /\
    db e1 = Some d1 /\
    map c_id (conversations d1) = ["id-0"] /\
    map m_id (messages d1) = ["m1"; "m2"] /\
    map p_last_active (projects d1) = [1000].
Proof.
  destruct (@recordConversation_is_not_atomic example_host
              initialized_engine initialized_database "claude"
              [question; answer] question [turn_message 7] None
              initialized_engine_db)
    as (e1 & d1 & E & Hd & Hc & Hm & Hp).
  - vm_compute. reflexivity.
  - intros x [<-|[<-|[]]]; reflexivity.
  - repeat constructor; simpl; intuition discriminate.
  - intros x [<-|[<-|[]]]; reflexivity.
  - reflexivity.
  - right. left. reflexivity.
  - exists e1, d1. split; [exact E|]. split; [exact Hd|].
    rewrite Hc, Hm, Hp. vm_compute. repeat split; reflexivity.
Defined.

(** ** [initialize] *)

Lemma getProjectMemory_project `{Host} e d p :
  db e = Some d ->
  hd_error (filter (fun r => String.eqb (p_id r) (project_id_of e))
                   (projects d)) = Some p ->
  exists pm,
    getProjectMemory e = (Ok pm, e) /\
    pm_id pm = p_id p /\ pm_name pm = p_name p /\
    rootPath pm = p_root_path p /\ createdAt pm = p_created_at p /\
    lastActive pm = p_last_active p /\
    pm_conversations pm =
      map (conversation_view d)
          (order_by_desc c_timestamp
             (filter (fun r => String.eqb (c_project_id r) (project_id_of e))
                     (conversations d))).
Proof.
  intros Hd Hp. unfold getProjectMemory.
  rewrite (bind_Ok _ _ _ (generateProjectId_eq e)).
  assert (Hq : forall R (q : Database -> list R),
             getQuery q e = (Ok (hd_error (q d)), e))
    by (intros; unfold getQuery; now rewrite Hd).
  rewrite (bind_Ok _ _ _ (Hq _ _)), Hp.
  rewrite (bind_Ok _ _ _ (allQuery_Ok _ e Hd)).
  rewrite (bind_Ok _ _ _
             (@map_M_pure _ _ _ conversation_with_messages
                (conversation_view d) _ e
                (fun conv =>
                   bind_Ok _ _ _ (allQuery_Ok _ e Hd)))).
  rewrite (bind_Ok _ _ _ (allQuery_Ok _ e Hd)).
  rewrite (bind_Ok _ _ _ (allQuery_Ok _ e Hd)).
  eexists. split; [reflexivity|]. simpl. repeat split; reflexivity.
Qed.

Lemma filter_filter_negb {A} (f : A -> bool) (l : list A) :
  filter f (filter (fun x => negb (f x)) l) = [].
Proof.
  apply filter_none. intros x Hx. apply filter_In in Hx.
  destruct Hx as [_ Hx]. now destruct (f x).
Qed.

(** X16.  Once the database file is open, [initialize] resolves, and
    [getProjectMemory] resolves after it: the project row is there, under the first sixteen characters
    of the MD5 of the project path, named after the last segment of the
    path.  The row is written anew each time: a row the file already held
    for the project is replaced, so that [createdAt] and [lastActive] are
    both the time of the latest [initialize]; the rows of other projects
    and every other table of the file are kept. *)
Theorem initialize_replaces_project_row `{Host} e on_disk :
  let d0 := match on_disk with Some d => d | None => empty_database end in
  exists e1 d1 pm,
    initialize on_disk e = (Ok tt, e1) /\ db e1 = Some d1 /\
    projects d1 =
      filter (fun r => negb (String.eqb (p_id r) (project_id_of e)))
             (projects d0) ++
      [ {| p_id := project_id_of e; p_name := basename (projectPath e);
           p_root_path := projectPath e;
           p_created_at := wall_clock (sql_calls e);
           p_last_active := wall_clock (sql_calls e) |} ] /\
    conversations d1 = conversations d0 /\ messages d1 = messages d0 /\
    architectural_decisions d1 = architectural_decisions d0 /\
    file_changes d1 = file_changes d0 /\
    getProjectMemory e1 = (Ok pm, e1) /\
    pm_id pm = project_id_of e /\
    pm_name pm = basename (projectPath e) /\
    rootPath pm = projectPath e /\
    createdAt pm = wall_clock (sql_calls e) /\
    lastActive pm = wall_clock (sql_calls e).
Proof.
  intros d0.
  set (row := {| p_id := project_id_of e; p_name := basename (projectPath e);
                 p_root_path := projectPath e;
                 p_created_at := wall_clock (sql_calls e);
                 p_last_active := wall_clock (sql_calls e) |}).
  set (d1 := with_projects d0
               (filter (fun r => negb (String.eqb (p_id r) (project_id_of e)))
                       (projects d0) ++ [row])).
  set (e0 := {| projectPath := projectPath e; db := Some d0;
                uuid_calls := uuid_calls e; sql_calls := sql_calls e |}).
  assert (E : initialize on_disk e = (Ok tt, after_statement e0 d1)).
  { unfold initialize, createTables. fold d0. fold e0.
    rewrite (bind_Ok _ _ _ (generateProjectId_eq e0)).
    apply (@runQuery_Ok _ _ e0 d0 d1 eq_refl). reflexivity. }
  assert (Hp : hd_error
                 (filter (fun r => String.eqb (p_id r)
                                     (project_id_of (after_statement e0 d1)))
                         (projects d1)) = Some row).
  { change (project_id_of (after_statement e0 d1)) with (project_id_of e).
    unfold d1. simpl projects. rewrite filter_app.
    rewrite (filter_filter_negb
               (fun r => String.eqb (p_id r) (project_id_of e))).
    simpl. now rewrite String.eqb_refl. }
  destruct (@getProjectMemory_project _ (after_statement e0 d1) d1 row
              eq_refl Hp) as (pm & Eg & H1 & H2 & H3 & H4 & H5 & _).
  exists (after_statement e0 d1), d1, pm.
  split; [exact E|]. split; [reflexivity|]. split; [reflexivity|].
  do 4 (split; [reflexivity|]). split; [exact Eg|].
  repeat split; assumption.
Qed.

(** ** The frequency of code patterns *)

(** Every stored pattern has frequency 1. *)
Definition unit_frequencies (e : MemoryEngine) : Prop :=
  match db e with
  | Some d => Forall (fun r => cp_frequency r = 1) (code_patterns d)
  | None => True
  end.

Definition keeps_frequencies {A} (m : M A) : Prop :=
  forall e, unit_frequencies e -> unit_frequencies (snd (m e)).

(** A statement that leaves the frequencies at 1 when it succeeds. *)
Definition statement_keeps_frequencies
  (stmt : nat -> Database -> result Database) : Prop :=
  forall now d d',
    Forall (fun r => cp_frequency r = 1) (code_patterns d) ->
    stmt now d = Ok d' ->
    Forall (fun r => cp_frequency r = 1) (code_patterns d').

Lemma keeps_frequencies_ret {A} (a : A) : keeps_frequencies (ret a).
Proof. intros e He. exact He. Qed.

Lemma keeps_frequencies_bind {A B} (m : M A) (k : A -> M B) :
  keeps_frequencies m -> (forall a, keeps_frequencies (k a)) ->
  keeps_frequencies (bind m k).
Proof.
  intros Hm Hk e He. unfold bind. specialize (Hm e He).
  destruct (m e) as [[a|msg] e']; simpl in *; [now apply Hk|exact Hm].
Qed.

Lemma keeps_frequencies_for_each {A} (l : list A) (body : A -> M unit) :
  (forall x, keeps_frequencies (body x)) -> keeps_frequencies (for_each l body).
Proof.
  intros Hb. induction l as [|x t IH]; simpl.
  - apply keeps_frequencies_ret.
  - apply keeps_frequencies_bind; [apply Hb|intros _; exact IH].
Qed.

Lemma keeps_frequencies_uuidv4 `{Host} : keeps_frequencies uuidv4.
Proof. intros e He. exact He. Qed.

Lemma keeps_frequencies_generateProjectId `{Host} :
  keeps_frequencies generateProjectId.
Proof. intros e He. exact He. Qed.

Lemma keeps_frequencies_allQuery {R} (q : Database -> list R) :
  keeps_frequencies (allQuery q).
Proof.
  intros e He. unfold allQuery. destruct (db e); exact He.
Qed.

Lemma keeps_frequencies_runQuery `{Host} stmt :
  statement_keeps_frequencies stmt -> keeps_frequencies (runQuery stmt).
Proof.
  intros Hs e He. unfold runQuery, unit_frequencies in *.
  destruct (db e) as [d|] eqn:Ed; [|simpl; now rewrite Ed].
  destruct (stmt (wall_clock (sql_calls e)) d) as [d'|msg] eqn:Es; simpl.
  - exact (Hs _ _ _ He Es).
  - exact He.
Qed.

Ltac statement_keeps :=
  let now := fresh "now" in
  let d := fresh "d" in
  let d' := fresh "d'" in
  let Hd := fresh "Hd" in
  let E := fresh "E" in
  intros now d d' Hd E;
  repeat match type of E with
         | context [if ?b then _ else _] => destruct b
         end;
  try discriminate; injection E as <-; simpl; try exact Hd.

Lemma keeps_frequencies_updateProjectActivity `{Host} :
  keeps_frequencies updateProjectActivity.
Proof.
  apply keeps_frequencies_bind; [apply keeps_frequencies_generateProjectId|].
  intros pid. apply keeps_frequencies_runQuery.
  unfold UPDATE_project_last_active. statement_keeps.
Qed.

Lemma keeps_frequencies_recordConversation `{Host} assistant msgs context :
  keeps_frequencies (recordConversation assistant msgs context).
Proof.
  unfold recordConversation.
  apply keeps_frequencies_bind; [apply keeps_frequencies_uuidv4|intros cid].
  apply keeps_frequencies_bind;
    [apply keeps_frequencies_generateProjectId|intros pid].
  apply keeps_frequencies_bind.
  { apply keeps_frequencies_runQuery. unfold INSERT_conversation.
    statement_keeps. }
  intros _. apply keeps_frequencies_bind.
  { apply keeps_frequencies_for_each. intros m.
    apply keeps_frequencies_bind.
    - destruct (truthy (msg_id m));
        [apply keeps_frequencies_ret|apply keeps_frequencies_uuidv4].
    - intros id. apply keeps_frequencies_runQuery. unfold INSERT_message.
      statement_keeps. }
  intros _. apply keeps_frequencies_bind;
    [apply keeps_frequencies_updateProjectActivity|].
  intros _. apply keeps_frequencies_ret.
Qed.

(** The writing methods of the two stores, as calls with their arguments;
    [store_initialize] opens the database file as the engine left it. *)
Inductive StoreCall :=
| store_initialize
| store_recordConversation (assistant : string) (msgs : list Message)
    (context : option json)
| store_recordArchitecturalDecision (dec : DecisionInput)
| store_trackFileChange (file_path : string) (change_type : ChangeType)
    (conversation_id : option string)
| store_clearAllMemory
| store_storeCodePattern (pattern_ : PatternInput)
| store_storeConversation (conversation : ConversationInput)
| store_addTeamMember (team : string) (member : NewTeamMember)
| store_createTeamMemory (team : string) (memory : NewTeamMemory)
| store_voteOnMemory (memoryId memberId : string) (v : Vote)
| store_addMemoryComment (memoryId memberId content : string)
    (parentCommentId : option string)
| store_trackMemoryUsage (memoryId usedBy context : string) (success_ : bool).

(** The engine after a call, whether the call resolved or rejected. *)
Definition after_store_call `{Host} (c : StoreCall) (e : MemoryEngine)
  : MemoryEngine :=
  match c with
  | store_initialize => snd (initialize (db e) e)
  | store_recordConversation a msgs ctx => snd (recordConversation a msgs ctx e)
  | store_recordArchitecturalDecision dec =>
      snd (recordArchitecturalDecision dec e)
  | store_trackFileChange p k c => snd (trackFileChange p k c e)
  | store_clearAllMemory => snd (clearAllMemory e)
  | store_storeCodePattern p => snd (storeCodePattern p e)
  | store_storeConversation c => snd (storeConversation c e)
  | store_addTeamMember t m => snd (addTeamMember t m e)
  | store_createTeamMemory t m => snd (createTeamMemory t m e)
  | store_voteOnMemory m u v => snd (voteOnMemory m u v e)
  | store_addMemoryComment m u c p => snd (addMemoryComment m u c p e)
  | store_trackMemoryUsage m u c s => snd (trackMemoryUsage m u c s e)
  end.

Definition after_store_calls `{Host} (calls : list StoreCall)
  (e : MemoryEngine) : MemoryEngine :=
  fold_left (fun x c => after_store_call c x) calls e.

Ltac keeps_frequencies_step :=
  match goal with
  | |- keeps_frequencies (ret _) => apply keeps_frequencies_ret
  | |- keeps_frequencies uuidv4 => apply keeps_frequencies_uuidv4
  | |- keeps_frequencies generateProjectId =>
      apply keeps_frequencies_generateProjectId
  | |- keeps_frequencies updateProjectActivity =>
      apply keeps_frequencies_updateProjectActivity
  | |- keeps_frequencies (recordConversation _ _ _) =>
      apply keeps_frequencies_recordConversation
  | |- keeps_frequencies (allQuery _) => apply keeps_frequencies_allQuery
  | |- keeps_frequencies (for_each _ _) =>
      apply keeps_frequencies_for_each; intro
  | |- keeps_frequencies (bind _ _) =>
      apply keeps_frequencies_bind; [|intro]
  | |- keeps_frequencies (runQuery _) => apply keeps_frequencies_runQuery
  end.

Lemma after_store_call_frequencies `{Host} c e :
  unit_frequencies e -> unit_frequencies (after_store_call c e).
Proof.
  intros He.
  assert (Hk : forall A (m : M A),
             keeps_frequencies m -> unit_frequencies (snd (m e)))
    by (intros A m Hm; apply Hm, He).
  destruct c; cbv beta iota delta [after_store_call].
  - unfold initialize, createTables, unit_frequencies in *.
    destruct (db e) as [d|] eqn:Ed; simpl; [exact He|constructor].
  - apply Hk. keeps_frequencies_step.
  - apply Hk. unfold recordArchitecturalDecision.
    repeat keeps_frequencies_step. unfold INSERT_decision. statement_keeps.
  - apply Hk. unfold trackFileChange.
    repeat keeps_frequencies_step. unfold INSERT_file_change. statement_keeps.
  - apply Hk. unfold clearAllMemory.
    repeat keeps_frequencies_step. unfold DELETE_where_project_id.
    statement_keeps.
    match goal with
    | x : Table |- _ => destruct x; simpl; try exact Hd
    end.
    apply Forall_forall. intros r Hr. apply filter_In in Hr.
    destruct Hr as [Hr _]. revert r Hr. now apply Forall_forall.
  - apply Hk. unfold storeCodePattern.
    repeat keeps_frequencies_step. unfold INSERT_code_pattern.
    statement_keeps. apply Forall_app. split; [exact Hd|].
    constructor; [reflexivity|constructor].
  - apply Hk. unfold storeConversation. repeat keeps_frequencies_step.
  - apply Hk. unfold addTeamMember.
    repeat keeps_frequencies_step. unfold INSERT_team_member.
    statement_keeps.
  - apply Hk. unfold createTeamMemory.
    repeat keeps_frequencies_step. unfold INSERT_team_memory.
    statement_keeps.
  - apply Hk. unfold voteOnMemory, updateMemorySuccessScore.
    repeat keeps_frequencies_step.
    + unfold INSERT_OR_REPLACE_vote. statement_keeps.
    + unfold UPDATE_success_score. statement_keeps.
  - apply Hk. unfold addMemoryComment.
    repeat keeps_frequencies_step. unfold INSERT_comment. statement_keeps.
  - apply Hk. unfold trackMemoryUsage.
    repeat keeps_frequencies_step.
    + unfold INSERT_usage. statement_keeps.
    + unfold UPDATE_usage_count. statement_keeps.
Qed.

(** X17.  The frequency of a code pattern is never counted: if every
    stored pattern has frequency 1, this is still so after any sequence of
    writing calls on the project store and the team store, with whatever
    arguments and whether the calls resolve or reject.  [storeCodePattern]
    inserts with frequency 1, also for a pattern that is already stored,
    and no method updates the column. *)
Theorem pattern_frequency_stays_one `{Host} (calls : list StoreCall)
  (e : MemoryEngine) :
  unit_frequencies e -> unit_frequencies (after_store_calls calls e).
Proof.
  unfold after_store_calls. revert e.
  induction calls as [|c t IH]; intros e He; [exact He|].
  simpl. apply IH. now apply after_store_call_frequencies.
Qed.

Definition a_pattern : PatternInput :=
  {| pi_pattern := "const db = new sqlite3.Database(path)";
     pi_language := "typescript"; pi_context := "opening the store";
     pi_success := true; pi_projectId := None |}.

Lemma pattern_frequency_stays_one_witness :
  unit_frequencies initialized_engine /\
  unit_frequencies
    (after_store_calls
       [store_storeCodePattern a_pattern; store_storeCodePattern a_pattern;
        store_clearAllMemory]
       initialized_engine) /\
  exists d,
    db (after_store_calls
          [store_storeCodePattern a_pattern; store_storeCodePattern a_pattern;
           store_clearAllMemory]
          initialized_engine) = Some d /\
    map cp_frequency (code_patterns d) = [1; 1].
Proof.
  assert (H0 : unit_frequencies initialized_engine).
  { unfold unit_frequencies. rewrite initialized_engine_db. constructor. }
  split; [exact H0|]. split.
  - apply (@pattern_frequency_stays_one example_host _ _ H0).
  - eexists. split; vm_compute; reflexivity.
Defined.

(** ** Votes *)

Lemma success_score_bounds (upvotes downvotes : nat) :
  (0 <= success_score_of upvotes downvotes)%Q /\
  (success_score_of upvotes downvotes <= 1)%Q.
Proof.
  unfold success_score_of.
  destruct (0 <? upvotes + downvotes) eqn:E; unfold Qle; simpl; [|lia].
  apply Nat.ltb_lt in E.
  assert (Hden : Z.pos (Pos.of_nat (upvotes + downvotes)) =
                 Z.of_nat (upvotes + downvotes)).
  { rewrite <- positive_nat_Z. rewrite Nat2Pos.id; [reflexivity|lia]. }
  rewrite Hden. lia.
Qed.

(** The votes on a memory, as [updateMemorySuccessScore] reads them. *)
Definition votes_on (memoryId : string) (d : Database) : list Vote :=
  map v_vote
      (filter (fun r => String.eqb (v_memory_id r) memoryId)
              (team_memory_votes d)).

(** X18.  On an open store [voteOnMemory] always resolves.  Afterwards the
    member has exactly one vote on the memory, the one just cast: an earlier
    vote of the same member on the same memory is replaced, the votes of
    other members and on other memories are kept.  The success score of the
    memory is then [upvotes / (upvotes + downvotes)] over the votes now
    stored for it, a fraction between 0 and 1; the other memories are left
    as they were. *)
Theorem voteOnMemory_one_vote_per_member `{Host} e d memoryId memberId v :
  db e = Some d ->
  exists e1 d1,
    voteOnMemory memoryId memberId v e = (Ok tt, e1) /\ db e1 = Some d1 /\
    filter (fun r => String.eqb (v_memory_id r) memoryId &&
                     String.eqb (v_member_id r) memberId)
           (team_memory_votes d1) =
      [ {| v_id := uuid_v4 (uuid_calls e); v_memory_id := memoryId;
           v_member_id := memberId; v_vote := v;
           v_timestamp := wall_clock (sql_calls e) |} ] /\
    (forall r, In r (team_memory_votes d) ->
       v_id r <> uuid_v4 (uuid_calls e) ->
       v_memory_id r <> memoryId \/ v_member_id r <> memberId ->
       In r (team_memory_votes d1)) /\
    (forall r, In r (team_memories d1) -> mem_id r = memoryId ->
       mem_success_score r =
         success_score_of
           (List.length (filter (Vote_eqb upvote) (votes_on memoryId d1)))
           (List.length (filter (Vote_eqb downvote) (votes_on memoryId d1))) /\
       (0 <= mem_success_score r)%Q /\ (mem_success_score r <= 1)%Q) /\
    (forall r, In r (team_memories d1) -> mem_id r <> memoryId ->
       In r (team_memories d)).
Proof.
  intros Hd.
  set (id := uuid_v4 (uuid_calls e)).
  set (row := {| v_id := id; v_memory_id := memoryId;
                 v_member_id := memberId; v_vote := v;
                 v_timestamp := wall_clock (sql_calls e) |}).
  set (kept := filter (fun r => negb (String.eqb (v_id r) id ||
                                      (String.eqb (v_memory_id r) memoryId &&
                                       String.eqb (v_member_id r) memberId)))
                      (team_memory_votes d)).
  set (dv := with_team_memory_votes d (kept ++ [row])).
  set (ev := after_statement (after_uuid e) dv).
  set (score := success_score_of
                  (List.length (filter (Vote_eqb upvote) (votes_on memoryId dv)))
                  (List.length (filter (Vote_eqb downvote)
                                       (votes_on memoryId dv)))).
  assert (Hd1 : db (after_uuid e) = Some d) by exact Hd.
  assert (E1 : runQuery (INSERT_OR_REPLACE_vote id memoryId memberId v)
                 (after_uuid e) = (Ok tt, ev))
    by (apply (runQuery_Ok _ _ Hd1); reflexivity).
  assert (Hdv : db ev = Some dv) by reflexivity.
  destruct (UPDATE_success_score score memoryId (wall_clock (sql_calls ev)) dv)
    as [d1|msg] eqn:Eu; [|discriminate].
  assert (E2 : updateMemorySuccessScore memoryId ev =
               (Ok tt, after_statement ev d1)).
  { unfold updateMemorySuccessScore.
    rewrite (bind_Ok _ _ _ (allQuery_Ok _ ev Hdv)).
    apply (runQuery_Ok _ _ Hdv). exact Eu. }
  injection Eu as Eu.
  assert (Hvotes : team_memory_votes d1 = kept ++ [row])
    by (rewrite <- Eu; reflexivity).
  assert (Hon : votes_on memoryId d1 = votes_on memoryId dv)
    by (unfold votes_on; rewrite Hvotes; reflexivity).
  exists (after_statement ev d1), d1. split.
  { unfold voteOnMemory. rewrite (bind_Ok _ _ _ (uuidv4_eq e)).
    fold id. rewrite (bind_Ok _ _ _ E1). exact E2. }
  split; [reflexivity|]. split; [|split; [|split]].
  - rewrite Hvotes, filter_app. simpl. rewrite !String.eqb_refl. simpl.
    rewrite (@filter_none _ _ kept); [reflexivity|].
    intros r Hr. unfold kept in Hr. apply filter_In in Hr.
    destruct Hr as [_ Hr].
    destruct (String.eqb (v_memory_id r) memoryId &&
              String.eqb (v_member_id r) memberId); [|reflexivity].
    now rewrite Bool.orb_true_r in Hr.
  - intros r Hr Hid Hother. rewrite Hvotes. apply in_or_app. left.
    unfold kept. apply filter_In. split; [exact Hr|].
    apply Bool.negb_true_iff. apply Bool.orb_false_iff. split.
    + now apply String.eqb_neq.
    + apply Bool.andb_false_iff.
      destruct Hother as [Ho|Ho]; [left|right]; now apply String.eqb_neq.
  - intros r Hr Hmem. rewrite Hon. fold score.
    assert (Hs : mem_success_score r = score).
    { rewrite <- Eu in Hr. simpl in Hr. apply in_map_iff in Hr.
      destruct Hr as (r0 & <- & _). cbv beta in *.
      destruct (String.eqb (mem_id r0) memoryId) eqn:En; [reflexivity|].
      apply String.eqb_neq in En. contradiction. }
    rewrite Hs. split; [reflexivity|]. apply success_score_bounds.
  - intros r Hr Hmem. rewrite <- Eu in Hr. simpl in Hr.
    apply in_map_iff in Hr. destruct Hr as (r0 & <- & Hr0). cbv beta in *.
    destruct (String.eqb (mem_id r0) memoryId) eqn:En; [|exact Hr0].
    simpl in Hmem. apply String.eqb_eq in En. contradiction.
Qed.

Lemma voteOnMemory_one_vote_per_member_witness :
  exists e1 d1,
    voteOnMemory "id-3" "id-0" downvote (engine voted_team) = (Ok tt, e1) /\
    db e1 = Some d1 /\
    map v_vote
        (filter (fun r => String.eqb (v_memory_id r) "id-3" &&
                          String.eqb (v_member_id r) "id-0")
                (team_memory_votes d1)) = [downvote].
Proof.
  assert (Hd : exists d, db (engine voted_team) = Some d)
    by (eexists; vm_compute; reflexivity).
  destruct Hd as [d Hd].
  destruct (@voteOnMemory_one_vote_per_member example_host
              (engine voted_team) d "id-3" "id-0" downvote Hd)
    as (e1 & d1 & E & Hd1 & F & _).
  exists e1, d1. split; [exact E|]. split; [exact Hd1|].
  rewrite F. reflexivity.
Defined.

(** ** Comments *)

Lemma insert_by_snoc {A} (le : A -> A -> bool) (y x : A) (s : list A) :
  le y x = true -> insert_by le y (s ++ [x]) = insert_by le y s ++ [x].
Proof.
  intros Hle. induction s as [|z s IH]; simpl.
  - now rewrite Hle.
  - destruct (le y z); [reflexivity|]. now rewrite IH.
Qed.

(** A row that may stand after all the others is sorted to the end. *)
Lemma sort_by_snoc {A} (le : A -> A -> bool) (x : A) (l : list A) :
  (forall y, In y l -> le y x = true) ->
  sort_by le (l ++ [x]) = sort_by le l ++ [x].
Proof.
  unfold sort_by. induction l as [|y t IH]; intros Hle; [reflexivity|].
  simpl. rewrite IH by (intros z Hz; apply Hle; now right).
  apply insert_by_snoc. apply Hle. now left.
Qed.

Definition comment_of_row (c : CommentRow) : MemoryComment :=
  {| comment_id := co_id c; comment_memberId := co_member_id c;
     comment_content := co_content c; comment_timestamp := co_timestamp c;
     parentCommentId := co_parent_comment_id c |}.

Lemma getMemoryComments_Ok memoryId e d :
  db e = Some d ->
  getMemoryComments memoryId e =
  (Ok (map comment_of_row
           (order_by_asc co_timestamp
              (filter (fun r => String.eqb (co_memory_id r) memoryId)
                      (team_memory_comments d)))), e).
Proof.
  intros Hd. unfold getMemoryComments.
  rewrite (bind_Ok _ _ _ (allQuery_Ok _ e Hd)). reflexivity.
Qed.

(** X19.  A comment added with a fresh id is read back by
    [getMemoryComments] after the comments the memory already had, with the
    member, the content and the parent it was given and the time of the
    insert, provided no stored comment of the memory is dated later; the
    comments of every other memory read back as before.  Neither the
    memory nor the member is looked up. *)
Theorem addMemoryComment_read_back `{Host}
  e d memoryId memberId content parentCommentId :
  db e = Some d ->
  has_key co_id (uuid_v4 (uuid_calls e)) (team_memory_comments d) = false ->
  (forall r, In r (team_memory_comments d) -> co_memory_id r = memoryId ->
             co_timestamp r <= wall_clock (sql_calls e)) ->
  exists e1 old,
    addMemoryComment memoryId memberId content parentCommentId e =
      (Ok (uuid_v4 (uuid_calls e)), e1) /\
    getMemoryComments memoryId e = (Ok old, e) /\
    getMemoryComments memoryId e1 =
      (Ok (old ++
           [ {| comment_id := uuid_v4 (uuid_calls e);
                comment_memberId := memberId; comment_content := content;
                comment_timestamp := wall_clock (sql_calls e);
                parentCommentId := parentCommentId |} ]), e1) /\
    forall other, other <> memoryId ->
      fst (getMemoryComments other e1) = fst (getMemoryComments other e).
Proof.
  intros Hd Hfresh Hlate.
  set (id := uuid_v4 (uuid_calls e)).
  set (row := {| co_id := id; co_memory_id := memoryId;
                 co_member_id := memberId; co_content := content;
                 co_timestamp := wall_clock (sql_calls e);
                 co_parent_comment_id := parentCommentId |}).
  set (d1 := with_team_memory_comments d (team_memory_comments d ++ [row])).
  set (e1 := after_statement (after_uuid e) d1).
  assert (Hd0 : db (after_uuid e) = Some d) by exact Hd.
  assert (E1 : runQuery (INSERT_comment id memoryId memberId content
                           parentCommentId) (after_uuid e) = (Ok tt, e1)).
  { apply (runQuery_Ok _ _ Hd0). unfold INSERT_comment.
    fold id in Hfresh. now rewrite Hfresh. }
  assert (Hd1 : db e1 = Some d1) by reflexivity.
  exists e1. eexists. split.
  { unfold addMemoryComment. rewrite (bind_Ok _ _ _ (uuidv4_eq e)).
    fold id. rewrite (bind_Ok _ _ _ E1). reflexivity. }
  split; [apply (getMemoryComments_Ok memoryId e Hd)|]. split.
  - rewrite (getMemoryComments_Ok memoryId e1 Hd1). f_equal. f_equal.
    unfold d1. simpl team_memory_comments. rewrite filter_app. simpl.
    rewrite String.eqb_refl. unfold order_by_asc.
    rewrite sort_by_snoc; [now rewrite map_app|].
    intros y Hy. apply filter_In in Hy. destruct Hy as [Hy Hm].
    apply String.eqb_eq in Hm. apply Nat.leb_le. simpl.
    now apply Hlate.
  - intros other Hother.
    rewrite (getMemoryComments_Ok other e1 Hd1),
            (getMemoryComments_Ok other e Hd). simpl. do 3 f_equal.
    rewrite filter_app. simpl.
    destruct (String.eqb memoryId other) eqn:En;
      [apply String.eqb_eq in En; congruence|].
    apply app_nil_r.
Qed.

Lemma addMemoryComment_read_back_witness :
  exists e1 cs,
    addMemoryComment "id-3" "id-1" "Works for me" None (engine example_team) =
      (Ok "id-6", e1) /\
    getMemoryComments "id-3" e1 = (Ok cs, e1) /\
    map comment_content cs = ["Works for me"] /\
    map comment_memberId cs = ["id-1"].
Proof.
  assert (Hd : exists d, db (engine example_team) = Some d /\
                         team_memory_comments d = []).
  { eexists. split; [vm_compute; reflexivity|]. vm_compute. reflexivity. }
  destruct Hd as (d & Hd & Hnone).
  assert (Hid : uuid_v4 (uuid_calls (engine example_team)) = "id-6")
    by (vm_compute; reflexivity).
  revert Hd Hid. generalize (engine example_team). intros e0 Hd Hid.
  destruct (@addMemoryComment_read_back example_host e0 d
              "id-3" "id-1" "Works for me" None Hd)
    as (e1 & old & E & Eold & Enew & _).
  - rewrite Hnone. reflexivity.
  - rewrite Hnone. intros r [].
  - rewrite (getMemoryComments_Ok "id-3" e0 Hd), Hnone in Eold.
    injection Eold as <-. rewrite Hid in E, Enew.
    exists e1. eexists. split; [exact E|].
    split; [exact Enew|]. split; reflexivity.
Defined.

(** ** Reading team memories *)

Definition vote_of_row (v : VoteRow) : MemoryVote :=
  {| vote_memberId := v_member_id v; vote := v_vote v;
     vote_timestamp := v_timestamp v |}.

(** A team memory as [getTeamMemories] returns it. *)
Definition memory_view (d : Database) (m : TeamMemoryRow) : TeamMemory :=
  {| memory_id := mem_id m; memory_type := mem_type m;
     title := mem_title m; memory_content := mem_content m;
     memory_context := mem_context m; createdBy := mem_created_by m;
     memory_createdAt := mem_created_at m;
     updatedAt := mem_updated_at m; tags := mem_tags m;
     visibility := mem_visibility m;
     memory_projectId := mem_project_id m;
     memory_metadata := mem_metadata m;
     votes := map vote_of_row
                  (filter (fun r => String.eqb (v_memory_id r) (mem_id m))
                          (team_memory_votes d));
     comments := map comment_of_row
                     (order_by_asc co_timestamp
                        (filter (fun r => String.eqb (co_memory_id r)
                                            (mem_id m))
                                (team_memory_comments d)));
     usageCount := mem_usage_count m;
     successScore := mem_success_score m |}.

Lemma getTeamMemories_Ok team flt e d :
  db e = Some d ->
  getTeamMemories team flt e =
  (Ok (map (memory_view d)
           (order_by_desc mem_created_at
              (filter (memory_matches team flt) (team_memories d)))), e).
Proof.
  intros Hd. unfold getTeamMemories.
  rewrite (bind_Ok _ _ _ (allQuery_Ok _ e Hd)).
  apply (@map_M_pure _ _ _ _ (memory_view d) _ e).
  intros m. unfold getMemoryVotes.
  rewrite (bind_Ok _ _ _ (bind_Ok _ _ _ (allQuery_Ok _ e Hd))).
  rewrite (bind_Ok _ _ _ (getMemoryComments_Ok (mem_id m) e Hd)).
  reflexivity.
Qed.

Lemma filter_map_commute {A} (p : A -> bool) (f : A -> A) (l : list A) :
  (forall x, p (f x) = p x) -> filter p (map f l) = map f (filter p l).
Proof.
  intros Hp. induction l as [|x t IH]; simpl; [reflexivity|].
  rewrite Hp. destruct (p x); simpl; now rewrite IH.
Qed.

Lemma insert_by_map {A} (le : A -> A -> bool) (f : A -> A) x (l : list A) :
  (forall a b, le (f a) (f b) = le a b) ->
  insert_by le (f x) (map f l) = map f (insert_by le x l).
Proof.
  intros Hle. induction l as [|y t IH]; simpl; [reflexivity|].
  rewrite Hle. destruct (le x y); simpl; [reflexivity|]. now rewrite IH.
Qed.

Lemma sort_by_map {A} (le : A -> A -> bool) (f : A -> A) (l : list A) :
  (forall a b, le (f a) (f b) = le a b) ->
  sort_by le (map f l) = map f (sort_by le l).
Proof.
  intros Hle. unfold sort_by. induction l as [|x t IH]; simpl; [reflexivity|].
  rewrite IH. now apply insert_by_map.
Qed.

(** ** Usage *)

(** A returned memory with one more use counted when it is memory [id]. *)
Definition counted_once_more (id : string) (m : TeamMemory) : TeamMemory :=
  if String.eqb (memory_id m) id
  then {| memory_id := memory_id m; memory_type := memory_type m;
          title := title m; memory_content := memory_content m;
          memory_context := memory_context m; createdBy := createdBy m;
          memory_createdAt := memory_createdAt m; updatedAt := updatedAt m;
          tags := tags m; visibility := visibility m;
          memory_projectId := memory_projectId m;
          memory_metadata := memory_metadata m; votes := votes m;
          comments := comments m; usageCount := usageCount m + 1;
          successScore := successScore m |}
  else m.

Lemma used_once_more_matches team flt id r :
  memory_matches team flt (used_once_more id r) = memory_matches team flt r.
Proof.
  unfold used_once_more. now destruct (String.eqb (mem_id r) id).
Qed.

(** X20.  [trackMemoryUsage] with a fresh usage id appends one usage row
    and counts one more use of the memory: whatever filter is given,
    [getTeamMemories] afterwards returns the memories it returned before,
    in the same order, with [usageCount] one higher for the memory used and
    nothing else changed.  The same memory used again is counted again, and
    a memory id that matches no memory leaves every count as it was. *)
Theorem trackMemoryUsage_counts_one_use `{Host}
  e d memoryId usedBy context success_ :
  db e = Some d ->
  has_key us_id (uuid_v4 (uuid_calls e)) (team_memory_usage d) = false ->
  exists e1 d1,
    trackMemoryUsage memoryId usedBy context success_ e = (Ok tt, e1) /\
    db e1 = Some d1 /\
    team_memory_usage d1 =
      team_memory_usage d ++
      [ {| us_id := uuid_v4 (uuid_calls e); us_memory_id := memoryId;
           us_used_by := usedBy; us_used_at := wall_clock (sql_calls e);
           us_context := context; us_success := success_ |} ] /\
    (forall team flt ms,
       getTeamMemories team flt e = (Ok ms, e) ->
       getTeamMemories team flt e1 =
         (Ok (map (counted_once_more memoryId) ms), e1)) /\
    ((forall r, In r (team_memories d) -> mem_id r <> memoryId) ->
     team_memories d1 = team_memories d).
Proof.
  intros Hd Hfresh.
  set (id := uuid_v4 (uuid_calls e)).
  set (row := {| us_id := id; us_memory_id := memoryId;
                 us_used_by := usedBy; us_used_at := wall_clock (sql_calls e);
                 us_context := context; us_success := success_ |}).
  set (du := with_team_memory_usage d (team_memory_usage d ++ [row])).
  set (eu := after_statement (after_uuid e) du).
  set (d1 := with_team_memories du
               (map (used_once_more memoryId) (team_memories du))).
  set (e1 := after_statement eu d1).
  assert (Hd0 : db (after_uuid e) = Some d) by exact Hd.
  assert (E1 : runQuery (INSERT_usage id memoryId usedBy context success_)
                 (after_uuid e) = (Ok tt, eu)).
  { apply (runQuery_Ok _ _ Hd0). unfold INSERT_usage.
    fold id in Hfresh. now rewrite Hfresh. }
  assert (Hdu : db eu = Some du) by reflexivity.
  assert (E2 : runQuery (UPDATE_usage_count memoryId) eu = (Ok tt, e1))
    by (apply (runQuery_Ok _ _ Hdu); reflexivity).
  assert (Hd1 : db e1 = Some d1) by reflexivity.
  exists e1, d1. split.
  { unfold trackMemoryUsage. rewrite (bind_Ok _ _ _ (uuidv4_eq e)).
    fold id. rewrite (bind_Ok _ _ _ E1). exact E2. }
  split; [reflexivity|]. split; [reflexivity|]. split.
  - intros team flt ms Hms.
    rewrite (getTeamMemories_Ok team flt e Hd) in Hms. injection Hms as <-.
    rewrite (getTeamMemories_Ok team flt e1 Hd1). f_equal. f_equal.
    unfold d1 at 2. simpl team_memories.
    rewrite filter_map_commute by apply used_once_more_matches.
    unfold order_by_desc. rewrite sort_by_map.
    2:{ intros a b. unfold used_once_more.
        destruct (String.eqb (mem_id a) memoryId),
                 (String.eqb (mem_id b) memoryId); reflexivity. }
    rewrite !map_map. apply map_ext. intros r.
    unfold counted_once_more, used_once_more, memory_view. simpl.
    destruct (String.eqb (mem_id r) memoryId); reflexivity.
  - intros Hnone. unfold d1. simpl. rewrite <- (map_id (team_memories d)) at 2.
    apply map_ext_in. intros r Hr. unfold used_once_more.
    destruct (String.eqb (mem_id r) memoryId) eqn:En; [|reflexivity].
    apply String.eqb_eq in En. exfalso. exact (Hnone r Hr En).
Qed.

Lemma trackMemoryUsage_counts_one_use_witness :
  exists e1 ms,
    trackMemoryUsage "id-3" "id-1" "answering a question" true
      (engine example_team) = (Ok tt, e1) /\
    getTeamMemories "team-1" None e1 = (Ok ms, e1) /\
    map memory_id ms = ["id-5"; "id-4"; "id-3"] /\
    map usageCount ms = [0; 0; 1].
Proof.
  assert (Hd : exists d, db (engine example_team) = Some d /\
                         team_memory_usage d = []).
  { eexists. split; [vm_compute; reflexivity|]. vm_compute. reflexivity. }
  destruct Hd as (d & Hd & Hnone).
  match eval vm_compute in
        (fst (getTeamMemories "team-1" None (engine example_team))) with
  | Ok ?ms0 =>
      assert (Hms0 : getTeamMemories "team-1" None (engine example_team) =
                     (Ok ms0, engine example_team))
        by (vm_compute; reflexivity)
  end.
  revert Hd Hms0. generalize (engine example_team). intros e0 Hd Hms0.
  destruct (@trackMemoryUsage_counts_one_use example_host e0 d
              "id-3" "id-1" "answering a question" true Hd)
    as (e1 & d1 & E & _ & _ & Hread & _).
  - rewrite Hnone. reflexivity.
  - exists e1. eexists. split; [exact E|].
    split; [exact (Hread _ _ _ Hms0)|]. split; reflexivity.
Defined.

(** ** Searching team memories *)

Definition team_memory_key (r : TeamMemoryRow) : string :=
  memory_key (mem_type r) (mem_content r).

(** X21.  On an open store [searchTeamMemories] changes nothing and returns
    at most 15 rows with pairwise different keys.  Each of them is a memory
    of the team whose title, content or context matches one of the search
    terms of the query, and a [private] memory is returned to its creator
    only: for a caller who gives no member id, only a private memory whose
    creator is the empty string would qualify. *)
Theorem searchTeamMemories_respects_visibility (e : MemoryEngine)
  (d : Database) (team query : string) (memberId : option string) :
  db e = Some d ->
  exists rows,
    searchTeamMemories team query memberId e = (Ok rows, e) /\
    List.length rows <= 15 /\
    NoDup (map team_memory_key rows) /\
    forall r, In r rows ->
      In r (team_memories d) /\ mem_team_id r = team /\
      (mem_visibility r = private ->
       mem_created_by r = or_else memberId "") /\
      exists term,
        In term (extractSearchTerms query) /\
        (like_contains term (mem_title r) ||
         like_contains term (mem_content r) ||
         like_contains term (mem_context r)) = true.
Proof.
  intros Hd. unfold searchTeamMemories.
  rewrite (bind_Ok _ _ _
             (@map_M_pure _ _ _ _
                (fun term => SELECT_team_memories_like team term
                               (or_else memberId "") d)
                (extractSearchTerms query) e
                (fun term => allQuery_Ok _ e Hd))).
  eexists. split; [reflexivity|]. split; [apply firstn_le_length|]. split.
  - rewrite <- firstn_map. apply NoDup_firstn.
    apply (dedup_from_keys team_memory_key _ []).
  - intros r Hr. apply In_firstn in Hr. apply dedup_from_In in Hr.
    apply in_concat in Hr. destruct Hr as (rows & Hrows & Hr).
    apply in_map_iff in Hrows. destruct Hrows as (term & <- & Hterm).
    unfold SELECT_team_memories_like in Hr. apply In_firstn in Hr.
    apply In_sort_by in Hr. apply filter_In in Hr. destruct Hr as [Hin Hc].
    apply Bool.andb_true_iff in Hc. destruct Hc as [Hc Hvis].
    apply Bool.andb_true_iff in Hc. destruct Hc as [Hteam Hlike].
    split; [exact Hin|]. split; [now apply String.eqb_eq|]. split.
    + intros Hp. rewrite Hp in Hvis. simpl in Hvis.
      now apply String.eqb_eq.
    + exists term. split; [exact Hterm|exact Hlike].
Qed.

Lemma searchTeamMemories_respects_visibility_witness :
  exists olga_finds dave_finds,
    searchTeamMemories "team-1" "Where are the notes?" (Some "id-2")
      (engine example_team) = (Ok olga_finds, engine example_team) /\
    map mem_id olga_finds = ["id-4"] /\
    searchTeamMemories "team-1" "Where are the notes?" (Some "id-1")
      (engine example_team) = (Ok dave_finds, engine example_team) /\
    map mem_id dave_finds = ["id-4"; "id-5"] /\
    forall r, In r olga_finds -> mem_visibility r = private ->
              mem_created_by r = "id-2".
Proof.
  assert (Hd : exists d, db (engine example_team) = Some d)
    by (eexists; vm_compute; reflexivity).
  destruct Hd as [d Hd].
  match eval vm_compute in
        (fst (searchTeamMemories "team-1" "Where are the notes?"
                (Some "id-2") (engine example_team))) with
  | Ok ?rows =>
      assert (Holga : searchTeamMemories "team-1" "Where are the notes?"
                        (Some "id-2") (engine example_team) =
                      (Ok rows, engine example_team))
        by (vm_compute; reflexivity)
  end.
  match eval vm_compute in
        (fst (searchTeamMemories "team-1" "Where are the notes?"
                (Some "id-1") (engine example_team))) with
  | Ok ?rows =>
      assert (Hdave : searchTeamMemories "team-1" "Where are the notes?"
                        (Some "id-1") (engine example_team) =
                      (Ok rows, engine example_team))
        by (vm_compute; reflexivity)
  end.
  revert Hd Holga Hdave. generalize (engine example_team).
  intros e0 Hd Holga Hdave.
  destruct (@searchTeamMemories_respects_visibility e0 d "team-1"
              "Where are the notes?" (Some "id-2") Hd)
    as (rows & E & _ & _ & Hrows).
  rewrite Holga in E. injection E as <-.
  eexists. eexists. split; [exact Holga|]. split; [reflexivity|].
  split; [exact Hdave|]. split; [reflexivity|].
  intros r Hr Hp. exact (proj1 (proj2 (proj2 (Hrows r Hr))) Hp).
Defined.

(** ** Team members *)





(** * Properties of [getRecentConversations] *)

Lemma chain_map {A B} (le : B -> B -> bool) (f : A -> B) (l : list A) :
  chain (fun x y => le (f x) (f y)) l -> chain le (map f l).
Proof.
  induction l as [|x t IH]; [exact id|].
  intros [Hx Ht]. split; [|now apply IH].
  destruct t; [exact I|exact Hx].
Qed.

Lemma or_else_nonempty (o : option string) (d : string) :
  d <> "" -> or_else o d <> "".
Proof.
  intros Hd. unfold or_else. destruct o as [s|]; [|exact Hd].
  unfold truthy. destruct (String.eqb s "") eqn:E; simpl; [exact Hd|].
  now apply String.eqb_neq.
Qed.

(** An entry of [getRecentConversations]. *)
Definition recent_entry (cm : ConversationRow * option MessageRow)
  : RecentConversation :=
  {| rc_message := or_else (option_map m_content (snd cm)) "No message";
     rc_aiProvider := or_else (Some (c_ai_assistant (fst cm))) "unknown";
     rc_timestamp := c_timestamp (fst cm) |}.

(** X30.  [getRecentConversations] lists messages, not conversations.  On
    an open store there is one list, newest conversation first, of which
    every call returns the first [limit] entries (the first 10 when no
    limit is given) without changing the store.  The list holds an entry
    for every message of every conversation of the project, and one entry
    saying [No message] for every conversation without messages; no entry
    has an empty message or an empty provider. *)
Theorem getRecentConversations_lists_messages `{Host} e d :
  db e = Some d ->
  exists all,
    (forall limit,
       getRecentConversations limit e =
       (Ok (firstn (match limit with Some n => n | None => 10 end) all), e)) /\
    chain (fun newer older => rc_timestamp older <=? rc_timestamp newer) all /\
    (forall r, In r all -> rc_message r <> "" /\ rc_aiProvider r <> "") /\
    (forall c, In c (conversations d) -> c_project_id c = project_id_of e ->
       (forall m, In m (messages d) -> m_conversation_id m = c_id c ->
          In (recent_entry (c, Some m)) all) /\
       ((forall m, In m (messages d) -> m_conversation_id m <> c_id c) ->
          In (recent_entry (c, None)) all)).
Proof.
  intros Hd.
  set (joined :=
         flat_map
           (fun c =>
              match filter (fun m => String.eqb (c_id c) (m_conversation_id m))
                           (messages d) with
              | [] => [(c, None)]
              | ms => map (fun m => (c, Some m)) ms
              end)
           (filter (fun c => String.eqb (c_project_id c) (project_id_of e))
                   (conversations d))).
  exists (map recent_entry
            (order_by_desc (fun cm => c_timestamp (fst cm)) joined)).
  split; [|split; [|split]].
  - intros limit. unfold getRecentConversations.
    rewrite (bind_Ok _ _ _ (generateProjectId_eq e)).
    rewrite (bind_Ok _ _ _ (allQuery_Ok _ e Hd)).
    unfold ret, SELECT_conversations_with_messages. fold joined.
    now rewrite firstn_map.
  - apply chain_map. apply (order_by_desc_chain (fun cm => c_timestamp (fst cm))).
  - intros r Hr. apply in_map_iff in Hr. destruct Hr as (cm & <- & _).
    split; apply or_else_nonempty; discriminate.
  - intros c Hc Hpid.
    assert (Hsel : In c (filter (fun c => String.eqb (c_project_id c)
                                            (project_id_of e))
                                (conversations d))).
    { apply filter_In. split; [exact Hc|]. rewrite Hpid.
      apply String.eqb_refl. }
    split.
    + intros m Hm Hcid. apply in_map. unfold order_by_desc.
      apply In_sort_by. unfold joined. apply in_flat_map.
      exists c. split; [exact Hsel|].
      assert (Hin : In m (filter (fun m => String.eqb (c_id c)
                                             (m_conversation_id m))
                                 (messages d))).
      { apply filter_In. split; [exact Hm|]. rewrite Hcid.
        apply String.eqb_refl. }
      destruct (filter (fun m => String.eqb (c_id c) (m_conversation_id m))
                       (messages d)) as [|m0 ms]; [destruct Hin|].
      now apply (in_map (fun m => (c, Some m))).
    + intros Hnone. apply in_map. unfold order_by_desc.
      apply In_sort_by. unfold joined. apply in_flat_map.
      exists c. split; [exact Hsel|].
      rewrite filter_none; [now left|].
      intros m Hm. apply String.eqb_neq. intros Heq.
      exact (Hnone m Hm (eq_sym Heq)).
Qed.

Lemma getRecentConversations_lists_messages_witness :
  exists e1 recent,
    recordConversation "claude" [question; answer] None initialized_engine =
      (Ok "id-0", e1) /\
    getRecentConversations None e1 = (Ok recent, e1) /\
    map rc_message recent =
      ["How do we store memory?"; "In one SQLite file per project."] /\
    map rc_aiProvider recent = ["claude"; "claude"].
Proof.
  match eval vm_compute in
        (recordConversation "claude" [question; answer] None
           initialized_engine) with
  | (Ok _, ?e1) =>
      assert (E : recordConversation "claude" [question; answer] None
                    initialized_engine = (Ok "id-0", e1))
        by (vm_compute; reflexivity);
      match eval vm_compute in (db e1) with
      | Some ?d1 =>
          destruct (@getRecentConversations_lists_messages example_host
                      e1 d1 eq_refl) as (all & Hall & _)
      end;
      match eval vm_compute in (fst (getRecentConversations None e1)) with
      | Ok ?found =>
          assert (Hrun : fst (getRecentConversations None e1) = Ok found)
            by (vm_compute; reflexivity);
          rewrite (Hall None) in Hrun;
          assert (Hfound : firstn 10 all = found)
            by (unfold fst in Hrun; congruence)
      end;
      exists e1; eexists; split; [exact E|];
      split; [exact (Hall None)|]
  end.
  cbv beta iota. rewrite Hfound. split; reflexivity.
Defined.

(** * Properties of [SubscriptionManager] *)

(** ** The file follows the memory *)

(** There is a subscription in memory, and the file holds it. *)
Definition saved (s : SubscriptionManager) : Prop :=
  exists sub, subscription s = Some sub /\ configFile s = file_with sub.

(** The methods, as calls with their arguments. *)
Inductive SubscriptionCall :=
| sub_initialize
| sub_loadSubscription
| sub_saveSubscription
| sub_createFreeSubscription
| sub_createTrialSubscription
| sub_checkAndResetMonthlyUsage
| sub_canExecute
| sub_canTrackFile
| sub_recordExecution
| sub_recordFileTracked
| sub_getUsageStats
| sub_getSubscriptionStatus
| sub_activatePaidSubscription (userId_ : string)
| sub_getTrialDaysRemaining
| sub_extendTrial (days : Z).

Definition after_subscription_call `{Platform} (c : SubscriptionCall)
  (s : SubscriptionManager) : SubscriptionManager :=
  match c with
  | sub_initialize => snd (initialize_subscription s)
  | sub_loadSubscription => snd (loadSubscription s)
  | sub_saveSubscription => snd (saveSubscription s)
  | sub_createFreeSubscription => snd (createFreeSubscription s)
  | sub_createTrialSubscription => snd (createTrialSubscription s)
  | sub_checkAndResetMonthlyUsage => snd (checkAndResetMonthlyUsage s)
  | sub_canExecute => snd (canExecute s)
  | sub_canTrackFile => snd (canTrackFile s)
  | sub_recordExecution => snd (recordExecution s)
  | sub_recordFileTracked => snd (recordFileTracked s)
  | sub_getUsageStats => snd (getUsageStats s)
  | sub_getSubscriptionStatus => snd (getSubscriptionStatus s)
  | sub_activatePaidSubscription u => snd (activatePaidSubscription u s)
  | sub_getTrialDaysRemaining => snd (getTrialDaysRemaining s)
  | sub_extendTrial days => snd (extendTrial days s)
  end.

Definition after_subscription_calls `{Platform}
  (calls : list SubscriptionCall) (s : SubscriptionManager)
  : SubscriptionManager :=
  fold_left (fun x c => after_subscription_call c x) calls s.

Ltac subscription_cases :=
  repeat match goal with
         | |- context [if ?b then _ else _] => destruct b
         | |- context [match sub_expiresAt ?x with _ => _ end] =>
             destruct (sub_expiresAt x)
         end.

Ltac run_subscription :=
  cbv beta iota delta
    [bind ret this_subscription set_subscription saveSubscription
     current_Date loadSubscription subscription configFile clock_reads
     fst snd].

Ltac saved_now :=
  repeat (run_subscription; subscription_cases);
  eexists; split; reflexivity.

Lemma checkAndResetMonthlyUsage_saved `{Platform} s :
  saved s -> saved (snd (checkAndResetMonthlyUsage s)).
Proof.
  intros (sub & Hs & Hf). destruct s as [current file n]. simpl in *.
  subst current file. unfold checkAndResetMonthlyUsage. saved_now.
Qed.

Lemma createFreeSubscription_saved `{Platform} s :
  saved (snd (createFreeSubscription s)).
Proof.
  unfold createFreeSubscription. destruct isDeveloper; saved_now.
Qed.

Lemma createTrialSubscription_saved `{Platform} s :
  saved (snd (createTrialSubscription s)).
Proof.
  unfold createTrialSubscription. saved_now.
Qed.

Lemma initialize_subscription_saved `{Platform} file :
  saved (snd (initialize_subscription (new_SubscriptionManager file))).
Proof.
  unfold initialize_subscription.
  destruct file as [| |sub].
  - assert (E : forall k : SM unit,
               snd ((loadSubscription ;;; current <- this_subscription ;;
                     (match current with
                      | None => createFreeSubscription
                      | Some _ => ret tt
                      end) ;;; k) (new_SubscriptionManager no_file)) =
               snd ((createFreeSubscription ;;; k)
                      (new_SubscriptionManager no_file)))
      by reflexivity.
    rewrite E. unfold bind at 1.
    pose proof (createFreeSubscription_saved (new_SubscriptionManager no_file))
      as Hc.
    destruct (createFreeSubscription (new_SubscriptionManager no_file))
      as [[[]|msg] s1]; simpl in *; [|exact Hc].
    now apply checkAndResetMonthlyUsage_saved.
  - assert (E : forall k : SM unit,
               snd ((loadSubscription ;;; current <- this_subscription ;;
                     (match current with
                      | None => createFreeSubscription
                      | Some _ => ret tt
                      end) ;;; k) (new_SubscriptionManager unreadable_file)) =
               snd ((createFreeSubscription ;;; k)
                      (new_SubscriptionManager unreadable_file)))
      by reflexivity.
    rewrite E. unfold bind at 1.
    pose proof (createFreeSubscription_saved
                  (new_SubscriptionManager unreadable_file)) as Hc.
    destruct (createFreeSubscription (new_SubscriptionManager unreadable_file))
      as [[[]|msg] s1]; simpl in *; [|exact Hc].
    now apply checkAndResetMonthlyUsage_saved.
  - change (saved (snd (checkAndResetMonthlyUsage
                          {| subscription := Some sub;
                             configFile := file_with sub;
                             clock_reads := 0 |}))).
    apply checkAndResetMonthlyUsage_saved. eexists. split; reflexivity.
Qed.

Lemma after_subscription_call_saved `{Platform} c s :
  saved s -> saved (after_subscription_call c s).
Proof.
  intros Hsaved. destruct c; cbv beta iota delta [after_subscription_call];
    try (now apply checkAndResetMonthlyUsage_saved);
    try (now apply createFreeSubscription_saved);
    try (now apply createTrialSubscription_saved);
    destruct Hsaved as (sub & Hs & Hf); destruct s as [current file n];
    simpl in *; subst current file.
  - change (saved (snd (checkAndResetMonthlyUsage
                          {| subscription := Some sub;
                             configFile := file_with sub;
                             clock_reads := n |}))).
    apply checkAndResetMonthlyUsage_saved. eexists. split; reflexivity.
  - saved_now.
  - saved_now.
  - unfold canExecute. saved_now.
  - unfold canTrackFile. saved_now.
  - unfold recordExecution. saved_now.
  - unfold recordFileTracked. saved_now.
  - saved_now.
  - saved_now.
  - unfold activatePaidSubscription. saved_now.
  - unfold getTrialDaysRemaining. saved_now.
  - unfold extendTrial. saved_now.
Qed.

(** X24.  After [initialize] on a newly constructed manager, and after
    every later call of whatever method with whatever arguments, there is a
    subscription in memory and the file [subscription.json] holds exactly
    that subscription: an unreadable or missing file is replaced by a new
    free (or developer) subscription, and every method that changes the
    subscription writes it out. *)
Theorem subscription_file_follows_memory `{Platform}
  (file : ConfigFile) (calls : list SubscriptionCall) :
  saved (after_subscription_calls calls
           (snd (initialize_subscription (new_SubscriptionManager file)))).
Proof.
  unfold after_subscription_calls.
  generalize (initialize_subscription_saved file).
  generalize (snd (initialize_subscription (new_SubscriptionManager file))).
  induction calls as [|c t IH]; intros s Hs; [exact Hs|].
  simpl. apply IH. now apply after_subscription_call_saved.
Qed.

(** ** The execution quota *)

(** A caller that asks [canExecute] before each execution and records each
    execution it was allowed. *)
Definition guarded_execution `{Platform} : SM bool :=
  verdict <- canExecute ;;
  if allowed verdict then recordExecution ;;; ret true else ret false.

(** [n] such attempts in a row; the result counts the executions allowed. *)
Fixpoint guarded_executions `{Platform} (n : nat) : SM N :=
  match n with
  | 0 => ret 0%N
  | S k =>
      ok <- guarded_execution ;;
      more <- guarded_executions k ;;
      ret ((if ok then 1 else 0) + more)%N
  end.

Lemma canExecute_active `{Platform} s sub :
  subscription s = Some sub ->
  sub_status sub = status_active ->
  sub_tier sub <> tier_developer ->
  canExecute s = (Ok (execution_limit_verdict sub), s).
Proof.
  intros Hs Hst Ht. unfold canExecute.
  rewrite (bind_Ok _ _ _ (eq_refl : this_subscription s = (Ok _, s))), Hs.
  destruct (sub_tier sub); try contradiction; rewrite Hst; reflexivity.
Qed.

Lemma execution_limit_verdict_allowed sub :
  allowed (execution_limit_verdict sub) =
  (executionsThisMonth (sub_usage sub) <?
   maxExecutionsPerMonth (sub_limits sub))%N.
Proof.
  unfold execution_limit_verdict. rewrite N.ltb_antisym.
  destruct (maxExecutionsPerMonth (sub_limits sub) <=?
            executionsThisMonth (sub_usage sub))%N;
    [destruct (Tier_eqb (sub_tier sub) tier_free)|]; reflexivity.
Qed.

Lemma N_ltb_eq (a b c d : N) :
  (a < b <-> c < d)%N -> (a <? b)%N = (c <? d)%N.
Proof.
  intros Hiff. destruct (N.ltb_spec a b), (N.ltb_spec c d);
    try reflexivity; lia.
Qed.

(** X25.  The monthly limit is enforced exactly.  For an active
    subscription of a tier other than [developer], a caller that asks
    [canExecute] before each execution and calls [recordExecution] for each
    one allowed is allowed, out of [n] attempts, as many executions as the
    limit leaves room for and no more; the month's count and the total
    count grow by that number, and [canExecute] then allows a further
    execution exactly when room is left.  Nothing in these calls resets the
    count. *)
Theorem execution_quota_is_enforced `{Platform} (n : nat) :
  forall s sub,
    subscription s = Some sub ->
    sub_status sub = status_active ->
    sub_tier sub <> tier_developer ->
    exists s' sub',
      guarded_executions n s =
        (Ok (N.min (N.of_nat n)
                   (maxExecutionsPerMonth (sub_limits sub) -
                    executionsThisMonth (sub_usage sub))), s') /\
      subscription s' = Some sub' /\
      executionsThisMonth (sub_usage sub') =
        (executionsThisMonth (sub_usage sub) +
         N.min (N.of_nat n)
               (maxExecutionsPerMonth (sub_limits sub) -
                executionsThisMonth (sub_usage sub)))%N /\
      totalExecutions (sub_usage sub') =
        (totalExecutions (sub_usage sub) +
         N.min (N.of_nat n)
               (maxExecutionsPerMonth (sub_limits sub) -
                executionsThisMonth (sub_usage sub)))%N /\
      sub_limits sub' = sub_limits sub /\ sub_tier sub' = sub_tier sub /\
      sub_status sub' = status_active /\
      exists verdict,
        fst (canExecute s') = Ok verdict /\
        allowed verdict =
          (N.of_nat n <?
           maxExecutionsPerMonth (sub_limits sub) -
           executionsThisMonth (sub_usage sub))%N.
Proof.
  induction n as [|k IH]; intros s sub Hs Hst Ht.
  - exists s, sub. split.
    { simpl. unfold ret. do 2 f_equal. lia. }
    split; [exact Hs|]. split; [lia|]. split; [lia|].
    do 3 (split; [reflexivity || assumption|]).
    exists (execution_limit_verdict sub). split.
    + now rewrite (canExecute_active s Hs Hst Ht).
    + rewrite execution_limit_verdict_allowed. apply N_ltb_eq. simpl. lia.
  - assert (Estep : forall K : bool -> SM N,
              (ok <- guarded_execution ;; K ok) s =
              if (executionsThisMonth (sub_usage sub) <?
                  maxExecutionsPerMonth (sub_limits sub))%N
              then (recordExecution ;;; K true) s else K false s).
    { intros K. unfold guarded_execution, bind.
      rewrite (canExecute_active s Hs Hst Ht).
      rewrite execution_limit_verdict_allowed.
      destruct (executionsThisMonth (sub_usage sub) <?
                maxExecutionsPerMonth (sub_limits sub))%N; [|reflexivity].
      destruct (recordExecution s) as [[[]|msg] s1]; reflexivity. }
    simpl guarded_executions. rewrite Estep. clear Estep.
    destruct (N.ltb_spec (executionsThisMonth (sub_usage sub))
                (maxExecutionsPerMonth (sub_limits sub))) as [Hroom|Hfull].
    + set (sub1 := with_usage sub
                     {| executionsThisMonth :=
                          N.succ (executionsThisMonth (sub_usage sub));
                        filesTracked := filesTracked (sub_usage sub);
                        lastResetDate := lastResetDate (sub_usage sub);
                        totalExecutions :=
                          N.succ (totalExecutions (sub_usage sub)) |}).
      set (s1 := {| subscription := Some sub1; configFile := file_with sub1;
                    clock_reads := clock_reads s |}).
      assert (E1 : recordExecution s = (Ok tt, s1)).
      { unfold recordExecution.
        rewrite (bind_Ok _ _ _ (eq_refl : this_subscription s = (Ok _, s))),
                Hs.
        reflexivity. }
      destruct (IH s1 sub1 eq_refl Hst Ht)
        as (s' & sub' & E & Hs' & Hm & Htot & Hl & Hti & Hsta & v & Ev & Hv).
      change (maxExecutionsPerMonth (sub_limits sub1))
        with (maxExecutionsPerMonth (sub_limits sub)) in *.
      change (executionsThisMonth (sub_usage sub1))
        with (N.succ (executionsThisMonth (sub_usage sub))) in *.
      change (totalExecutions (sub_usage sub1))
        with (N.succ (totalExecutions (sub_usage sub))) in *.
      exists s', sub'. split.
      { rewrite (bind_Ok _ _ _ E1), (bind_Ok _ _ _ E).
        unfold ret. do 2 f_equal. lia. }
      split; [exact Hs'|].
      split; [rewrite Hm; lia|]. split; [rewrite Htot; lia|].
      do 3 (split; [assumption|]).
      exists v. split; [exact Ev|]. rewrite Hv. apply N_ltb_eq. lia.
    + destruct (IH s sub Hs Hst Ht)
        as (s' & sub' & E & Hs' & Hm & Htot & Hl & Hti & Hsta & v & Ev & Hv).
      exists s', sub'. split.
      { rewrite (bind_Ok _ _ _ E). unfold ret. do 2 f_equal. lia. }
      split; [exact Hs'|].
      split; [rewrite Hm; lia|]. split; [rewrite Htot; lia|].
      do 3 (split; [assumption|]).
      exists v. split; [exact Ev|]. rewrite Hv. apply N_ltb_eq. lia.
Qed.

(** A process that is no developer's, a clock that advances by one second
    per reading, and a calendar of twelve months of thirty days. *)
#[export] Instance example_platform : Platform := {|
  env_CODECONTEXT_DEV := None;
  env_USER := Some "alice";
  process_cwd := "/work/app";
  time_now := fun n => (1705276800000 + 1000 * N.of_nat n)%N;
  getMonth := fun t => ((t / 2592000000) mod 12)%N;
  getFullYear := fun t => (1970 + t / 31104000000)%N;
  plus_days := fun t d => Z.to_N (Z.of_N t + d * 86400000);
  plus_months := fun t m => Z.to_N (Z.of_N t + m * 2592000000)
|}.

(** The manager of a new project after [initialize]: the free tier. *)
Definition free_manager : SubscriptionManager :=
  snd (initialize_subscription (new_SubscriptionManager no_file)).

Lemma execution_quota_is_enforced_witness :
  exists s',
    guarded_executions 30 free_manager = (Ok 25%N, s') /\
    exists verdict,
      fst (canExecute s') = Ok verdict /\ allowed verdict = false.
Proof.
  match eval vm_compute in (subscription free_manager) with
  | Some ?sub =>
      assert (Hs : subscription free_manager = Some sub)
        by (vm_compute; reflexivity);
      revert Hs; generalize free_manager; intros s0 Hs;
      destruct (@execution_quota_is_enforced example_platform 30 s0 sub Hs)
        as (s' & sub' & E & _ & _ & _ & _ & _ & _ & v & Ev & Hv)
  end.
  - reflexivity.
  - discriminate.
  - exists s'. split; [exact E|]. exists v. split; [exact Ev|].
    rewrite Hv. reflexivity.
Defined.

(** ** Paid activation *)

(** X26.  [activatePaidSubscription] leaves an [active] subscription of the
    given user, in memory and in the file.  On an existing subscription it
    changes the status, the user and the expiry date only: tier, limits and
    usage stay, so that a free-tier subscription keeps its limits after
    activation.  Without a subscription it starts from a new trial: tier
    [pro], 700 executions a month and 1000 files.  The expiry date it sets,
    one month ahead, is not enforced: whatever the clock says later,
    [canExecute] on the activated subscription answers by tier and usage
    alone. *)
Theorem activatePaidSubscription_keeps_tier_and_limits `{Platform}
  (s : SubscriptionManager) (user : string) :
  exists s' sub',
    activatePaidSubscription user s = (Ok tt, s') /\
    subscription s' = Some sub' /\ configFile s' = file_with sub' /\
    sub_status sub' = status_active /\ sub_userId sub' = user /\
    (forall sub, subscription s = Some sub ->
       sub_tier sub' = sub_tier sub /\ sub_limits sub' = sub_limits sub /\
       sub_usage sub' = sub_usage sub /\
       sub_expiresAt sub' =
         Some (plus_months (time_now (clock_reads s)) 1)) /\
    (subscription s = None ->
       sub_tier sub' = tier_pro /\
       maxExecutionsPerMonth (sub_limits sub') = 700%N /\
       maxFilesTracked (sub_limits sub') = 1000%N /\
       executionsThisMonth (sub_usage sub') = 0%N) /\
    (forall later,
       canExecute {| subscription := Some sub';
                     configFile := file_with sub';
                     clock_reads := later |} =
       (Ok (if Tier_eqb (sub_tier sub') tier_developer
            then {| allowed := true; reason := None |}
            else execution_limit_verdict sub'),
        {| subscription := Some sub'; configFile := file_with sub';
           clock_reads := later |})).
Proof.
  destruct s as [[sub|] file n].
  - eexists. eexists. split.
    { unfold activatePaidSubscription. run_subscription. reflexivity. }
    split; [reflexivity|]. split; [reflexivity|]. split; [reflexivity|].
    split; [reflexivity|]. split.
    { intros sub0 E. injection E as <-. repeat split; reflexivity. }
    split; [discriminate|].
    intros later. unfold canExecute. run_subscription. simpl.
    destruct (sub_tier sub); reflexivity.
  - eexists. eexists. split.
    { unfold activatePaidSubscription, createTrialSubscription.
      run_subscription. reflexivity. }
    split; [reflexivity|]. split; [reflexivity|]. split; [reflexivity|].
    split; [reflexivity|]. split; [discriminate|].
    split; [repeat split; reflexivity|].
    intros later. reflexivity.
Qed.

(** ** The end of a trial *)

(** X27.  A trial ends when [canExecute] sees that its expiry date has
    passed: the call refuses, marks the subscription [expired] and writes
    it out.  From then on the subscription stays expired: [canExecute]
    refuses without looking at the clock, no days remain, and [extendTrial]
    does nothing, whatever number of days is given.  Had the trial been
    extended to the present or beyond before [canExecute] saw the expiry,
    the answer would have depended on the usage alone. *)
Theorem expired_trial_stays_expired `{Platform} s sub expiry :
  subscription s = Some sub ->
  sub_status sub = status_trial ->
  sub_tier sub <> tier_developer ->
  sub_expiresAt sub = Some expiry ->
  (expiry < time_now (clock_reads s))%N ->
  exists s',
    canExecute s =
      (Ok {| allowed := false;
             reason := Some "Trial expired. Upgrade to Pro at codecontextpro.com"
          |}, s') /\
    subscription s' = Some (with_status sub status_expired) /\
    configFile s' = file_with (with_status sub status_expired) /\
    (forall days, extendTrial days s' = (Ok tt, s')) /\
    getTrialDaysRemaining s' = (Ok 0%N, s') /\
    canExecute s' =
      (Ok {| allowed := false;
             reason :=
               Some "Subscription expired. Please renew at codecontextpro.com"
          |}, s') /\
    (forall days,
       (time_now (clock_reads s) <= plus_days expiry days)%N ->
       exists verdict,
         fst (canExecute (snd (extendTrial days s))) = Ok verdict /\
         allowed verdict =
           (executionsThisMonth (sub_usage sub) <?
            maxExecutionsPerMonth (sub_limits sub))%N).
Proof.
  intros Hs Hst Ht He Hlate.
  destruct s as [current file n]. simpl in Hs, Hlate. subst current.
  destruct sub as [st ti uid ex us li]. simpl in Hst, Ht, He. subst st ex.
  assert (Hti : Tier_eqb ti tier_developer = false)
    by (destruct ti; try reflexivity; contradiction).
  eexists. split.
  { unfold canExecute. run_subscription. simpl. rewrite Hti.
    run_subscription. rewrite (proj2 (N.ltb_lt _ _) Hlate).
    run_subscription. reflexivity. }
  split; [reflexivity|]. split; [reflexivity|]. split; [reflexivity|].
  split; [reflexivity|]. split.
  { unfold canExecute. run_subscription. simpl. now rewrite Hti. }
  intros days Hdays. eexists. split.
  - unfold extendTrial, canExecute. run_subscription. simpl. rewrite Hti.
    run_subscription.
    assert (Hnot : (plus_days expiry days <? time_now n)%N = false)
      by (apply N.ltb_ge; exact Hdays).
    rewrite Hnot. reflexivity.
  - rewrite execution_limit_verdict_allowed. reflexivity.
Qed.

(** A trial that ended before the clock of [example_platform] starts, as
    the file may hold it from an earlier session. *)
Definition old_trial : SubscriptionInfo :=
  {| sub_status := status_trial; sub_tier := tier_pro;
     sub_userId := "trial-user"; sub_expiresAt := Some 1700000000000%N;
     sub_usage := {| executionsThisMonth := 12%N; filesTracked := 3%N;
                     lastResetDate := 1698800000000%N;
                     totalExecutions := 12%N |};
     sub_limits := {| maxExecutionsPerMonth := 700%N;
                      maxFilesTracked := 1000%N;
                      advancedPatternRecognition := true;
                      unlimitedMemory := true |} |}.

Lemma expired_trial_stays_expired_witness :
  exists s',
    canExecute (snd (loadSubscription
                       (new_SubscriptionManager (file_with old_trial)))) =
      (Ok {| allowed := false;
             reason := Some "Trial expired. Upgrade to Pro at codecontextpro.com"
          |}, s') /\
    option_map sub_status (subscription s') = Some status_expired /\
    extendTrial 30 s' = (Ok tt, s').
Proof.
  destruct (@expired_trial_stays_expired example_platform
              (snd (loadSubscription
                      (new_SubscriptionManager (file_with old_trial))))
              old_trial 1700000000000%N)
    as (s' & E & Hs' & _ & Hext & _).
  - reflexivity.
  - reflexivity.
  - discriminate.
  - reflexivity.
  - vm_compute. reflexivity.
  - exists s'. split; [exact E|]. split; [now rewrite Hs'|apply Hext].
Defined.

(** ** Days remaining *)

Lemma ceil_div_bounds (a b : Z) :
  (0 < b)%Z ->
  ((ceil_div a b - 1) * b < a <= ceil_div a b * b)%Z.
Proof.
  intros Hb. unfold ceil_div.
  pose proof (Z.div_mod (- a) b) as Hdm.
  pose proof (Z.mod_pos_bound (- a) b Hb) as Hmod.
  assert (Hne : b <> 0%Z) by lia. specialize (Hdm Hne).
  nia.
Qed.

(** X28.  [getTrialDaysRemaining] rounds up to whole days of 86,400,000
    milliseconds: for a trial it is 0 exactly from the expiry date on, and
    before that the least number of days that covers the time left, so that
    a trial with one millisecond left still shows one day.  The clock is
    read once. *)
Theorem getTrialDaysRemaining_rounds_up `{Platform} s sub expiry :
  subscription s = Some sub ->
  sub_status sub = status_trial ->
  sub_expiresAt sub = Some expiry ->
  exists days,
    getTrialDaysRemaining s =
      (Ok days, {| subscription := subscription s; configFile := configFile s;
                   clock_reads := S (clock_reads s) |}) /\
    ((expiry <= time_now (clock_reads s))%N -> days = 0%N) /\
    ((time_now (clock_reads s) < expiry)%N ->
     ((Z.of_N days - 1) * 86400000 <
      Z.of_N expiry - Z.of_N (time_now (clock_reads s)) <=
      Z.of_N days * 86400000)%Z).
Proof.
  intros Hs Hst He. destruct s as [current file n]. simpl in Hs.
  subst current. eexists. split.
  { unfold getTrialDaysRemaining. run_subscription.
    rewrite Hst, He. reflexivity. }
  simpl clock_reads.
  change (1000 * 60 * 60 * 24)%Z with 86400000%Z.
  pose proof (@ceil_div_bounds
                (Z.of_N expiry - Z.of_N (time_now n))%Z
                86400000%Z eq_refl) as Hc.
  split; intros Hcmp; lia.
Qed.

(** The manager after [createTrialSubscription] on a new project. *)
Definition trial_manager : SubscriptionManager :=
  snd (createTrialSubscription (new_SubscriptionManager no_file)).

Lemma getTrialDaysRemaining_rounds_up_witness :
  exists s', getTrialDaysRemaining trial_manager = (Ok 14%N, s').
Proof.
  match eval vm_compute in (subscription trial_manager) with
  | Some ?sub =>
      destruct (@getTrialDaysRemaining_rounds_up example_platform
                  trial_manager sub 1706486400000%N)
        as (days & E & _ & Hdays)
  end.
  - vm_compute. reflexivity.
  - reflexivity.
  - reflexivity.
  - assert (Hnow : time_now (clock_reads trial_manager) = 1705276802000%N)
      by (vm_compute; reflexivity).
    rewrite Hnow in Hdays.
    assert (H14 : days = 14%N) by lia.
    subst days. eexists. exact E.
Defined.

(** ** The monthly reset *)

(** The calls that load or create a subscription or run the monthly check. *)
Definition may_reset (c : SubscriptionCall) : bool :=
  match c with
  | sub_initialize | sub_loadSubscription | sub_createFreeSubscription
  | sub_createTrialSubscription | sub_checkAndResetMonthlyUsage => true
  | _ => false
  end.

(** The usage with the month's count back at zero, stamped [now]. *)
Definition reset_usage (sub : SubscriptionInfo) (now : N) : SubscriptionInfo :=
  with_usage sub
    {| executionsThisMonth := 0%N;
       filesTracked := filesTracked (sub_usage sub);
       lastResetDate := now;
       totalExecutions := totalExecutions (sub_usage sub) |}.

Lemma after_subscription_call_counts `{Platform} c s sub :
  may_reset c = false ->
  subscription s = Some sub ->
  exists sub',
    subscription (after_subscription_call c s) = Some sub' /\
    (executionsThisMonth (sub_usage sub) <=
     executionsThisMonth (sub_usage sub'))%N /\
    (totalExecutions (sub_usage sub) <= totalExecutions (sub_usage sub'))%N /\
    (filesTracked (sub_usage sub) <= filesTracked (sub_usage sub'))%N /\
    lastResetDate (sub_usage sub') = lastResetDate (sub_usage sub).
Proof.
  intros Hc Hs. destruct s as [current file n]. simpl in Hs. subst current.
  destruct c; try discriminate Hc; cbv beta iota delta [after_subscription_call];
    [ | unfold canExecute | unfold canTrackFile | unfold recordExecution
      | unfold recordFileTracked | unfold getUsageStats
      | unfold getSubscriptionStatus | unfold activatePaidSubscription
      | unfold getTrialDaysRemaining | unfold extendTrial ];
    repeat (run_subscription; subscription_cases);
    eexists; (split; [reflexivity|]); simpl; repeat split; lia.
Qed.

(** X29.  The month's count of executions is set back by the monthly check
    of [initialize] and by nothing else.  [initialize] on a stored
    subscription resets the count and stamps the date when the month or the
    year of the last reset differs from the present one, keeping the total
    count, the tracked files, tier, status and limits, and changes nothing
    otherwise.  Every other method, short of loading or creating a
    subscription, leaves the date of the last reset alone and never lowers
    a count: a process that stays up over the turn of the month keeps
    counting against the old month. *)
Theorem month_count_reset_only_by_initialize `{Platform}
  (calls : list SubscriptionCall) :
  (forall sub,
     subscription
       (snd (initialize_subscription
               (new_SubscriptionManager (file_with sub)))) =
     Some (if negb (getMonth (lastResetDate (sub_usage sub)) =?
                    getMonth (time_now 0))%N ||
              negb (getFullYear (lastResetDate (sub_usage sub)) =?
                    getFullYear (time_now 0))%N
           then reset_usage sub (time_now 0) else sub)) /\
  forall s sub,
    (forall c, In c calls -> may_reset c = false) ->
    subscription s = Some sub ->
    exists sub',
      subscription (after_subscription_calls calls s) = Some sub' /\
      (executionsThisMonth (sub_usage sub) <=
       executionsThisMonth (sub_usage sub'))%N /\
      (totalExecutions (sub_usage sub) <= totalExecutions (sub_usage sub'))%N /\
      (filesTracked (sub_usage sub) <= filesTracked (sub_usage sub'))%N /\
      lastResetDate (sub_usage sub') = lastResetDate (sub_usage sub).
Proof.
  split.
  - intros sub. unfold initialize_subscription, checkAndResetMonthlyUsage,
      new_SubscriptionManager.
    run_subscription.
    destruct (negb (getMonth (lastResetDate (sub_usage sub)) =?
                    getMonth (time_now 0))%N ||
              negb (getFullYear (lastResetDate (sub_usage sub)) =?
                    getFullYear (time_now 0))%N);
      reflexivity.
  - unfold after_subscription_calls.
    induction calls as [|c t IH]; intros s sub Hcalls Hs.
    + exists sub. split; [exact Hs|]. repeat split; lia.
    + simpl.
      destruct (after_subscription_call_counts c s
                  (Hcalls c (or_introl eq_refl)) Hs)
        as (sub1 & Hs1 & H1 & H2 & H3 & H4).
      destruct (IH (after_subscription_call c s) sub1
                  (fun c' Hc' => Hcalls c' (or_intror Hc')) Hs1)
        as (sub' & Hs' & H1' & H2' & H3' & H4').
      exists sub'. split; [exact Hs'|]. repeat split; lia.
Qed.

Lemma month_count_reset_only_by_initialize_witness :
  exists sub',
    subscription
      (after_subscription_calls
         [sub_canExecute; sub_recordExecution; sub_recordFileTracked;
          sub_recordExecution; sub_activatePaidSubscription "user-7"]
         free_manager) = Some sub' /\
    (0 <= executionsThisMonth (sub_usage sub'))%N /\
    lastResetDate (sub_usage sub') = 1705276800000%N.
Proof.
  match eval vm_compute in (subscription free_manager) with
  | Some ?sub =>
      assert (Hs : subscription free_manager = Some sub)
        by (vm_compute; reflexivity);
      destruct (proj2 (@month_count_reset_only_by_initialize example_platform
                         [sub_canExecute; sub_recordExecution;
                          sub_recordFileTracked; sub_recordExecution;
                          sub_activatePaidSubscription "user-7"])
                  free_manager sub)
        as (sub' & Hs' & H1 & _ & _ & H4)
  end.
  - intros c Hc.
    repeat (destruct Hc as [<-|Hc]; [reflexivity|]). destruct Hc.
  - exact Hs.
  - exists sub'. split; [exact Hs'|]. split; [exact H1|exact H4].
Defined.
